(** * Coletas (app.py): manifest parsing, record normalisation and matching

    A shallow embedding of the core of [app.py]: the byte decoder, the line
    tokenizer, the header locator, the table builder, the column mapper, the
    field normaliser and key builder, the base repository, the upload
    handler with its matcher, the front page and the report.

    Python values are modelled as follows.
    - [str] is a sequence of Unicode code points: [pystr := list N].
    - [bytes] is [list byte].
    - The parts of the Unicode character database and of the [unidecode]
      tables that concern code points of 128 and above are not part of the
      repository; they are taken as a parameter ([UnicodeTables]).  Everything
      about the ASCII range, and the full set of Python whitespace, is
      written out.
    - A pandas [DataFrame] is a list of column labels and a list of rows.
    - Python exceptions are values of [exn]; a computation that can raise
      returns an [outcome]. *)

From Stdlib Require Import NArith List Bool Lia String Ascii DecimalString.
From Stdlib Require Import Strings.Byte.
From stdpp Require Import gmap list.

Local Open Scope N_scope.

(* ================================================================== *)
(** * Python strings *)
(* ================================================================== *)

Definition pystr := list N.
Definition bytes := list byte.

(** An ASCII literal as a Python string. *)
Fixpoint lit (s : string) : pystr :=
  match s with
  | EmptyString => []
  | String a r => N_of_ascii a :: lit r
  end.

Definition TAB : N := 9.
Definition LF : N := 10.
Definition CR : N := 13.
Definition SPACE : N := 32.
Definition PLUS : N := 43.
Definition MINUS : N := 45.
Definition ZERO : N := 48.
Definition UNDERSCORE : N := 95.
Definition PIPE : N := 124.
(** U+00E7, the c with cedilla of "endereço" (bytes C3 A7 in the source). *)
Definition C_CEDILLA : N := 231.

Definition in_range (lo hi c : N) : bool := (lo <=? c) && (c <=? hi).

(** [str.isspace] of one character, which is also the class [\s] of [re] on
    [str] patterns and the set removed by [str.strip()]. *)
Definition isspace (c : N) : bool :=
  in_range 9 13 c || in_range 28 32 c || (c =? 0x85) || (c =? 0xA0)
  || (c =? 0x1680) || in_range 0x2000 0x200A c || (c =? 0x2028)
  || (c =? 0x2029) || (c =? 0x202F) || (c =? 0x205F) || (c =? 0x3000).

(** The line boundaries of [str.splitlines]. *)
Definition is_linebreak (c : N) : bool :=
  in_range 10 13 c || in_range 28 30 c || (c =? 0x85) || (c =? 0x2028)
  || (c =? 0x2029).

Definition is_ascii (c : N) : bool := c <? 128.
Definition ascii_upper_letter (c : N) : bool := in_range 65 90 c.
Definition ascii_lower_letter (c : N) : bool := in_range 97 122 c.
Definition ascii_digit (c : N) : bool := in_range 48 57 c.

(** What the model needs to know about code points of 128 and above. *)
Record UnicodeTables := {
  (** [unidecode]'s transliteration of one non-ASCII character *)
  tbl_unidecode : N -> pystr;
  (** [str.upper] of one non-ASCII character (full case mapping) *)
  tbl_upper : N -> pystr;
  (** [str.lower] of one non-ASCII character; the text before and after it
      is given because the lowering of capital sigma depends on it *)
  tbl_lower : pystr -> N -> pystr -> pystr;
  (** [str.isalnum] of one non-ASCII character *)
  tbl_alnum : N -> bool;
  (** membership of one non-ASCII character in category Nd *)
  tbl_decimal : N -> bool
}.

Section Unicode.
Context (U : UnicodeTables).

(** [\d] of [re] on [str] patterns. *)
Definition isdigit (c : N) : bool :=
  if is_ascii c then ascii_digit c else tbl_decimal U c.

(** [\w] of [re] on [str] patterns: alphanumerics and the underscore. *)
Definition isword (c : N) : bool :=
  if is_ascii c
  then ascii_upper_letter c || ascii_lower_letter c || ascii_digit c
       || (c =? UNDERSCORE)
  else tbl_alnum U c.

Definition upper_char (c : N) : pystr :=
  if is_ascii c then [if ascii_lower_letter c then c - 32 else c]
  else tbl_upper U c.

(** [s.upper()] *)
Definition upper (s : pystr) : pystr := flat_map upper_char s.

Fixpoint lower_from (before : pystr) (s : pystr) : pystr :=
  match s with
  | [] => []
  | c :: r =>
      (if is_ascii c then [if ascii_upper_letter c then c + 32 else c]
       else tbl_lower U (rev before) c r)
      ++ lower_from (c :: before) r
  end.

(** [s.lower()] *)
Definition lower (s : pystr) : pystr := lower_from [] s.

(** [unidecode(s)]: ASCII characters are kept, the others are looked up. *)
Definition unidecode (s : pystr) : pystr :=
  flat_map (fun c => if is_ascii c then [c] else tbl_unidecode U c) s.

End Unicode.

Fixpoint dropwhile {A} (p : A -> bool) (l : list A) : list A :=
  match l with
  | [] => []
  | x :: r => if p x then dropwhile p r else l
  end.

Fixpoint takewhile {A} (p : A -> bool) (l : list A) : list A :=
  match l with
  | [] => []
  | x :: r => if p x then x :: takewhile p r else []
  end.

(** [s.lstrip()], [s.rstrip()], [s.strip()] *)
Definition lstrip (s : pystr) : pystr := dropwhile isspace s.
Definition rstrip (s : pystr) : pystr := rev (dropwhile isspace (rev s)).
Definition strip (s : pystr) : pystr := rstrip (lstrip s).

(** [s.rstrip(chars)] *)
Definition rstrip_chars (chars : pystr) (s : pystr) : pystr :=
  rev (dropwhile (fun c => existsb (N.eqb c) chars) (rev s)).

(** [needle in hay] on strings. *)
Fixpoint starts_with (needle hay : pystr) : bool :=
  match needle, hay with
  | [], _ => true
  | _ :: _, [] => false
  | a :: n', b :: h' => (a =? b) && starts_with n' h'
  end.

Fixpoint contains (needle hay : pystr) : bool :=
  starts_with needle hay
  || match hay with
     | [] => false
     | _ :: h' => contains needle h'
     end.

(** [s.replace(a, b)] for single characters. *)
Definition replace_char (a b : N) (s : pystr) : pystr :=
  map (fun c => if c =? a then b else c) s.

(** [s.splitlines()]: the segments between line boundaries, CR LF counting
    as one boundary; a final empty segment is not a line. *)
Fixpoint line_segments (s : pystr) : list pystr :=
  match s with
  | [] => [[]]
  | c :: r =>
      if is_linebreak c then
        [] :: match r with
              | d :: r' => if (c =? CR) && (d =? LF) then line_segments r'
                           else line_segments r
              | [] => line_segments r
              end
      else match line_segments r with
           | l :: ls => (c :: l) :: ls
           | [] => [[c]]
           end
  end.

Definition splitlines (s : pystr) : list pystr :=
  let segs := line_segments s in
  match last segs with
  | Some [] => removelast segs
  | _ => segs
  end.

(* ================================================================== *)
(** * Byte decoder ([try_decode_bytes]) *)
(* ================================================================== *)

Inductive encoding := utf_8 | latin_1 | cp1252.

(** The [errors] argument of [bytes.decode]. *)
Inductive errors_mode := Strict | Ignore.

Definition is_continuation (b : byte) : bool := in_range 0x80 0xBF (Byte.to_N b).

(** The second byte of a three-byte sequence led by [n0]: E0 excludes the
    overlong forms, ED the surrogates. *)
Definition second_of_3 (n0 : N) (b1 : byte) : bool :=
  is_continuation b1
  && (if n0 =? 0xE0 then 0xA0 <=? Byte.to_N b1
      else if n0 =? 0xED then Byte.to_N b1 <? 0xA0
      else true).

(** The second byte of a four-byte sequence led by [n0]: F0 excludes the
    overlong forms, F4 the code points above U+10FFFF. *)
Definition second_of_4 (n0 : N) (b1 : byte) : bool :=
  is_continuation b1
  && (if n0 =? 0xF0 then 0x90 <=? Byte.to_N b1
      else if n0 =? 0xF4 then Byte.to_N b1 <? 0x90
      else true).

Definition tail6 (b : byte) : N := Byte.to_N b - 0x80.

(** The UTF-8 decoder: the decoded characters ([inl]) and the undecodable
    ranges ([inr], the bytes the decoder reports as one error), in order.
    After an invalid start byte the scan resumes at the next byte; after an
    invalid continuation byte it resumes at that byte; a sequence cut short
    by the end of the data is one error up to the end. *)
Fixpoint utf8_scan (bs : bytes) : list (N + bytes) :=
  match bs with
  | [] => []
  | b0 :: r0 =>
    let n0 := Byte.to_N b0 in
    if n0 <? 0x80 then inl n0 :: utf8_scan r0
    else if n0 <? 0xC2 then inr [b0] :: utf8_scan r0
    else if n0 <? 0xE0 then
      match r0 with
      | [] => [inr bs]
      | b1 :: r1 =>
        if is_continuation b1
        then inl ((n0 - 0xC0) * 64 + tail6 b1) :: utf8_scan r1
        else inr [b0] :: utf8_scan r0
      end
    else if n0 <? 0xF0 then
      match r0 with
      | [] => [inr bs]
      | b1 :: r1 =>
        if second_of_3 n0 b1 then
          match r1 with
          | [] => [inr bs]
          | b2 :: r2 =>
            if is_continuation b2
            then inl ((n0 - 0xE0) * 4096 + tail6 b1 * 64 + tail6 b2)
                 :: utf8_scan r2
            else inr [b0; b1] :: utf8_scan r1
          end
        else inr [b0] :: utf8_scan r0
      end
    else if n0 <? 0xF5 then
      match r0 with
      | [] => [inr bs]
      | b1 :: r1 =>
        if second_of_4 n0 b1 then
          match r1 with
          | [] => [inr bs]
          | b2 :: r2 =>
            if is_continuation b2 then
              match r2 with
              | [] => [inr bs]
              | b3 :: r3 =>
                if is_continuation b3
                then inl ((n0 - 0xF0) * 262144 + tail6 b1 * 4096
                          + tail6 b2 * 64 + tail6 b3)
                     :: utf8_scan r3
                else inr [b0; b1; b2] :: utf8_scan r2
              end
            else inr [b0; b1] :: utf8_scan r1
          end
        else inr [b0] :: utf8_scan r0
      end
    else inr [b0] :: utf8_scan r0
  end.

(** [b.decode('utf-8', errors=...)]: [None] is [UnicodeDecodeError]. *)
Fixpoint utf8_collect (errors : errors_mode) (items : list (N + bytes))
  : option pystr :=
  match items with
  | [] => Some []
  | inl c :: rest => cons c <$> utf8_collect errors rest
  | inr _ :: rest =>
      match errors with
      | Strict => None
      | Ignore => utf8_collect errors rest
      end
  end.

Definition utf8_decode (errors : errors_mode) (b : bytes) : option pystr :=
  utf8_collect errors (utf8_scan b).

(** The characters of bytes 80..9F in code page 1252; five are undefined. *)
Definition cp1252_high (n : N) : option N :=
  nth_error
    [Some 0x20AC; None; Some 0x201A; Some 0x0192; Some 0x201E; Some 0x2026;
     Some 0x2020; Some 0x2021; Some 0x02C6; Some 0x2030; Some 0x0160;
     Some 0x2039; Some 0x0152; None; Some 0x017D; None;
     None; Some 0x2018; Some 0x2019; Some 0x201C; Some 0x201D; Some 0x2022;
     Some 0x2013; Some 0x2014; Some 0x02DC; Some 0x2122; Some 0x0161;
     Some 0x203A; Some 0x0153; None; Some 0x017E; Some 0x0178]
    (N.to_nat (n - 0x80))
  ≫= id.

Definition cp1252_char (b : byte) : option N :=
  let n := Byte.to_N b in
  if in_range 0x80 0x9F n then cp1252_high n else Some n.

(** [b.decode(enc)] with strict error handling. *)
Definition decode (enc : encoding) (b : bytes) : option pystr :=
  match enc with
  | utf_8 => utf8_decode Strict b
  | latin_1 => Some (map Byte.to_N b)
  | cp1252 => mapM cp1252_char b
  end.

(** [s.encode('utf-8')] of one character, as byte values; surrogates and
    values above U+10FFFF cannot be encoded. *)
Definition utf8_encode_char (c : N) : option (list N) :=
  if c <? 0x80 then Some [c]
  else if c <? 0x800 then Some [0xC0 + c / 64; 0x80 + c mod 64]
  else if c <? 0x10000 then
    if in_range 0xD800 0xDFFF c then None
    else Some [0xE0 + c / 4096; 0x80 + (c / 64) mod 64; 0x80 + c mod 64]
  else if c <? 0x110000 then
    Some [0xF0 + c / 262144; 0x80 + (c / 4096) mod 64;
          0x80 + (c / 64) mod 64; 0x80 + c mod 64]
  else None.

(** [s.encode(enc)]: [None] is [UnicodeEncodeError]. *)
Definition encode (enc : encoding) (s : pystr) : option bytes :=
  match enc with
  | utf_8 => mapM utf8_encode_char s ≫= (fun bss => mapM Byte.of_N (concat bss))
  | latin_1 => mapM Byte.of_N s
  | cp1252 =>
      mapM (fun c => find (fun b => bool_decide (cp1252_char b = Some c))
                       (omap Byte.of_N (map N.of_nat (seq 0 256)))) s
  end.

(** Which branch of [try_decode_bytes] produced the text. *)
Inductive decoded_by := ByEncoding (enc : encoding) | LastResort.

(** The [for enc in encodings] loop: the first encoding that decodes. *)
Fixpoint first_decoding (b : bytes) (encodings : list encoding)
  : option (pystr * encoding) :=
  match encodings with
  | [] => None
  | enc :: rest =>
      match decode enc b with
      | Some s => Some (s, enc)
      | None => first_decoding b rest
      end
  end.

Definition try_decode_bytes_by (b : bytes) (encodings : list encoding)
  : pystr * decoded_by :=
  match first_decoding b encodings with
  | Some (s, enc) => (s, ByEncoding enc)
  | None => (default [] (utf8_decode Ignore b), LastResort)
  end.

Definition default_encodings : list encoding := [utf_8; latin_1; cp1252].

Definition try_decode_bytes (b : bytes) : pystr :=
  fst (try_decode_bytes_by b default_encodings).

(* ================================================================== *)
(** * Line tokenizer ([split_linha]) and header locator *)
(* ================================================================== *)

(** [re.split(r'C{k,}', s)] for a character class [C] (here [p]): the
    maximal runs of at least [k] characters of the class are the
    delimiters.  [tok] is the token read so far and [run] the characters of
    the class read since its last other character. *)
Fixpoint split_go (p : N -> bool) (k : nat) (s tok run : pystr) : list pystr :=
  match s with
  | [] => if (k <=? length run)%nat then [tok; []] else [tok ++ run]
  | c :: r =>
      if p c then split_go p k r tok (run ++ [c])
      else if (k <=? length run)%nat then tok :: split_go p k r [c] []
      else split_go p k r (tok ++ run ++ [c]) []
  end.

Definition re_split (p : N -> bool) (k : nat) (s : pystr) : list pystr :=
  split_go p k s [] [].

Definition istab (c : N) : bool := c =? TAB.

Definition split_linha (linha : pystr) : list pystr :=
  if existsb istab linha then re_split istab 1 linha
  else
    let cols := re_split isspace 2 linha in
    if (length cols =? 1)%nat then re_split isspace 1 linha
    else cols.

(** "endereço" *)
Definition endereco_accented : pystr := lit "endere" ++ [C_CEDILLA] ++ lit "o".

Fixpoint find_index {A} (p : A -> bool) (l : list A) : option nat :=
  match l with
  | [] => None
  | x :: r => if p x then Some 0%nat else S <$> find_index p r
  end.

Definition is_header_line (U : UnicodeTables) (l : pystr) : bool :=
  let low := lower U l in
  contains (lit "remetente") low
  && (contains endereco_accented low || contains (lit "endereco") low)
  && contains (lit "cep") low.

Definition encontrar_linha_cabecalho (U : UnicodeTables) (linhas : list pystr)
  : nat :=
  default 0%nat (find_index (is_header_line U) linhas).

(* ================================================================== *)
(** * Field normaliser and key builder *)
(* ================================================================== *)

(** [re.sub(r'\s+', ' ', s)]: [in_run] says that the previous character was
    whitespace, whose run has already been replaced. *)
Fixpoint collapse_from (in_run : bool) (s : pystr) : pystr :=
  match s with
  | [] => []
  | c :: r =>
      if isspace c
      then (if in_run then collapse_from true r
            else SPACE :: collapse_from true r)
      else c :: collapse_from false r
  end.

Definition collapse_ws (s : pystr) : pystr := collapse_from false s.

(** [re.sub(r'[^\w\s]', ' ', s)] *)
Definition blank_punctuation (U : UnicodeTables) (s : pystr) : pystr :=
  map (fun c => if isword U c || isspace c then c else SPACE) s.

Definition norm_text (U : UnicodeTables) (s : pystr) : pystr :=
  let s := upper U (unidecode U s) in
  let s := strip s in
  let s := blank_punctuation U s in
  collapse_ws s.

(** [s.zfill(width)] *)
Definition zfill (width : nat) (s : pystr) : pystr :=
  let fill := repeat ZERO (width - length s) in
  match s with
  | c :: r => if (c =? PLUS) || (c =? MINUS) then c :: fill ++ r else fill ++ s
  | [] => fill
  end.

(** [re.sub(r'\D', '', s)] *)
Definition only_digits (U : UnicodeTables) (s : pystr) : pystr :=
  List.filter (isdigit U) s.

(** [norm_cep] on a string (its argument is never [None]: it is applied to
    a column that [clean_txt] has filled with strings). *)
Definition norm_cep (U : UnicodeTables) (s : pystr) : pystr :=
  let s := only_digits U s in
  match s with
  | [] => []
  | _ => zfill 8 s
  end.

(** [remetente_norm + '|' + endereco_norm + '|' + cep_norm] *)
Definition join_key (remetente_norm endereco_norm cep_norm : pystr) : pystr :=
  remetente_norm ++ [PIPE] ++ endereco_norm ++ [PIPE] ++ cep_norm.

(* ================================================================== *)
(** * Column mapper *)
(* ================================================================== *)

Definition Remetente : pystr := lit "Remetente".
Definition EnderecoOrigem : pystr := lit "EnderecoOrigem".
Definition CEPOrigem : pystr := lit "CEPOrigem".
Definition EnderecoDestino : pystr := lit "EnderecoDestino".
Definition Destinatario : pystr := lit "Destinatario".

(** The body of the [for c in df.columns] loop: [colmap[c]]. *)
Definition colmap (U : UnicodeTables) (c : pystr) : pystr :=
  let c_low := lower U (strip c) in
  if contains (lit "remetent") c_low then Remetente
  else if contains (endereco_accented ++ lit " orig") c_low
          || contains (lit "endereco orig") c_low
          || (contains endereco_accented c_low && contains (lit "orig") c_low)
  then EnderecoOrigem
  else if contains (lit "cep orig") c_low
          || (contains (lit "cep") c_low && contains (lit "orig") c_low)
  then CEPOrigem
  else if contains endereco_accented c_low && contains (lit "dest") c_low
  then EnderecoDestino
  else if contains (lit "destinat") c_low then Destinatario
  else c.

(* ================================================================== *)
(** * Exceptions and outcomes *)
(* ================================================================== *)

Inductive exn :=
| KeyError (key : pystr)
| ValueError (msg : pystr)
| TypeError (msg : pystr)
| AttributeError (msg : pystr)
| FileNotFoundError (msg : pystr).

(** [str(e)]; a [KeyError] shows the repr of its key. *)
Definition exn_str (e : exn) : pystr :=
  match e with
  | KeyError key => [39] ++ key ++ [39]
  | ValueError msg | TypeError msg | AttributeError msg
  | FileNotFoundError msg => msg
  end.

(** The result of a computation that may raise.  [OutOfModel] marks the
    few places where the behaviour is decided inside pandas by details this
    model does not cover (a label that names several columns of a frame
    without rows, and boolean indexing with a sub-frame): there the model
    claims neither a value nor an exception. *)
Inductive outcome (A : Type) :=
| Ok (a : A)
| Raises (e : exn)
| OutOfModel.
Arguments Ok {A} a.
Arguments Raises {A} e.
Arguments OutOfModel {A}.

#[global] Instance outcome_ret : MRet outcome := fun _ a => Ok a.
#[global] Instance outcome_bind : MBind outcome := fun _ _ f m =>
  match m with
  | Ok a => f a
  | Raises e => Raises e
  | OutOfModel => OutOfModel
  end.
#[global] Instance outcome_fmap : FMap outcome := fun _ _ f m =>
  match m with
  | Ok a => Ok (f a)
  | Raises e => Raises e
  | OutOfModel => OutOfModel
  end.

(** [mapM] in [outcome], stopping at the first element that does not give a
    value. *)
Fixpoint traverse {A B} (f : A -> outcome B) (l : list A) : outcome (list B) :=
  match l with
  | [] => Ok []
  | x :: r => y ← f x; ys ← traverse f r; Ok (y :: ys)
  end.

(* ================================================================== *)
(** * Data frames *)
(* ================================================================== *)

(** A value held in a frame: a string, a boolean, or a missing value. *)
Inductive cell := Str (s : pystr) | Bool (b : bool) | NaN.

#[global] Instance cell_eq_dec : EqDecision cell.
Proof. solve_decision. Defined.

(** [str(x)] *)
Definition py_str (c : cell) : pystr :=
  match c with
  | Str s => s
  | Bool true => lit "True"
  | Bool false => lit "False"
  | NaN => lit "nan"
  end.

(** [pd.isna(x)] *)
Definition isna (c : cell) : bool :=
  match c with NaN => true | _ => false end.

(** A frame: the column labels in order (repeated labels are possible) and
    the rows, each with one cell per column. *)
Record DataFrame := { columns : list pystr; rows : list (list cell) }.

(** [pd.DataFrame()] *)
Definition empty_frame : DataFrame := {| columns := []; rows := [] |}.

(** The positions of the columns labelled [label], counted from [j]. *)
Fixpoint positions (label : pystr) (cols : list pystr) (j : nat) : list nat :=
  match cols with
  | [] => []
  | c :: r =>
      if bool_decide (c = label) then j :: positions label r (S j)
      else positions label r (S j)
  end.

(** What [df[label]] is: nothing ([KeyError]), a Series when the label names
    one column, a sub-frame when it names several. *)
Inductive selection :=
| NoColumn
| Series (values : list cell)
| SubFrame (width : nat).

Definition select (df : DataFrame) (label : pystr) : selection :=
  match positions label (columns df) 0 with
  | [] => NoColumn
  | [j] => Series (map (fun r => nth j r NaN) (rows df))
  | js => SubFrame (length js)
  end.

(** One row of [df[label] = values]: the cell of every column with that
    label is overwritten, and a new last cell is added when there is none. *)
Definition set_cell (cols : list pystr) (label : pystr) (r : list cell)
    (v : cell) : list cell :=
  if bool_decide (label ∈ cols)
  then zip_with (fun c x => if bool_decide (c = label) then v else x) cols r
  else r ++ [v].

(** [df[label] = values] with a Series of values. *)
Definition set_col (df : DataFrame) (label : pystr) (values : list cell)
  : DataFrame :=
  {| columns := if bool_decide (label ∈ columns df) then columns df
                else columns df ++ [label];
     rows := zip_with (set_cell (columns df) label) (rows df) values |}.

(** [df[label] = scalar] *)
Definition set_col_scalar (df : DataFrame) (label : pystr) (v : cell)
  : DataFrame :=
  set_col df label (repeat v (length (rows df))).

(** [df.rename(columns=colmap)] with the mapping given as a function. *)
Definition rename_columns (f : pystr -> pystr) (df : DataFrame) : DataFrame :=
  {| columns := map f (columns df); rows := rows df |}.

(** A label read as a Series where the code goes on to use Series
    operations. *)
Definition get_series (df : DataFrame) (label : pystr) : outcome (list cell) :=
  match select df label with
  | NoColumn => Raises (KeyError label)
  | Series vs => Ok vs
  | SubFrame _ => OutOfModel
  end.

(** [df[label].apply(f)] for a function [f] that raises [on_series] when it
    is handed a whole column instead of a value, which is what
    [DataFrame.apply] does when the label names several columns and the
    frame has rows. *)
Definition column_apply (df : DataFrame) (label : pystr)
    (f : cell -> outcome cell) (on_series : exn) : outcome (list cell) :=
  match select df label with
  | NoColumn => Raises (KeyError label)
  | Series vs => traverse f vs
  | SubFrame _ =>
      match rows df with
      | [] => OutOfModel
      | _ :: _ => Raises on_series
      end
  end.

(** [df[labels]] with a list of labels, as rows. *)
Fixpoint project_positions (cols : list pystr) (labels : list pystr)
  : outcome (list nat) :=
  match labels with
  | [] => Ok []
  | l :: rest =>
      match positions l cols 0 with
      | [] => Raises (KeyError l)
      | js => (fun ks => js ++ ks) <$> project_positions cols rest
      end
  end.

Definition project (df : DataFrame) (labels : list pystr)
  : outcome (list (list cell)) :=
  js ← project_positions (columns df) labels;
  Ok (map (fun r => map (fun j => nth j r NaN) js) (rows df)).

(* ================================================================== *)
(** * Table builder and [parse_txt_to_df] *)
(* ================================================================== *)

Definition remetente_norm : pystr := lit "remetente_norm".
Definition endereco_norm : pystr := lit "endereco_norm".
Definition cep_norm : pystr := lit "cep_norm".
Definition chave : pystr := lit "chave".
Definition is_repetido : pystr := lit "is_repetido".

(** [[l.rstrip('\n\r') for l in text.splitlines() if l.strip() != ""]] *)
Definition non_blank_lines (text : pystr) : list pystr :=
  map (rstrip_chars [LF; CR])
    (List.filter (fun l => negb (bool_decide (strip l = []))) (splitlines text)).

(** One data row: padded with empty strings up to the header's length, then
    cut to it. *)
Definition pad_row (n : nat) (cols : list pystr) : list pystr :=
  let cols :=
    if (length cols <? n)%nat then cols ++ repeat [] (n - length cols)
    else cols in
  take n cols.

(** [for need in (...): if need not in df.columns: df[need] = ''] *)
Definition ensure_column (df : DataFrame) (need : pystr) : DataFrame :=
  if bool_decide (need ∈ columns df) then df
  else set_col_scalar df need (Str []).

Definition clean_txt (s : cell) : cell :=
  if isna s then Str []
  else
    let s2 := strip (py_str s) in
    let s2 := replace_char UNDERSCORE SPACE s2 in
    Str (collapse_ws s2).

(** What [clean_txt] raises at [if pd.isna(s)] when [s] is a whole column:
    pandas' [ValueError].  Its text is that of pandas 2; what follows the
    first sentence differs between versions of pandas. *)
Definition series_truth_ambiguous : exn :=
  ValueError (lit "The truth value of a Series is ambiguous. Use a.empty, a.bool(), a.item(), a.any() or a.all().").

(** A function on strings applied to a cell; a cell that is no string makes
    it raise. *)
Definition on_str (f : pystr -> pystr) (c : cell) : outcome cell :=
  match c with
  | Str s => Ok (Str (f s))
  | _ => Raises (TypeError (lit "expected a string"))
  end.

(** One element of [remetente_norm + '|' + endereco_norm + '|' + cep_norm]. *)
Definition key_cell (abc : cell * cell * cell) : outcome cell :=
  match abc with
  | (Str a, Str b, Str c) => Ok (Str (join_key a b c))
  | _ => Raises (TypeError (lit "can only concatenate str"))
  end.

(** The body of [parse_txt_to_df] from [if not linhas] on. *)
Definition parse_lines (U : UnicodeTables) (linhas : list pystr)
  : outcome DataFrame :=
  match linhas with
  | [] => Ok empty_frame
  | _ :: _ =>
    let idx := encontrar_linha_cabecalho U linhas in
    let header := split_linha (nth idx linhas []) in
    let data_lines := drop (S idx) linhas in
    let dados :=
      map (fun l => pad_row (length header) (split_linha l)) data_lines in
    let df := {| columns := header; rows := map (map Str) dados |} in
    let df := rename_columns (colmap U) df in
    let df := fold_left ensure_column [Remetente; EnderecoOrigem; CEPOrigem] df in
    let clean := fun c => Ok (clean_txt c) in
    v ← column_apply df Remetente clean series_truth_ambiguous;
    let df := set_col df Remetente v in
    v ← column_apply df EnderecoOrigem clean series_truth_ambiguous;
    let df := set_col df EnderecoOrigem v in
    v ← column_apply df CEPOrigem clean series_truth_ambiguous;
    let df := set_col df CEPOrigem v in
    v ← column_apply df Remetente (on_str (norm_text U))
          (AttributeError (lit "'Series' object has no attribute 'encode'"));
    let df := set_col df remetente_norm v in
    v ← column_apply df EnderecoOrigem (on_str (norm_text U))
          (AttributeError (lit "'Series' object has no attribute 'encode'"));
    let df := set_col df endereco_norm v in
    v ← match select df CEPOrigem with
        | NoColumn => Raises (KeyError CEPOrigem)
        | Series vs => Ok (map (fun c => Str (norm_cep U (py_str c))) vs)
        | SubFrame _ => OutOfModel
        end;
    let df := set_col df cep_norm v in
    a ← get_series df remetente_norm;
    b ← get_series df endereco_norm;
    c ← get_series df cep_norm;
    k ← traverse key_cell (zip (zip a b) c);
    Ok (set_col df chave k)
  end.

(** The two stages of that body as functions of their own, for the proofs
    that follow the frame through them: [parse_lines] on lines is
    [normalise_columns] of [built_frame] ([parse_lines_cons]). *)

(** The frame of lines 95-120: the tokens of the data lines under the
    renamed header, with the three fields added where they are missing. *)
Definition built_frame (U : UnicodeTables) (header : list pystr)
    (data_lines : list pystr) : DataFrame :=
  fold_left ensure_column [Remetente; EnderecoOrigem; CEPOrigem]
    (rename_columns (colmap U)
       {| columns := header;
          rows := map (map Str)
                    (map (fun l => pad_row (length header) (split_linha l))
                       data_lines) |}).

(** Lines 122-157 of [parse_txt_to_df]: the cleaning of the three fields,
    their normalised forms and the key, on the frame built so far. *)
Definition normalise_columns (U : UnicodeTables) (df : DataFrame)
  : outcome DataFrame :=
  let clean := fun c => Ok (clean_txt c) in
  v ← column_apply df Remetente clean series_truth_ambiguous;
  let df := set_col df Remetente v in
  v ← column_apply df EnderecoOrigem clean series_truth_ambiguous;
  let df := set_col df EnderecoOrigem v in
  v ← column_apply df CEPOrigem clean series_truth_ambiguous;
  let df := set_col df CEPOrigem v in
  v ← column_apply df Remetente (on_str (norm_text U))
        (AttributeError (lit "'Series' object has no attribute 'encode'"));
  let df := set_col df remetente_norm v in
  v ← column_apply df EnderecoOrigem (on_str (norm_text U))
        (AttributeError (lit "'Series' object has no attribute 'encode'"));
  let df := set_col df endereco_norm v in
  v ← match select df CEPOrigem with
      | NoColumn => Raises (KeyError CEPOrigem)
      | Series vs => Ok (map (fun c => Str (norm_cep U (py_str c))) vs)
      | SubFrame _ => OutOfModel
      end;
  let df := set_col df cep_norm v in
  a ← get_series df remetente_norm;
  b ← get_series df endereco_norm;
  c ← get_series df cep_norm;
  k ← traverse key_cell (zip (zip a b) c);
  Ok (set_col df chave k).

(** The two files the application reads. *)
Inductive path := BASE_TXT | BASE_CSV.

(** The snapshot file: its bytes, and what
    [pd.read_csv(BASE_CSV, dtype=str).fillna('')] makes of them (pandas' CSV
    reader is not part of the repository). *)
Record CsvFile := { csv_bytes : bytes; csv_frame : outcome DataFrame }.

(** The files under [data/]: the raw base, the snapshot, and what
    [dfb.to_csv(BASE_CSV, index=False)] would leave on disk ([None]: the
    write raises). *)
Record FileSystem := {
  base_txt : option bytes;
  base_csv : option CsvFile;
  csv_write : DataFrame -> option CsvFile
}.

(** [open(p, 'rb').read()] *)
Definition read_file (fs : FileSystem) (p : path) : outcome bytes :=
  match p with
  | BASE_TXT =>
      match base_txt fs with
      | Some b => Ok b
      | None => Raises (FileNotFoundError (lit "data/base.txt"))
      end
  | BASE_CSV =>
      match base_csv fs with
      | Some f => Ok (csv_bytes f)
      | None => Raises (FileNotFoundError (lit "data/base.csv"))
      end
  end.

(** The first argument of [parse_txt_to_df]; [is_bytes] says which. *)
Inductive source := Path (p : path) | Bytes (b : bytes).

Definition parse_txt_to_df (U : UnicodeTables) (fs : FileSystem)
    (path_or_bytes : source) : outcome DataFrame :=
  raw ← match path_or_bytes with
        | Bytes b => Ok b
        | Path p => read_file fs p
        end;
  let text := try_decode_bytes raw in
  parse_lines U (non_blank_lines text).

(* ================================================================== *)
(** * Base repository ([ensure_base_loaded]) *)
(* ================================================================== *)

(** The two globals and the files. *)
Record World := {
  DF_BASE : option DataFrame;
  DF_MATCH : option DataFrame;
  disk : FileSystem
}.

Definition set_DF_BASE (w : World) (df : DataFrame) : World :=
  {| DF_BASE := Some df; DF_MATCH := DF_MATCH w; disk := disk w |}.

Definition set_DF_MATCH (w : World) (df : DataFrame) : World :=
  {| DF_BASE := DF_BASE w; DF_MATCH := Some df; disk := disk w |}.

(** [dfb.to_csv(BASE_CSV, index=False)] inside [try]: a failed write leaves
    the disk as it was. *)
Definition save_snapshot (fs : FileSystem) (dfb : DataFrame) : FileSystem :=
  match csv_write fs dfb with
  | Some f =>
      {| base_txt := base_txt fs; base_csv := Some f; csv_write := csv_write fs |}
  | None => fs
  end.

(** [pd.DataFrame(columns=['Remetente','EnderecoOrigem','CEPOrigem','chave'])] *)
Definition empty_base : DataFrame :=
  {| columns := [Remetente; EnderecoOrigem; CEPOrigem; chave]; rows := [] |}.

(** The [if os.path.exists(BASE_CSV)] block: the value of [DF_BASE] after it
    ([None] when the snapshot is absent or the [except] branch ran). *)
Definition load_snapshot (U : UnicodeTables) (fs : FileSystem)
  : outcome (option DataFrame) :=
  match base_csv fs with
  | None => Ok None
  | Some f =>
      match csv_frame f with
      | Ok df =>
          if bool_decide (chave ∈ columns df) then Ok (Some df)
          else
            match parse_txt_to_df U fs (Path BASE_CSV) with
            | Ok d => Ok (Some d)
            | Raises _ => Ok None
            | OutOfModel => OutOfModel
            end
      | Raises _ => Ok None
      | OutOfModel => OutOfModel
      end
  end.

Definition ensure_base_loaded (U : UnicodeTables) (w : World)
  : World * outcome unit :=
  match DF_BASE w with
  | Some _ => (w, Ok tt)
  | None =>
      match load_snapshot U (disk w) with
      | Ok (Some df) => (set_DF_BASE w df, Ok tt)
      | Ok None =>
          match base_txt (disk w) with
          | None => (set_DF_BASE w empty_base, Ok tt)
          | Some _ =>
              match parse_txt_to_df U (disk w) (Path BASE_TXT) with
              | Ok dfb =>
                  ({| DF_BASE := Some dfb; DF_MATCH := DF_MATCH w;
                      disk := save_snapshot (disk w) dfb |}, Ok tt)
              | Raises e => (w, Raises e)
              | OutOfModel => (w, OutOfModel)
              end
          end
      | Raises e => (w, Raises e)
      | OutOfModel => (w, OutOfModel)
      end
  end.

(* ================================================================== *)
(** * Upload handler and matcher ([upload_dia]) *)
(* ================================================================== *)

(** [k in base_keys] for a value of the daily [chave] column. *)
Definition key_in (base_keys : gset pystr) (k : cell) : bool :=
  match k with
  | Str s => bool_decide (s ∈ base_keys)
  | _ => false
  end.

(** Boolean indexing with a Series of booleans: the rows whose value is
    [True], in order. *)
Definition filter_rows (df : DataFrame) (mask : list cell) : DataFrame :=
  {| columns := columns df;
     rows := map fst
               (List.filter (fun rm => bool_decide (snd rm = Bool true))
                  (zip (rows df) mask)) |}.

(** [df[mask]] with the Series that [apply] returned.  On a frame with rows
    [apply] returns a Series of booleans, which selects rows.  On a frame
    without rows it returns an empty Series of the dtype of its input;
    pandas does not take an empty Series that is not of dtype [bool] for a
    boolean mask but for a list of column labels, here an empty one, and the
    result has no column (and no row). *)
Definition mask_index (df : DataFrame) (mask : list cell) : DataFrame :=
  match mask with
  | [] => empty_frame
  | _ :: _ => filter_rows df mask
  end.

(** Lines 230-236 of [upload_dia]: the key set of the base, the
    [is_repetido] flag of every daily row, and the rows flagged. *)
Definition df_repetidos (base df_dia : DataFrame) : outcome DataFrame :=
  ks ← match select base chave with
       | NoColumn => Raises (KeyError chave)
       | Series vs => Ok vs
       | SubFrame _ =>
           Raises (AttributeError (lit "'DataFrame' object has no attribute 'tolist'"))
       end;
  let base_keys : gset pystr := list_to_set (map py_str ks) in
  flags ← column_apply df_dia chave (fun k => Ok (Bool (key_in base_keys k)))
            (TypeError (lit "unhashable type: 'Series'"));
  let df_dia := set_col df_dia is_repetido flags in
  mask ← get_series df_dia is_repetido;
  Ok (mask_index df_dia mask).

(** The uploaded file: [f.filename] and [f.read()]. *)
Record Upload := { filename : pystr; content : bytes }.

Inductive response :=
| Redirect (message category : pystr)
| Resultado (total : nat) (table : list (list cell))
| ServerError (e : exn)
| Unmodelled.

Definition DOT : N := 46.

(** [f.filename.rsplit('.', 1)[-1].lower() if '.' in f.filename else ''] *)
Definition extension (U : UnicodeTables) (name : pystr) : pystr :=
  if existsb (N.eqb DOT) name
  then lower U (rev (takewhile (fun c => negb (c =? DOT)) (rev name)))
  else [].

Definition ALLOWED_EXT : list pystr := [lit "txt"; lit "csv"].

Definition danger : pystr := lit "danger".
Definition warning : pystr := lit "warning".

Definition upload_dia (U : UnicodeTables) (w : World) (file : option Upload)
  : World * response :=
  let (w, loaded) := ensure_base_loaded U w in
  match loaded with
  | Raises e => (w, ServerError e)
  | OutOfModel => (w, Unmodelled)
  | Ok _ =>
    match file with
    | None => (w, Redirect (lit "Nenhum arquivo enviado.") danger)
    | Some f =>
      if bool_decide (filename f = []) then
        (w, Redirect (lit "Nenhum arquivo selecionado.") warning)
      else if negb (bool_decide (extension U (filename f) ∈ ALLOWED_EXT)) then
        (w, Redirect (lit "Formato n" ++ [227] ++ lit "o permitido. Use .txt ou .csv")
                     danger)
      else
        match parse_txt_to_df U (disk w) (Bytes (content f)) with
        | Raises e =>
            (w, Redirect (lit "Erro ao ler arquivo do dia: " ++ exn_str e) danger)
        | OutOfModel => (w, Unmodelled)
        | Ok df_dia =>
            match DF_BASE w with
            | None =>
                (w, ServerError
                      (TypeError (lit "'NoneType' object is not subscriptable")))
            | Some base =>
                match df_repetidos base df_dia with
                | Raises e => (w, ServerError e)
                | OutOfModel => (w, Unmodelled)
                | Ok reps =>
                    let w := set_DF_MATCH w reps in
                    match project reps [Remetente; EnderecoOrigem; CEPOrigem] with
                    | Ok table =>
                        (w, Resultado (length (rows reps)) (take 500 table))
                    | Raises e => (w, ServerError e)
                    | OutOfModel => (w, Unmodelled)
                    end
                end
            end
        end
    end
  end.

(* ================================================================== *)
(** * Front page ([index]) and report ([download_pdf]) *)
(* ================================================================== *)

(** [index]: the value passed to the template as [base_count]. *)
Definition index (U : UnicodeTables) (w : World) : World * outcome nat :=
  let (w, loaded) := ensure_base_loaded U w in
  match loaded with
  | Raises e => (w, Raises e)
  | OutOfModel => (w, OutOfModel)
  | Ok _ =>
      (w, Ok match DF_BASE w with
             | Some base => length (rows base)
             | None => 0%nat
             end)
  end.

(** [str(n)] for a length. *)
Definition str_of_nat (n : nat) : pystr :=
  lit (NilEmpty.string_of_uint (Nat.to_uint n)).

Definition EM_DASH : N := 0x2014.

(** The calls made on the [FPDF] object.  The library is not part of the
    repository: a document is represented by the calls that build it, in
    their order and with the arguments the code gives them, and the library
    by what it is asked: whether a call raises, given the calls made before
    it. *)
Module FPDF.
Inductive call :=
| FPDF (orientation unit format : pystr)
| set_auto_page_break (auto : bool) (margin : nat)
| add_page
| set_font (family style : pystr) (size : nat)
| cell (w h : nat) (txt : pystr) (ln : bool)
| ln (h : nat)
| multi_cell (w h : nat) (txt : pystr)
| output.

Definition library := list call -> call -> option exn.
End FPDF.

(** The calls [todo] made in order after the calls [made]: the exception
    of the first one that raises, or all the calls made. *)
Fixpoint make_calls (lib : FPDF.library) (made todo : list FPDF.call)
  : exn + list FPDF.call :=
  match todo with
  | [] => inr made
  | c :: rest =>
      match lib made c with
      | Some e => inl e
      | None => make_calls lib (made ++ [c]) rest
      end
  end.

Definition PDF_FILENAME : pystr := lit "repetidos_remetente.pdf".

(** [.fillna('')] of one value. *)
Definition fillna (c : cell) : cell := if isna c then Str [] else c.

(** The body of the [for i, r in enumerate(rows)] loop: the text of one
    report line. *)
Definition linha (r : list cell) : pystr :=
  let remetente := take 200 (py_str (nth 0 r NaN)) in
  let endereco := take 300 (py_str (nth 1 r NaN)) in
  let cep := take 12 (py_str (nth 2 r NaN)) in
  remetente ++ [SPACE; EM_DASH; SPACE] ++ endereco ++ [SPACE; EM_DASH; SPACE]
  ++ cep.

(** What [send_file] is given: the name of the attachment and the
    document. *)
Record Attachment := { download_name : pystr; document : list FPDF.call }.

Definition Arial : pystr := lit "Arial".

(** The title of the report. *)
Definition titulo : pystr :=
  lit "Relat" ++ [243] ++ lit "rio de Endere" ++ [231]
  ++ lit "os Repetidos (Remetente " ++ [EM_DASH] ++ lit " Endere" ++ [231]
  ++ lit "o Origem " ++ [EM_DASH] ++ lit " CEP Origem)".

(** The calls before the rows are read, and the calls after the lines. *)
Definition opening_calls : list FPDF.call :=
  [FPDF.FPDF (lit "P") (lit "mm") (lit "A4");
   FPDF.set_auto_page_break true 10;
   FPDF.add_page;
   FPDF.set_font Arial (lit "B") 12;
   FPDF.cell 0 8 titulo true;
   FPDF.ln 2;
   FPDF.set_font Arial (lit "") 9].

Definition closing_calls (total : nat) : list FPDF.call :=
  [FPDF.ln 4;
   FPDF.set_font Arial (lit "B") 10;
   FPDF.cell 0 6 (lit "Total de registros repetidos: " ++ str_of_nat total) true;
   FPDF.output].

(** The answer when there is nothing to report: the flashed warning and
    the redirect to the front page. *)
Definition nothing_to_report : response :=
  Redirect
    (lit "Nenhum registro repetido dispon" ++ [237] ++ lit "vel. Fa" ++ [231]
     ++ lit "a o upload do arquivo do dia e execute o cruzamento.")
    warning.

Definition download_pdf (lib : FPDF.library) (w : World)
  : response + Attachment :=
  match DF_MATCH w with
  | None => inl nothing_to_report
  | Some m =>
      if (length (rows m) =? 0)%nat then inl nothing_to_report
      else
        match make_calls lib [] opening_calls with
        | inl e => inl (ServerError e)
        | inr made =>
            match project m [Remetente; EnderecoOrigem; CEPOrigem] with
            | Raises e => inl (ServerError e)
            | OutOfModel => inl Unmodelled
            | Ok table =>
                let rows := map (map fillna) table in
                match make_calls lib made
                        (map (fun r => FPDF.multi_cell 0 5 (linha r)) rows
                         ++ closing_calls (length rows)) with
                | inl e => inl (ServerError e)
                | inr made =>
                    inr {| download_name := PDF_FILENAME; document := made |}
                end
            end
        end
  end.

(* ================================================================== *)
(** * Notions used in the statements *)
(* ================================================================== *)

(** Tables for running the model on concrete texts.  The accented Latin-1
    letters of Portuguese words are transliterated and case-mapped as
    [unidecode] and Python do; the entries of all other characters are
    placeholders (no transliteration, no case change, not a digit). *)
Definition sample_tables : UnicodeTables := {|
  tbl_unidecode := fun c =>
    if in_range 192 197 c then lit "A" else if c =? 199 then lit "C"
    else if in_range 200 203 c then lit "E"
    else if in_range 204 207 c then lit "I"
    else if in_range 210 214 c then lit "O"
    else if in_range 217 220 c then lit "U"
    else if in_range 224 229 c then lit "a" else if c =? 231 then lit "c"
    else if in_range 232 235 c then lit "e"
    else if in_range 236 239 c then lit "i"
    else if in_range 242 246 c then lit "o"
    else if in_range 249 252 c then lit "u"
    else [];
  tbl_upper := fun c =>
    if in_range 224 254 c && negb (c =? 247) then [c - 32] else [c];
  tbl_lower := fun _ c _ =>
    if in_range 192 222 c && negb (c =? 215) then [c + 32] else [c];
  tbl_alnum := fun c =>
    in_range 192 255 c && negb (c =? 215) && negb (c =? 247);
  tbl_decimal := fun _ => false
|}.

(** [unidecode] produces ASCII text only. *)
Definition ascii_transliteration (U : UnicodeTables) : Prop :=
  forall c, Forall (fun d => is_ascii d = true) (tbl_unidecode U c).

(** The characters a normalised text is made of: capital letters, digits,
    the underscore and the space. *)
Definition settled (c : N) : bool :=
  ascii_upper_letter c || ascii_digit c || (c =? UNDERSCORE) || (c =? SPACE).

(** No two whitespace characters in a row ([prev]: the character before
    the text was whitespace). *)
Fixpoint spaced (prev : bool) (s : pystr) : bool :=
  match s with
  | [] => true
  | c :: r => if isspace c then negb prev && spaced true r else spaced false r
  end.

(** Every row has one cell per column. *)
Definition wf_frame (df : DataFrame) : Prop :=
  Forall (fun r => length r = length (columns df)) (rows df).

(** The cell of a row in the column [label], when the label names one
    column. *)
Definition cell_at (df : DataFrame) (label : pystr) (r : list cell) : cell :=
  match positions label (columns df) 0 with
  | [j] => nth j r NaN
  | _ => NaN
  end.

(** The [chave] values that occur in a frame, as a list. *)
Definition chaves (df : DataFrame) : list pystr :=
  map (fun r => py_str (cell_at df chave r)) (rows df).

(** A daily row whose [chave] occurs in the base. *)
Definition is_repeat (base df_dia : DataFrame) (r : list cell) : bool :=
  match cell_at df_dia chave r with
  | Str s => bool_decide (s ∈ chaves base)
  | _ => false
  end.

(** [s] starts with [k] characters of the class [p]. *)
Fixpoint run_at (p : N -> bool) (k : nat) (s : pystr) : bool :=
  match k with
  | O => true
  | S k' =>
      match s with
      | [] => false
      | c :: r => p c && run_at p k' r
      end
  end.

(** [s] contains [k] characters of the class [p] in a row. *)
Fixpoint has_run (p : N -> bool) (k : nat) (s : pystr) : bool :=
  run_at p k s
  || match s with
     | [] => false
     | _ :: r => has_run p k r
     end.

Definition starts_in (p : N -> bool) (s : pystr) : bool :=
  match s with
  | [] => false
  | c :: _ => p c
  end.

Definition ends_in (p : N -> bool) (s : pystr) : bool :=
  match last s with
  | Some c => p c
  | None => false
  end.

(** [toks] is the list of tokens of [s] when the delimiters are the maximal
    runs of at least [k] characters of the class [p]: no token contains
    such a run, every delimiter is one, and no delimiter could be longer
    (the token before it does not end, and the text after it does not
    start, with a character of the class). *)
Inductive SplitAt (p : N -> bool) (k : nat) : pystr -> list pystr -> Prop :=
| SplitAt_last (t : pystr) :
    has_run p k t = false ->
    SplitAt p k t [t]
| SplitAt_cons (t d s : pystr) (toks : list pystr) :
    has_run p k t = false ->
    ends_in p t = false ->
    forallb p d = true ->
    (k <= length d)%nat ->
    starts_in p s = false ->
    SplitAt p k s toks ->
    SplitAt p k (t ++ d ++ s) (t :: toks).

(** [c.lower()] of an ASCII character. *)
Definition ascii_lower_char (c : N) : N :=
  if ascii_upper_letter c then c + 32 else c.

(** A text without a line boundary. *)
Definition no_linebreak (l : pystr) : Prop :=
  Forall (fun c => is_linebreak c = false) l.

(** The line terminators of text files. *)
Definition newline (sep : pystr) : Prop :=
  sep = [LF] \/ sep = [CR; LF] \/ sep = [CR].

(** A text file: every line followed by the terminator. *)
Definition join_lines (sep : pystr) (ls : list pystr) : pystr :=
  concat (map (fun l => l ++ sep) ls).

(** [sep.join(fields)] *)
Fixpoint join_with (sep : pystr) (fields : list pystr) : pystr :=
  match fields with
  | [] => []
  | [f] => f
  | f :: rest => f ++ sep ++ join_with sep rest
  end.

(** A field that can stand between delimiters of the class [p] of length
    [k] or more: not empty, without such a delimiter inside, and neither
    beginning nor ending with a character of the class. *)
Definition plain_field (p : N -> bool) (k : nat) (f : pystr) : Prop :=
  f <> [] /\ has_run p k f = false /\ starts_in p f = false
  /\ ends_in p f = false.

(** The labels of a frame after [df[label] = ...]: a label that is new
    comes last. *)
Definition with_label (cols : list pystr) (label : pystr) : list pystr :=
  if bool_decide (label ∈ cols) then cols else cols ++ [label].

(** What [df[need]] is once [if need not in df.columns: df[need] = ''] has
    run. *)
Definition blank_if_missing (df : DataFrame) (need : pystr) : selection :=
  match select df need with
  | NoColumn => Series (map (fun _ => Str []) (rows df))
  | s => s
  end.

(** The token of a data line under the header column that the mapper names
    [label]; the empty string when it names none. *)
Definition field_token (U : UnicodeTables) (header : list pystr)
    (label : pystr) (l : pystr) : pystr :=
  match positions label (map (colmap U) header) 0 with
  | [j] => nth j (pad_row (length header) (split_linha l)) []
  | _ => []
  end.

(** That token after [clean_txt]. *)
Definition field_value (U : UnicodeTables) (header : list pystr)
    (label : pystr) (l : pystr) : pystr :=
  py_str (clean_txt (Str (field_token U header label l))).

(** The report lines of a document: the texts of its [multi_cell] calls. *)
Definition report_lines (doc : list FPDF.call) : list pystr :=
  omap (fun c => match c with FPDF.multi_cell _ _ txt => Some txt | _ => None end)
    doc.

(* ================================================================== *)
(** * Example inputs *)
(* ================================================================== *)

(** The bytes of an ASCII text. *)
Definition ascii_bytes (s : string) : bytes := list_byte_of_string s.

Definition tab_line (fields : list string) : string :=
  String.concat (String (ascii_of_N 9) EmptyString) fields.

Definition text_lines (ls : list string) : string :=
  String.concat (String (ascii_of_N 10) EmptyString) ls.

(** A raw base of one record. *)
Definition example_base_txt : bytes :=
  ascii_bytes
    (text_lines
       [tab_line ["Remetente"; "Endereco Origem"; "CEP Origem"]%string;
        tab_line ["ACME LTDA"; "Rua A, 10"; "01001-000"]%string]).

(** A daily file of three records; the second is the record of the base
    written differently. *)
Definition example_daily_txt : bytes :=
  ascii_bytes
    (text_lines
       [tab_line ["Remetente"; "Endereco Origem"; "CEP Origem"]%string;
        tab_line ["Beta SA"; "Rua B, 20"; "02002-000"]%string;
        tab_line ["acme ltda"; "RUA A 10"; "01001000"]%string;
        tab_line ["Gama ME"; "Av. C, 30"; "03003-000"]%string]).

(** A daily file with two sender columns. *)
Definition example_two_senders_txt : bytes :=
  ascii_bytes
    (text_lines
       [tab_line ["Remetente"; "Nome do Remetente"; "CEP Origem"]%string;
        tab_line ["ACME LTDA"; "Acme"; "01001-000"]%string]).

(** A snapshot without the [chave] column, as [to_csv] writes one and as
    [read_csv] reads it. *)
Definition example_snapshot_without_chave : CsvFile := {|
  csv_bytes :=
    ascii_bytes
      (text_lines ["Remetente,EnderecoOrigem,CEPOrigem";
                   "ACME LTDA,Rua A 10,01001-000"]%string);
  csv_frame :=
    Ok {| columns := [Remetente; EnderecoOrigem; CEPOrigem];
          rows := [[Str (lit "ACME LTDA"); Str (lit "Rua A 10");
                    Str (lit "01001-000")]] |}
|}.

Definition no_files : FileSystem :=
  {| base_txt := None; base_csv := None; csv_write := fun _ => None |}.

(** The data directory with the raw base and a snapshot without [chave]. *)
Definition example_disk : FileSystem :=
  {| base_txt := Some example_base_txt;
     base_csv := Some example_snapshot_without_chave;
     csv_write := fun _ => None |}.

(** The data directory with the raw base and an empty snapshot file, which
    [read_csv] rejects ([EmptyDataError], a [ValueError]); the directory
    cannot be written. *)
Definition example_disk_unreadable : FileSystem :=
  {| base_txt := Some example_base_txt;
     base_csv :=
       Some {| csv_bytes := [];
               csv_frame :=
                 Raises (ValueError (lit "No columns to parse from file")) |};
     csv_write := fun _ => None |}.

(** The frame an outcome holds, for examples that have checked it is one. *)
Definition frame_of (o : outcome DataFrame) : DataFrame :=
  match o with
  | Ok df => df
  | _ => empty_frame
  end.

Definition example_base : DataFrame :=
  frame_of (parse_txt_to_df sample_tables no_files (Bytes example_base_txt)).

Definition example_daily : DataFrame :=
  frame_of (parse_txt_to_df sample_tables no_files (Bytes example_daily_txt)).

(** A running application: the base is loaded and a result of an earlier
    upload is stored. *)
Definition example_world : World :=
  {| DF_BASE := Some example_base;
     DF_MATCH := Some example_daily;
     disk := no_files |}.

Definition example_two_senders_upload : Upload :=
  {| filename := lit "dia.txt"; content := example_two_senders_txt |}.

(** An upload without bytes. *)
Definition example_empty_upload : Upload :=
  {| filename := lit "dia.txt"; content := [] |}.

(** A process that starts with the data directory of [example_disk]. *)
Definition example_start : World :=
  {| DF_BASE := None; DF_MATCH := None; disk := example_disk |}.

(** A process that starts with the data directory of
    [example_disk_unreadable]. *)
Definition example_start_unreadable : World :=
  {| DF_BASE := None; DF_MATCH := None; disk := example_disk_unreadable |}.

(** The daily file of three records as an upload. *)
Definition example_daily_upload : Upload :=
  {| filename := lit "dia.txt"; content := example_daily_txt |}.




(** A first start: the raw base is on disk, no snapshot yet; a snapshot that
    is written reads back as the frame written. *)
Definition example_first_start : World :=
  {| DF_BASE := None; DF_MATCH := None;
     disk := {| base_txt := Some example_base_txt; base_csv := None;
                csv_write := fun df =>
                  Some {| csv_bytes := []; csv_frame := Ok df |} |} |}.

(** The lines of the daily file and of the file with two sender columns. *)
Definition example_daily_lines : list pystr :=
  non_blank_lines (try_decode_bytes example_daily_txt).

Definition example_two_senders_lines : list pystr :=
  non_blank_lines (try_decode_bytes example_two_senders_txt).

(** A library that cannot write text outside latin-1: [cell] and
    [multi_cell] raise on it, as FPDF does under a core font such as Arial.
    [e] is the exception it raises there. *)
Definition latin_1_only (e : exn) : FPDF.library := fun _ c =>
  match c with
  | FPDF.cell _ _ txt _ | FPDF.multi_cell _ _ txt =>
      match encode latin_1 txt with
      | Some _ => None
      | None => Some e
      end
  | _ => None
  end.

(** What the latin-1 codec raises on the title of the report: a
    [UnicodeEncodeError], which is a [ValueError]. *)
Definition example_codec_error : exn :=
  ValueError (lit "'latin-1' codec can't encode character '\u2014' in position 44: ordinal not in range(256)").

(** A daily file whose header names [chave] twice. *)
Definition example_two_keys_txt : bytes :=
  ascii_bytes
    (text_lines
       [tab_line ["Remetente"; "Endereco Origem"; "CEP Origem"; "chave"; "chave"]%string;
        tab_line ["ACME LTDA"; "Rua A, 10"; "01001-000"; "a"; "b"]%string]).

Definition example_two_keys_upload : Upload :=
  {| filename := lit "dia.txt"; content := example_two_keys_txt |}.

(** A first start with an empty raw base. *)
Definition example_empty_base_start : World :=
  {| DF_BASE := None; DF_MATCH := None;
     disk := {| base_txt := Some []; base_csv := None;
                csv_write := fun _ => None |} |}.

(* ================================================================== *)
(** * Tactics *)
(* ================================================================== *)

(** Division and remainder by constants, for [lia]. *)
Ltac Zify.zify_post_hook ::= Z.to_euclidean_division_equations.

(** One step of the strict decoder: an error ends it, a decoded character
    leaves the rest of the bytes to the induction hypothesis [IH]. *)
Ltac strict_step IH H :=
  cbn [utf8_collect] in H;
  match type of H with
  | cons ?c <$> utf8_collect Strict (utf8_scan ?r) = Some _ =>
      let s' := fresh "s'" in
      let E := fresh "E" in
      destruct (utf8_collect Strict (utf8_scan r)) as [s'|] eqn:E;
      [|discriminate H];
      injection H as <-;
      apply IH in E; [|simpl in *; lia];
      destruct E as (bss & Hm & Hc)
  | None = Some _ => discriminate H
  end.

(** Boolean character tests as arithmetic facts. *)
Ltac char_facts :=
  unfold settled, isword, isdigit, isspace, is_linebreak, is_ascii,
    ascii_upper_letter, ascii_lower_letter, ascii_digit, in_range,
    UNDERSCORE, SPACE, PIPE, TAB, ZERO, PLUS, MINUS in *;
  repeat rewrite ?andb_true_iff, ?orb_true_iff, ?negb_true_iff,
    ?andb_false_iff, ?orb_false_iff, ?negb_false_iff, ?N.leb_le, ?N.ltb_lt,
    ?N.eqb_eq, ?N.leb_gt, ?N.ltb_ge, ?N.eqb_neq in *.

(** A bind that gave a value: the value [v] of its first computation, with
    the equation [Hv], and the rest in [H]. *)
Ltac bind_inv H v Hv :=
  match type of H with
  | mbind ?f ?m = Ok _ =>
      destruct m as [v| |] eqn:Hv; [|discriminate H..];
      change (mbind f (Ok v)) with (f v) in H; cbv beta in H
  end.

(** Two of the column labels differ. *)
Ltac label_ne := let E := fresh in intros E; vm_compute in E; discriminate E.

(** Comparisons with constants, settled by arithmetic where they can be
    and by cases where they cannot. *)
Ltac compare_all :=
  repeat match goal with
         | |- context [?a <? ?b] =>
             first [rewrite (proj2 (N.ltb_lt a b)) by lia
                   |rewrite (proj2 (N.ltb_ge a b)) by lia
                   |destruct (N.ltb_spec a b)]
         | |- context [?a <=? ?b] =>
             first [rewrite (proj2 (N.leb_le a b)) by lia
                   |rewrite (proj2 (N.leb_gt a b)) by lia
                   |destruct (N.leb_spec a b)]
         | |- context [?a =? ?b] =>
             first [rewrite (proj2 (N.eqb_neq a b)) by lia
                   |rewrite (proj2 (N.eqb_eq a b)) by lia
                   |destruct (N.eqb_spec a b)]
         end.

(** A proposition decided by computation. *)
Ltac decided :=
  cbv zeta;
  match goal with
  | |- ?P => apply (bool_decide_unpack P); vm_compute; exact I
  end.

(** A character that does not occur in a literal. *)
Ltac absent :=
  let H := fresh in
  intros H; vm_compute in H;
  repeat (destruct H as [H|H]; [discriminate H|]); exact H.

(** A label of a short list of labels, one case each. *)
Ltac each_label H :=
  repeat (apply elem_of_cons in H as [->|H]); [..|by apply elem_of_nil in H].

(* ================================================================== *)
(** * Proofs *)
(* ================================================================== *)

Lemma in_range_spec lo hi c : in_range lo hi c = true <-> lo <= c <= hi.
Proof. unfold in_range. rewrite andb_true_iff, !N.leb_le. tauto. Qed.

Lemma mapM_cons_Some {A B} (f : A -> option B) x l y ys :
  f x = Some y -> mapM f l = Some ys -> mapM f (x :: l) = Some (y :: ys).
Proof.
  intros Hx Hl. apply mapM_Some. constructor; [done|]. by apply mapM_Some.
Qed.

(** ** The byte decoder *)

Lemma utf8_encode_2 n0 n1 :
  0xC2 <= n0 < 0xE0 -> 0x80 <= n1 <= 0xBF ->
  utf8_encode_char ((n0 - 0xC0) * 64 + (n1 - 0x80)) = Some [n0; n1].
Proof.
  intros H0 H1. unfold utf8_encode_char.
  destruct (N.ltb_spec ((n0 - 0xC0) * 64 + (n1 - 0x80)) 0x80); [lia|].
  destruct (N.ltb_spec ((n0 - 0xC0) * 64 + (n1 - 0x80)) 0x800); [|lia].
  do 2 f_equal; [lia | f_equal; lia].
Qed.

Lemma utf8_encode_3 n0 n1 n2 :
  0xE0 <= n0 < 0xF0 -> 0x80 <= n1 <= 0xBF -> 0x80 <= n2 <= 0xBF ->
  (n0 = 0xE0 -> 0xA0 <= n1) -> (n0 = 0xED -> n1 < 0xA0) ->
  utf8_encode_char ((n0 - 0xE0) * 4096 + (n1 - 0x80) * 64 + (n2 - 0x80))
  = Some [n0; n1; n2].
Proof.
  intros H0 H1 H2 Hlo Hhi. unfold utf8_encode_char.
  set (c := (n0 - 0xE0) * 4096 + (n1 - 0x80) * 64 + (n2 - 0x80)).
  assert (Hc : 0x800 <= c < 0x10000).
  { subst c. destruct (N.eq_dec n0 0xE0) as [E|]; [specialize (Hlo E)|]; lia. }
  assert (Hs : ~ (0xD800 <= c <= 0xDFFF)).
  { subst c. destruct (N.eq_dec n0 0xED) as [E|]; [specialize (Hhi E)|]; lia. }
  destruct (N.ltb_spec c 0x80); [lia|].
  destruct (N.ltb_spec c 0x800); [lia|].
  destruct (N.ltb_spec c 0x10000); [|lia].
  destruct (in_range 0xD800 0xDFFF c) eqn:E; [apply in_range_spec in E; lia|].
  subst c. do 2 f_equal; [lia | f_equal; [lia | f_equal; lia]].
Qed.

Lemma utf8_encode_4 n0 n1 n2 n3 :
  0xF0 <= n0 < 0xF5 -> 0x80 <= n1 <= 0xBF -> 0x80 <= n2 <= 0xBF ->
  0x80 <= n3 <= 0xBF ->
  (n0 = 0xF0 -> 0x90 <= n1) -> (n0 = 0xF4 -> n1 < 0x90) ->
  utf8_encode_char ((n0 - 0xF0) * 262144 + (n1 - 0x80) * 4096
                    + (n2 - 0x80) * 64 + (n3 - 0x80))
  = Some [n0; n1; n2; n3].
Proof.
  intros H0 H1 H2 H3 Hlo Hhi. unfold utf8_encode_char.
  set (c := (n0 - 0xF0) * 262144 + (n1 - 0x80) * 4096 + (n2 - 0x80) * 64
            + (n3 - 0x80)).
  assert (Hc : 0x10000 <= c < 0x110000).
  { subst c. destruct (N.eq_dec n0 0xF0) as [E0|]; [specialize (Hlo E0)|];
    (destruct (N.eq_dec n0 0xF4) as [E4|]; [specialize (Hhi E4)|]); lia. }
  destruct (N.ltb_spec c 0x80); [lia|].
  destruct (N.ltb_spec c 0x800); [lia|].
  destruct (N.ltb_spec c 0x10000); [lia|].
  destruct (N.ltb_spec c 0x110000); [|lia].
  subst c. do 2 f_equal; [lia | f_equal; [lia | f_equal; [lia | f_equal; lia]]].
Qed.

Lemma is_continuation_spec b :
  is_continuation b = true -> 0x80 <= Byte.to_N b <= 0xBF.
Proof. apply in_range_spec. Qed.

Lemma second_of_3_spec n0 b1 :
  second_of_3 n0 b1 = true ->
  0x80 <= Byte.to_N b1 <= 0xBF
  /\ (n0 = 0xE0 -> 0xA0 <= Byte.to_N b1) /\ (n0 = 0xED -> Byte.to_N b1 < 0xA0).
Proof.
  unfold second_of_3. rewrite andb_true_iff. intros [Hc H].
  apply is_continuation_spec in Hc. split; [done|].
  destruct (N.eqb_spec n0 0xE0) as [->|?].
  - apply N.leb_le in H. split; [done|discriminate].
  - destruct (N.eqb_spec n0 0xED) as [->|?].
    + apply N.ltb_lt in H. split; [discriminate|done].
    + split; intros; contradiction.
Qed.

Lemma second_of_4_spec n0 b1 :
  second_of_4 n0 b1 = true ->
  0x80 <= Byte.to_N b1 <= 0xBF
  /\ (n0 = 0xF0 -> 0x90 <= Byte.to_N b1) /\ (n0 = 0xF4 -> Byte.to_N b1 < 0x90).
Proof.
  unfold second_of_4. rewrite andb_true_iff. intros [Hc H].
  apply is_continuation_spec in Hc. split; [done|].
  destruct (N.eqb_spec n0 0xF0) as [->|?].
  - apply N.leb_le in H. split; [done|discriminate].
  - destruct (N.eqb_spec n0 0xF4) as [->|?].
    + apply N.ltb_lt in H. split; [discriminate|done].
    + split; intros; contradiction.
Qed.

(** A text that the strict UTF-8 decoder returns encodes, character by
    character, to the bytes it was decoded from. *)
Lemma utf8_strict_bytes n : forall (b : bytes) (s : pystr),
  (length b <= n)%nat ->
  utf8_collect Strict (utf8_scan b) = Some s ->
  exists bss, mapM utf8_encode_char s = Some bss
              /\ concat bss = map Byte.to_N b.
Proof.
  induction n as [|n IH]; intros b s Hlen H.
  - destruct b; [|simpl in Hlen; lia]. injection H as <-. by exists [].
  - destruct b as [|b0 r0]; [injection H as <-; by exists []|].
    cbn [utf8_scan] in H. cbv zeta in H.
    set (n0 := Byte.to_N b0) in *.
    destruct (N.ltb_spec n0 0x80) as [L1|L1].
    { strict_step IH H. exists ([n0] :: bss). split.
      - apply mapM_cons_Some; [|done]. unfold utf8_encode_char.
        by destruct (N.ltb_spec n0 0x80); [|lia].
      - cbn. by rewrite Hc. }
    destruct (N.ltb_spec n0 0xC2) as [L2|L2]; [strict_step IH H|].
    destruct (N.ltb_spec n0 0xE0) as [L3|L3].
    { destruct r0 as [|b1 r1]; [strict_step IH H|].
      destruct (is_continuation b1) eqn:C1; [|strict_step IH H].
      apply is_continuation_spec in C1.
      strict_step IH H. exists ([n0; Byte.to_N b1] :: bss). split.
      - apply mapM_cons_Some; [|done]. unfold tail6. apply utf8_encode_2; lia.
      - cbn. by rewrite Hc. }
    destruct (N.ltb_spec n0 0xF0) as [L4|L4].
    { destruct r0 as [|b1 r1]; [strict_step IH H|].
      destruct (second_of_3 n0 b1) eqn:C1; [|strict_step IH H].
      apply second_of_3_spec in C1. destruct C1 as (C1 & Clo & Chi).
      destruct r1 as [|b2 r2]; [strict_step IH H|].
      destruct (is_continuation b2) eqn:C2; [|strict_step IH H].
      apply is_continuation_spec in C2.
      strict_step IH H.
      exists ([n0; Byte.to_N b1; Byte.to_N b2] :: bss). split.
      - apply mapM_cons_Some; [|done]. unfold tail6.
        apply utf8_encode_3; done || lia.
      - cbn. by rewrite Hc. }
    destruct (N.ltb_spec n0 0xF5) as [L5|L5]; [|strict_step IH H].
    destruct r0 as [|b1 r1]; [strict_step IH H|].
    destruct (second_of_4 n0 b1) eqn:C1; [|strict_step IH H].
    apply second_of_4_spec in C1. destruct C1 as (C1 & Clo & Chi).
    destruct r1 as [|b2 r2]; [strict_step IH H|].
    destruct (is_continuation b2) eqn:C2; [|strict_step IH H].
    apply is_continuation_spec in C2.
    destruct r2 as [|b3 r3]; [strict_step IH H|].
    destruct (is_continuation b3) eqn:C3; [|strict_step IH H].
    apply is_continuation_spec in C3.
    strict_step IH H.
    exists ([n0; Byte.to_N b1; Byte.to_N b2; Byte.to_N b3] :: bss). split.
    + apply mapM_cons_Some; [|done]. unfold tail6.
      apply utf8_encode_4; done || lia.
    + cbn. by rewrite Hc.
Qed.

Lemma bytes_of_their_values (b : bytes) :
  mapM Byte.of_N (map Byte.to_N b) = Some b.
Proof.
  induction b as [|x b IH]; [done|].
  cbn [map]. apply mapM_cons_Some; [apply Byte.of_to_N | done].
Qed.

Lemma utf8_strict_roundtrip (b : bytes) (s : pystr) :
  decode utf_8 b = Some s -> encode utf_8 s = Some b.
Proof.
  intros H. apply (utf8_strict_bytes (length b)) in H; [|done].
  destruct H as (bss & Hm & Hc). unfold encode. rewrite Hm. cbn.
  rewrite Hc. apply bytes_of_their_values.
Qed.

Lemma latin_1_roundtrip (b : bytes) (s : pystr) :
  decode latin_1 b = Some s -> encode latin_1 s = Some b.
Proof. intros [= <-]. apply bytes_of_their_values. Qed.

(** C10. For every byte sequence [try_decode_bytes] returns the text of the
    utf-8 attempt or else of the latin-1 attempt: the branch taken is never
    the cp1252 attempt nor the last-resort decode that ignores errors, and
    the text returned encodes back, in the encoding that produced it, to
    exactly the input bytes, so no byte was dropped. *)
Theorem try_decode_bytes_lossless (b : bytes) :
  exists enc,
    snd (try_decode_bytes_by b default_encodings) = ByEncoding enc
    /\ (enc = utf_8 \/ enc = latin_1)
    /\ decode enc b = Some (try_decode_bytes b)
    /\ encode enc (try_decode_bytes b) = Some b.
Proof.
  unfold try_decode_bytes, try_decode_bytes_by, default_encodings.
  cbn [first_decoding].
  destruct (decode utf_8 b) as [s|] eqn:E8.
  - exists utf_8. cbn [fst snd]. repeat split; auto.
    by apply utf8_strict_roundtrip.
  - destruct (decode latin_1 b) as [s|] eqn:E1; [|discriminate E1].
    exists latin_1. cbn [fst snd]. repeat split; auto.
    by apply latin_1_roundtrip.
Qed.

(** ** Postal normalisation *)

Lemma only_digits_Forall U s : Forall (fun c => isdigit U c = true) (only_digits U s).
Proof.
  unfold only_digits. apply List.Forall_forall. intros c Hc.
  by apply List.filter_In in Hc as [_ ?].
Qed.

Lemma only_digits_fixed U s :
  Forall (fun c => isdigit U c = true) s -> only_digits U s = s.
Proof.
  unfold only_digits. induction 1 as [|c r Hc _ IH]; [done|].
  cbn. by rewrite Hc, IH.
Qed.

Lemma isdigit_ZERO U : isdigit U ZERO = true.
Proof. reflexivity. Qed.

Lemma isdigit_not_sign U c :
  isdigit U c = true -> (c =? PLUS) || (c =? MINUS) = false.
Proof.
  intros H. destruct (N.eqb_spec c PLUS) as [->|]; [discriminate H|].
  destruct (N.eqb_spec c MINUS) as [->|]; [discriminate H|]. done.
Qed.

(** On a text of digits [zfill] only pads: the sign branch is never taken. *)
Lemma zfill_digits U width d :
  Forall (fun c => isdigit U c = true) d ->
  zfill width d = repeat ZERO (width - length d) ++ d.
Proof.
  intros Hd. unfold zfill. destruct Hd as [|c r Hc _].
  - by rewrite app_nil_r.
  - by rewrite (isdigit_not_sign U c Hc).
Qed.

Lemma norm_cep_digits U s :
  only_digits U s <> [] ->
  norm_cep U s = repeat ZERO (8 - length (only_digits U s)) ++ only_digits U s.
Proof.
  intros Hne. unfold norm_cep.
  destruct (only_digits U s) as [|c r] eqn:E; [done|].
  rewrite <- E. apply (zfill_digits U), only_digits_Forall.
Qed.

Lemma norm_cep_no_digits U s : only_digits U s = [] -> norm_cep U s = [].
Proof. intros E. unfold norm_cep. by rewrite E. Qed.

(** C3, as the code has it.  Postal normalisation keeps the digits of its
    argument, in order.  If none remains the result is empty; otherwise it is
    the digit sequence with zeros put in front of it up to a length of 8, so
    its length is 8 when at most 8 digits remain and the number of digits
    when more remain (nothing is cut).  "12.345-678" gives "12345678", "123"
    gives "00000123" and "" gives "". *)
Theorem norm_cep_pads_to_8 (U : UnicodeTables) (s : pystr) :
  let d := only_digits U s in
  d = List.filter (isdigit U) s
  /\ (d = [] -> norm_cep U s = [])
  /\ (d <> [] ->
      norm_cep U s = repeat ZERO (8 - length d) ++ d
      /\ length (norm_cep U s) = Nat.max 8 (length d))
  /\ norm_cep U (lit "12.345-678") = lit "12345678"
  /\ norm_cep U (lit "123") = lit "00000123"
  /\ norm_cep U (lit "") = lit "".
Proof.
  cbv zeta. split; [done|]. split; [apply norm_cep_no_digits|].
  split; [|by vm_compute].
  intros Hne. rewrite (norm_cep_digits U s Hne). split; [done|].
  rewrite length_app, repeat_length. lia.
Qed.

(** C3, as stated, fails: nine digits remain nine characters long. *)
Lemma norm_cep_nine_digits :
  only_digits sample_tables (lit "123456789") <> []
  /\ norm_cep sample_tables (lit "123456789") = lit "123456789"
  /\ length (norm_cep sample_tables (lit "123456789")) <> 8%nat.
Proof. by vm_compute. Qed.

Lemma norm_cep_idempotent U s : norm_cep U (norm_cep U s) = norm_cep U s.
Proof.
  destruct (only_digits U s) as [|c r] eqn:E.
  - rewrite (norm_cep_no_digits U s E). reflexivity.
  - assert (Hne : only_digits U s <> []) by (by rewrite E).
    rewrite (norm_cep_digits U s Hne).
    set (d := only_digits U s) in *.
    set (z := repeat ZERO (8 - length d) ++ d).
    assert (Hz : Forall (fun c => isdigit U c = true) z).
    { apply Forall_app. split; [|apply only_digits_Forall].
      apply List.Forall_forall. intros x Hx. apply repeat_spec in Hx as ->.
      apply isdigit_ZERO. }
    assert (Hzne : only_digits U z <> []).
    { rewrite (only_digits_fixed U z Hz). subst z. rewrite E.
      by destruct (repeat ZERO (8 - length (c :: r))). }
    rewrite (norm_cep_digits U z Hzne), (only_digits_fixed U z Hz).
    replace (8 - length z)%nat with 0%nat; [done|].
    subst z. rewrite length_app, repeat_length. lia.
Qed.

(** ** Text normalisation *)

Lemma collapse_from_Forall (P : N -> Prop) b s :
  P SPACE -> Forall P s -> Forall P (collapse_from b s).
Proof.
  intros HS Hs. revert b. induction Hs as [|c r Hc _ IH]; intros b; [constructor|].
  cbn. destruct (isspace c); [destruct b|]; auto.
Qed.

Lemma collapse_from_spaced b s : spaced b (collapse_from b s) = true.
Proof.
  revert b. induction s as [|c r IH]; intros b; [done|].
  cbn. destruct (isspace c) eqn:E.
  - destruct b; [apply IH|]. cbn. change (isspace SPACE) with true. cbn. apply IH.
  - cbn. rewrite E. apply IH.
Qed.

Lemma spaced_weaken b s : spaced b s = true -> spaced false s = true.
Proof.
  destruct s as [|c r]; [done|]. cbn. destruct (isspace c); [|done].
  rewrite andb_true_iff. by intros [_ ->].
Qed.

(** A text without two whitespace characters in a row, in which the only
    whitespace is the space, is left as it is by [re.sub(r'\s+', ' ', _)]. *)
Lemma collapse_from_fixed b s :
  spaced b s = true ->
  Forall (fun c => isspace c = true -> c = SPACE) s ->
  collapse_from b s = s.
Proof.
  intros Hsp Hs. revert b Hsp. induction Hs as [|c r Hc _ IH]; intros b Hsp; [done|].
  cbn in *. destruct (isspace c) eqn:E.
  - apply andb_true_iff in Hsp as [Hb Hr]. destruct b; [done|].
    rewrite (Hc eq_refl). f_equal. by apply IH.
  - f_equal. by apply IH.
Qed.

Lemma dropwhile_suffix {A} (p : A -> bool) (l : list A) :
  exists pre, l = pre ++ dropwhile p l /\ forallb p pre = true.
Proof.
  induction l as [|x r (pre & E & Hp)]; [by exists []|].
  cbn. destruct (p x) eqn:Hx.
  - exists (x :: pre). cbn. rewrite Hx, Hp. split; [by f_equal|done].
  - by exists [].
Qed.

Lemma dropwhile_head {A} (p : A -> bool) (l : list A) x r :
  dropwhile p l = x :: r -> p x = false.
Proof.
  induction l as [|y l IH]; [done|]. cbn. destruct (p y) eqn:Hy; [done|].
  by intros [= <- <-].
Qed.

Lemma dropwhile_fixed {A} (p : A -> bool) (l : list A) :
  match l with [] => True | x :: _ => p x = false end -> dropwhile p l = l.
Proof. destruct l as [|x r]; [done|]. cbn. by intros ->. Qed.

(** [s.lstrip()] and [s.rstrip()] take whitespace off one end. *)
Lemma lstrip_spec s :
  exists ws, s = ws ++ lstrip s /\ forallb isspace ws = true.
Proof. apply dropwhile_suffix. Qed.

Lemma rstrip_spec s :
  exists ws, s = rstrip s ++ ws /\ forallb isspace ws = true.
Proof.
  unfold rstrip. destruct (dropwhile_suffix isspace (rev s)) as (pre & E & Hp).
  exists (rev pre). split.
  - rewrite <- rev_app_distr, <- E. by rewrite rev_involutive.
  - rewrite forallb_forall in *. intros x Hx. apply Hp. by apply in_rev.
Qed.

Lemma rstrip_last s c : last (rstrip s) = Some c -> isspace c = false.
Proof.
  unfold rstrip. destruct (dropwhile isspace (rev s)) as [|x r] eqn:E; [done|].
  cbn [rev]. rewrite last_snoc. intros [= <-]. by apply dropwhile_head in E.
Qed.

Lemma rstrip_fixed s :
  match last s with None => True | Some c => isspace c = false end ->
  rstrip s = s.
Proof.
  intros H. unfold rstrip. rewrite dropwhile_fixed; [apply rev_involutive|].
  destruct s as [|x r] using rev_ind; [done|].
  rewrite last_snoc in H. by rewrite rev_app_distr.
Qed.

Lemma rstrip_head s x r : rstrip s = x :: r -> exists r', s = x :: r'.
Proof.
  intros E. destruct (rstrip_spec s) as (ws & Hs & _). rewrite E in Hs.
  by exists (r ++ ws).
Qed.

Lemma strip_idempotent s : strip (strip s) = strip s.
Proof.
  unfold strip. set (t := lstrip s).
  assert (Ht : lstrip (rstrip t) = rstrip t).
  { apply dropwhile_fixed. destruct (rstrip t) as [|x r] eqn:E; [done|].
    apply rstrip_head in E as (r' & E). by apply dropwhile_head in E. }
  rewrite Ht. apply rstrip_fixed.
  destruct (last (rstrip t)) as [c|] eqn:E; [|done]. by apply rstrip_last in E.
Qed.

Lemma strip_infix s : exists a b, s = a ++ strip s ++ b.
Proof.
  destruct (lstrip_spec s) as (a & Ha & _).
  destruct (rstrip_spec (lstrip s)) as (b & Hb & _).
  exists a, b. unfold strip. by rewrite <- Hb.
Qed.

Lemma spaced_app_l b s t : spaced b (s ++ t) = true -> spaced b s = true.
Proof.
  revert b. induction s as [|c r IH]; intros b; [done|].
  cbn. destruct (isspace c); [|apply IH].
  rewrite !andb_true_iff. intros [? ?]. split; [done|]. by apply IH.
Qed.

Lemma spaced_app_r b s t : spaced b (s ++ t) = true -> spaced false t = true.
Proof.
  revert b. induction s as [|c r IH]; intros b; [apply spaced_weaken|].
  cbn. destruct (isspace c); [|apply IH].
  rewrite andb_true_iff. intros [_ ?]. by apply (IH true).
Qed.

Lemma strip_spaced s : spaced false s = true -> spaced false (strip s) = true.
Proof.
  destruct (strip_infix s) as (a & b & E). intros H. rewrite E in H.
  apply spaced_app_r in H. by apply spaced_app_l in H.
Qed.

Lemma strip_Forall (P : N -> Prop) s : Forall P s -> Forall P (strip s).
Proof.
  destruct (strip_infix s) as (a & b & E). intros H. rewrite E in H.
  apply Forall_app in H as [_ H]. by apply Forall_app in H as [H _].
Qed.

Lemma settled_ascii c : settled c = true -> is_ascii c = true.
Proof. char_facts. lia. Qed.

Lemma settled_not_lower c : settled c = true -> ascii_lower_letter c = false.
Proof. char_facts. lia. Qed.

Lemma settled_space c : settled c = true -> isspace c = true -> c = SPACE.
Proof. char_facts. lia. Qed.

Lemma settled_kept U c : settled c = true -> isword U c || isspace c = true.
Proof.
  intros H. pose proof (settled_ascii c H) as Ha. unfold isword. rewrite Ha.
  clear Ha. char_facts. lia.
Qed.

Lemma unidecode_upper_chars U x :
  ascii_transliteration U ->
  Forall (fun c => is_ascii c = true /\ ascii_lower_letter c = false)
    (upper U (unidecode U x)).
Proof.
  intros HU. unfold upper, unidecode.
  apply List.Forall_forall. intros c Hc.
  apply in_flat_map in Hc as (a & Ha & Hc).
  assert (Hasc : is_ascii a = true).
  { apply in_flat_map in Ha as (b & _ & Ha).
    destruct (is_ascii b) eqn:E.
    - by destruct Ha as [<-|[]].
    - pose proof (HU b) as Hb. rewrite List.Forall_forall in Hb. by apply Hb. }
  unfold upper_char in Hc. rewrite Hasc in Hc. destruct Hc as [<-|[]].
  destruct (ascii_lower_letter a) eqn:E; [|done].
  clear Ha. char_facts. lia.
Qed.

Lemma blank_punctuation_chars U s :
  Forall (fun c => is_ascii c = true /\ ascii_lower_letter c = false) s ->
  Forall (fun c => isspace c = false -> settled c = true) (blank_punctuation U s).
Proof.
  intros H. unfold blank_punctuation. apply Forall_map.
  eapply Forall_impl; [exact H|]. cbn. intros c [Ha Hl].
  destruct (isword U c || isspace c) eqn:E; [|done].
  intros Hs. rewrite Hs, orb_false_r in E. unfold isword in E.
  rewrite Ha in E. clear Ha Hs. char_facts. lia.
Qed.

Lemma collapse_from_settled b s :
  Forall (fun c => isspace c = false -> settled c = true) s ->
  Forall (fun c => settled c = true) (collapse_from b s).
Proof.
  intros H. revert b. induction H as [|c r Hc _ IH]; intros b; [constructor|].
  cbn. destruct (isspace c) eqn:E; [destruct b|]; auto.
Qed.

Lemma norm_text_settled U x :
  ascii_transliteration U ->
  Forall (fun c => settled c = true) (norm_text U x).
Proof.
  intros HU. unfold norm_text, collapse_ws.
  apply collapse_from_settled, blank_punctuation_chars, strip_Forall.
  by apply unidecode_upper_chars.
Qed.

Lemma norm_text_spaced U x : spaced false (norm_text U x) = true.
Proof. apply collapse_from_spaced. Qed.

Lemma unidecode_ascii U s :
  Forall (fun c => is_ascii c = true) s -> unidecode U s = s.
Proof.
  induction 1 as [|c r Hc _ IH]; [done|].
  unfold unidecode in *. cbn. by rewrite Hc, IH.
Qed.

Lemma upper_settled U s :
  Forall (fun c => settled c = true) s -> upper U s = s.
Proof.
  induction 1 as [|c r Hc _ IH]; [done|].
  unfold upper in *. cbn. unfold upper_char at 1.
  by rewrite (settled_ascii c Hc), (settled_not_lower c Hc), IH.
Qed.

Lemma blank_punctuation_settled U s :
  Forall (fun c => settled c = true) s -> blank_punctuation U s = s.
Proof.
  induction 1 as [|c r Hc _ IH]; [done|].
  unfold blank_punctuation in *. cbn. by rewrite (settled_kept U c Hc), IH.
Qed.

(** On a text made of settled characters without doubled spaces the
    normalisation only strips. *)
Lemma norm_text_of_settled U y :
  Forall (fun c => settled c = true) y -> spaced false y = true ->
  norm_text U y = strip y.
Proof.
  intros Hy Hsp. unfold norm_text.
  rewrite unidecode_ascii by (eapply Forall_impl; [exact Hy|apply settled_ascii]).
  rewrite (upper_settled U y Hy).
  rewrite (blank_punctuation_settled U (strip y)) by by apply strip_Forall.
  apply collapse_from_fixed; [by apply strip_spaced|].
  apply strip_Forall. eapply Forall_impl; [exact Hy|].
  intros c. apply settled_space.
Qed.

(** C4, as the code has it.  Postal normalisation is a fixed point.  Text
    normalisation applied to a normalised text strips it
    ([norm(norm(x)) == norm(x).strip()]), so a second application reaches a
    fixed point; a normalised text may still begin or end with one space
    (left by punctuation at an end of the input), and then it is not a fixed
    point itself. *)
Theorem normalisation_fixed_points (U : UnicodeTables) (x : pystr) :
  ascii_transliteration U ->
  norm_cep U (norm_cep U x) = norm_cep U x
  /\ norm_text U (norm_text U x) = strip (norm_text U x)
  /\ norm_text U (norm_text U (norm_text U x)) = norm_text U (norm_text U x).
Proof.
  intros HU. split; [apply norm_cep_idempotent|].
  assert (H2 : norm_text U (norm_text U x) = strip (norm_text U x)).
  { apply norm_text_of_settled;
      [by apply norm_text_settled | apply norm_text_spaced]. }
  split; [done|]. rewrite H2.
  rewrite norm_text_of_settled.
  - apply strip_idempotent.
  - by apply strip_Forall, norm_text_settled.
  - apply strip_spaced, norm_text_spaced.
Qed.

Lemma sample_tables_ascii : ascii_transliteration sample_tables.
Proof.
  intros c. cbn.
  repeat match goal with
         | |- Forall _ (if ?b then _ else _) => destruct b
         end; repeat constructor.
Qed.

Lemma normalisation_fixed_points_witness :
  norm_cep sample_tables (norm_cep sample_tables (lit "01001-000"))
  = norm_cep sample_tables (lit "01001-000")
  /\ norm_text sample_tables (norm_text sample_tables (lit "Acme Ltda."))
     = strip (norm_text sample_tables (lit "Acme Ltda."))
  /\ norm_text sample_tables
       (norm_text sample_tables (norm_text sample_tables (lit "Acme Ltda.")))
     = norm_text sample_tables (norm_text sample_tables (lit "Acme Ltda.")).
Proof.
  split.
  - exact (proj1 (normalisation_fixed_points sample_tables (lit "01001-000")
                    sample_tables_ascii)).
  - exact (proj2 (normalisation_fixed_points sample_tables (lit "Acme Ltda.")
                    sample_tables_ascii)).
Defined.

(** C4, as stated, fails for the text normalisation: "a." is normalised to
    "A " (the full stop becomes a space after the stripping), and "A " is
    normalised to "A". *)
Lemma norm_text_not_fixed_point :
  norm_text sample_tables (lit "a.") = lit "A "
  /\ norm_text sample_tables (norm_text sample_tables (lit "a.")) = lit "A"
  /\ norm_text sample_tables (norm_text sample_tables (lit "a."))
     <> norm_text sample_tables (lit "a.").
Proof. by vm_compute. Qed.

(** ** The key *)

Lemma norm_text_kept_chars U x :
  Forall (fun c => isword U c || isspace c = true) (norm_text U x).
Proof.
  unfold norm_text, collapse_ws. apply collapse_from_Forall; [done|].
  unfold blank_punctuation. apply Forall_map, List.Forall_forall.
  intros c _. cbn. by destruct (isword U c || isspace c) eqn:E.
Qed.

Lemma norm_text_no_pipe U x : ~ In PIPE (norm_text U x).
Proof.
  intros H. pose proof (norm_text_kept_chars U x) as HF.
  rewrite List.Forall_forall in HF. by specialize (HF _ H).
Qed.

Lemma norm_cep_no_pipe U x : ~ In PIPE (norm_cep U x).
Proof.
  intros H. destruct (only_digits U x) as [|c r] eqn:E.
  - by rewrite (norm_cep_no_digits U x E) in H.
  - rewrite norm_cep_digits in H by (by rewrite E).
    apply in_app_or in H as [H|H].
    + by apply repeat_spec in H.
    + pose proof (only_digits_Forall U x) as HF.
      rewrite List.Forall_forall in HF. by specialize (HF _ H).
Qed.

(** Two texts cut at their first pipe agree piece by piece. *)
Lemma cut_at_first_pipe (a a' r r' : pystr) :
  ~ In PIPE a -> ~ In PIPE a' ->
  a ++ PIPE :: r = a' ++ PIPE :: r' -> a = a' /\ r = r'.
Proof.
  revert a'. induction a as [|x a IH]; intros [|x' a'] Ha Ha' E; cbn in *.
  - by injection E as ->.
  - injection E as <- _. tauto.
  - injection E as -> _. tauto.
  - injection E as -> E. apply IH in E as [-> ->]; tauto.
Qed.

Lemma join_key_injective (a b c a' b' c' : pystr) :
  ~ In PIPE a -> ~ In PIPE b -> ~ In PIPE a' -> ~ In PIPE b' ->
  join_key a b c = join_key a' b' c' -> a = a' /\ b = b' /\ c = c'.
Proof.
  unfold join_key. cbn. intros Ha Hb Ha' Hb' E.
  apply cut_at_first_pipe in E as [-> E]; [|done..].
  apply cut_at_first_pipe in E as [-> ->]; done.
Qed.

Lemma join_key_pipes (a b c : pystr) :
  ~ In PIPE a -> ~ In PIPE b -> ~ In PIPE c ->
  count_occ N.eq_dec (join_key a b c) PIPE = 2%nat.
Proof.
  intros Ha Hb Hc. unfold join_key.
  rewrite !count_occ_app.
  apply (count_occ_not_In N.eq_dec) in Ha, Hb, Hc.
  rewrite Ha, Hb, Hc. reflexivity.
Qed.

(** ** The column mapper *)

(** What the second rule of the mapper accepts: a lowered name without the
    sender marker that contains "endereço orig" or "endereco orig", or
    the accented "endereço" and "orig" anywhere. *)
Lemma colmap_origin_address U c :
  let c_low := lower U (strip c) in
  contains (lit "remetent") c_low = false ->
  contains (endereco_accented ++ lit " orig") c_low
  || contains (lit "endereco orig") c_low
  || (contains endereco_accented c_low && contains (lit "orig") c_low) = true ->
  colmap U c = EnderecoOrigem.
Proof. cbv zeta. intros H1 H2. unfold colmap. by rewrite H1, H2. Qed.

(** C5 at its failing input.  The unaccented spelling with text between the
    two markers is not renamed: "Endereco de Origem" keeps its name, while
    "Endereco Origem" and the accented spelling with the same text in
    between are renamed to EnderecoOrigem, and the header locator accepts a
    header line written with the unaccented spelling. *)
Theorem colmap_unaccented_gap (U : UnicodeTables) :
  colmap U (lit "Endereco de Origem") = lit "Endereco de Origem"
  /\ colmap U (lit "Endereco de Origem") <> EnderecoOrigem
  /\ contains (lit "endereco") (lower U (strip (lit "Endereco de Origem"))) = true
  /\ contains (lit "orig") (lower U (strip (lit "Endereco de Origem"))) = true
  /\ contains (lit "remetent") (lower U (strip (lit "Endereco de Origem"))) = false
  /\ colmap U (lit "Endereco Origem") = EnderecoOrigem
  /\ colmap sample_tables (lit "Endere" ++ [C_CEDILLA] ++ lit "o de Origem")
     = EnderecoOrigem
  /\ is_header_line U (lit "Remetente  Endereco de Origem  CEP Origem") = true.
Proof. by vm_compute. Qed.

(** ** The tokenizer *)

Section Runs.
Context (p : N -> bool).

Lemma has_run_nil k : (0 < k)%nat -> has_run p k [] = false.
Proof. by destruct k; [lia|]. Qed.

Lemma run_at_length k s : run_at p k s = true -> (k <= length s)%nat.
Proof.
  revert s. induction k as [|k' IH]; intros s; [cbn; lia|].
  destruct s as [|c r]; [done|]. cbn. rewrite andb_true_iff.
  intros [_ H]. apply IH in H. lia.
Qed.

Lemma has_run_length k s : has_run p k s = true -> (k <= length s)%nat.
Proof.
  induction s as [|c r IH]; cbn; rewrite orb_true_iff.
  - intros [H|H]; [by apply run_at_length in H|done].
  - intros [H|H]; [by apply run_at_length in H|]. apply IH in H. lia.
Qed.

(** A run that starts at the head of [a ++ b] lies within [a] or covers
    all of [a]. *)
Lemma run_at_app k a b :
  run_at p k (a ++ b) = true -> run_at p k a = true \/ forallb p a = true.
Proof.
  revert a. induction k as [|k' IH]; intros a; [by left|].
  destruct a as [|x a']; [by right|]. cbn. rewrite andb_true_iff.
  intros [Hx H]. rewrite Hx. cbn. by apply IH.
Qed.

Lemma ends_in_forallb a : a <> [] -> forallb p a = true -> ends_in p a = true.
Proof.
  intros Hne H. unfold ends_in. destruct a as [|x a'] using rev_ind; [done|].
  rewrite last_snoc. rewrite forallb_app in H.
  apply andb_true_iff in H as [_ H]. cbn in H. by rewrite andb_true_r in H.
Qed.

Lemma ends_in_cons x a : a <> [] -> ends_in p (x :: a) = ends_in p a.
Proof. unfold ends_in. by destruct a. Qed.

(** A token that does not end in the class can be followed by any text
    without a run: no run arises across the border. *)
Lemma has_run_app k a b :
  has_run p k a = false -> ends_in p a = false -> has_run p k b = false ->
  has_run p k (a ++ b) = false.
Proof.
  intros Ha He Hb. induction a as [|x a' IH]; [done|].
  cbn in Ha. apply orb_false_iff in Ha as [Hr Ha].
  cbn. apply orb_false_iff. split.
  - destruct (run_at p k (x :: a' ++ b)) eqn:E; [|done].
    apply (run_at_app k (x :: a') b) in E as [E|E]; [congruence|].
    apply ends_in_forallb in E; [congruence|done].
  - destruct a' as [|y a'']; [done|].
    apply IH; [done|]. by rewrite ends_in_cons in He.
Qed.

Lemma run_at_short_then_other k r c :
  (length r < k)%nat -> p c = false -> run_at p k (r ++ [c]) = false.
Proof.
  revert r. induction k as [|k' IH]; intros r Hl Hc; [lia|].
  destruct r as [|x r']; cbn; [by rewrite Hc|].
  cbn in Hl. rewrite IH by (done || lia). apply andb_false_r.
Qed.

Lemma has_run_short_then_other k r c :
  (0 < k)%nat -> (length r < k)%nat -> p c = false -> has_run p k (r ++ [c]) = false.
Proof.
  intros Hk Hl Hc. induction r as [|x r' IH].
  - destruct k; [lia|]. cbn. by rewrite Hc.
  - pose proof (run_at_short_then_other k (x :: r') c Hl Hc) as E.
    cbn [app has_run] in *. rewrite E. cbn in Hl. apply IH. lia.
Qed.

Lemma has_run_short k r : (length r < k)%nat -> has_run p k r = false.
Proof.
  intros Hl. destruct (has_run p k r) eqn:E; [|done].
  apply has_run_length in E. lia.
Qed.

(** The tokens that [re.split] returns are tokens in the sense of
    [SplitAt]. *)
Lemma split_go_spec k s : (0 < k)%nat -> forall tok run,
  forallb p run = true -> has_run p k tok = false -> ends_in p tok = false ->
  SplitAt p k (tok ++ run ++ s) (split_go p k s tok run).
Proof.
  intros Hk. induction s as [|c r IH]; intros tok run Hrun Htok Hend;
    cbn [split_go].
  - destruct (Nat.leb_spec k (length run)) as [L|L].
    + apply SplitAt_cons; try done.
      by apply SplitAt_last, has_run_nil.
    + rewrite app_nil_r.
      apply SplitAt_last, has_run_app; [done..|]. by apply has_run_short.
  - destruct (p c) eqn:Hc.
    + replace (tok ++ run ++ c :: r) with (tok ++ (run ++ [c]) ++ r)
        by (by rewrite <- app_assoc).
      apply IH; [|done..]. rewrite forallb_app, Hrun. cbn. by rewrite Hc.
    + assert (Hone : has_run p k [c] = false)
        by (by apply (has_run_short_then_other k [])).
      assert (Hlast : ends_in p [c] = false) by done.
      destruct (Nat.leb_spec k (length run)) as [L|L].
      * apply SplitAt_cons; [done | done | done | done | by cbn |].
        by apply (IH [c] []).
      * replace (tok ++ run ++ c :: r) with ((tok ++ run ++ [c]) ++ [] ++ r)
          by (by rewrite <- !app_assoc).
        apply IH; [done| |].
        -- apply has_run_app; [done..|]. by apply has_run_short_then_other.
        -- unfold ends_in. by rewrite !app_assoc, last_snoc.
Qed.

Lemma re_split_spec k s : (0 < k)%nat -> SplitAt p k s (re_split p k s).
Proof. intros Hk. by apply (split_go_spec k s Hk [] []); [|apply has_run_nil|]. Qed.

End Runs.

Section Tokens.
Context (p : N -> bool) (k : nat) (Hk : (0 < k)%nat).

Lemma run_at_prefix d b :
  forallb p d = true -> (k <= length d)%nat -> run_at p k (d ++ b) = true.
Proof using Type.
  clear Hk. revert d. induction k as [|k' IH]; intros d Hd Hl; [done|].
  destruct d as [|x d']; [cbn in Hl; lia|]. cbn in *.
  apply andb_true_iff in Hd as [-> Hd]. cbn. apply IH; [done|lia].
Qed.

Lemma has_run_suffix a b : has_run p k b = true -> has_run p k (a ++ b) = true.
Proof using Type.
  intros H. induction a as [|x a IH]; [done|].
  cbn [app has_run]. rewrite IH. apply orb_true_r.
Qed.

(** A delimiter inside a text is a run of that text. *)
Lemma has_run_delimiter a d b :
  forallb p d = true -> (k <= length d)%nat -> has_run p k (a ++ d ++ b) = true.
Proof using Type.
  intros Hd Hl. apply has_run_suffix.
  destruct (d ++ b) as [|x r] eqn:E; cbn;
    rewrite <- E, run_at_prefix by done; done.
Qed.

Lemma ends_in_app_class a b :
  b <> [] -> forallb p b = true -> ends_in p (a ++ b) = true.
Proof using Type.
  intros Hne Hb. unfold ends_in.
  destruct b as [|x b'] using rev_ind; [done|].
  rewrite app_assoc, last_snoc. rewrite forallb_app in Hb.
  apply andb_true_iff in Hb as [_ Hb]. cbn in Hb. by rewrite andb_true_r in Hb.
Qed.

(** The first token of a text is determined: it cannot end inside or after
    the first delimiter of another decomposition. *)
Lemma first_token_not_longer t d s t' d' s' a :
  has_run p k t = false -> ends_in p t = false ->
  forallb p d' = true -> (k <= length d')%nat ->
  t = t' ++ a -> d' ++ s' = a ++ d ++ s -> a = [].
Proof using Hk.
  intros Hrun Hend Hd' Hl' Ht E.
  destruct a as [|x a']; [done|]. exfalso.
  apply List.app_eq_app in E as (b & [[E1 E2]|[E1 E2]]).
  - assert (Hcl : forallb p (x :: a') = true).
    { rewrite E1, forallb_app in Hd'. by apply andb_true_iff in Hd' as [? _]. }
    rewrite Ht, ends_in_app_class in Hend; done.
  - rewrite Ht, E1, has_run_delimiter in Hrun; done.
Qed.

Lemma delimiter_determined d s d' s' :
  forallb p d = true -> forallb p d' = true ->
  starts_in p s = false -> starts_in p s' = false ->
  d ++ s = d' ++ s' -> d = d' /\ s = s'.
Proof using Type.
  intros Hd Hd' Hs Hs' E.
  apply List.app_eq_app in E as (a & [[E1 E2]|[E1 E2]]);
    (destruct a as [|x a'];
     [rewrite app_nil_r in E1; cbn in E2; by subst|exfalso]).
  - rewrite E1, forallb_app in Hd. apply andb_true_iff in Hd as [_ Hd].
    cbn in Hd. apply andb_true_iff in Hd as [Hx _].
    rewrite E2 in Hs'. cbn in Hs'. congruence.
  - rewrite E1, forallb_app in Hd'. apply andb_true_iff in Hd' as [_ Hd'].
    cbn in Hd'. apply andb_true_iff in Hd' as [Hx _].
    rewrite E2 in Hs. cbn in Hs. congruence.
Qed.

(** A text has one list of tokens. *)
Lemma SplitAt_unique s toks :
  SplitAt p k s toks -> forall toks', SplitAt p k s toks' -> toks = toks'.
Proof using Hk.
  induction 1 as [t Ht|t d s toks Ht He Hd Hl Hs Hrest IH]; intros toks' H'.
  - inversion H' as [t' Ht' E|t' d' s' toks'' Ht' He' Hd' Hl' Hs' Hrest' E];
      [done|].
    subst t. by rewrite has_run_delimiter in Ht.
  - inversion H' as [t' Ht' E|t' d' s' toks'' Ht' He' Hd' Hl' Hs' Hrest' E].
    + subst t'. by rewrite has_run_delimiter in Ht'.
    + assert (t' = t) as ->.
      { apply List.app_eq_app in E as (a & [[E1 E2]|[E1 E2]]).
        - rewrite (first_token_not_longer t' d' s' t d s a) in E1
            by done. by rewrite app_nil_r in E1.
        - rewrite (first_token_not_longer t d s t' d' s' a) in E1
            by done. by rewrite app_nil_r in E1. }
      apply app_inv_head in E.
      apply delimiter_determined in E as [-> ->]; [|done..].
      f_equal. by apply IH.
Qed.

Lemma re_split_unique s toks : SplitAt p k s toks <-> toks = re_split p k s.
Proof using Hk.
  split.
  - intros H. apply (SplitAt_unique s toks H). by apply re_split_spec.
  - intros ->. by apply re_split_spec.
Qed.

End Tokens.

Lemma existsb_istab linha : existsb istab linha = true <-> In TAB linha.
Proof.
  rewrite existsb_exists. unfold istab. split.
  - intros (c & Hc & E). by apply N.eqb_eq in E as ->.
  - intros H. exists TAB. by rewrite N.eqb_refl.
Qed.

(** C7. [split_linha] is the three-tier fallback.  A line with a tab is cut
    at its runs of one or more tabs, whatever spaces it has.  A line without
    a tab is cut at its runs of two or more whitespace characters; only when
    that leaves one token is it cut at every run of whitespace.  In each
    tier the tokens are the ones [SplitAt] describes, and they are the only
    ones. *)
Theorem split_linha_three_tiers (linha : pystr) :
  let cols := re_split isspace 2 linha in
  (forall toks, SplitAt isspace 2 linha toks <-> toks = cols)
  /\ (In TAB linha ->
      forall toks, SplitAt istab 1 linha toks <-> toks = split_linha linha)
  /\ (~ In TAB linha -> length cols <> 1%nat -> split_linha linha = cols)
  /\ (~ In TAB linha -> length cols = 1%nat ->
      forall toks, SplitAt isspace 1 linha toks <-> toks = split_linha linha)
  /\ split_linha (lit "a  b" ++ [TAB] ++ lit "c") = [lit "a  b"; lit "c"]
  /\ split_linha (lit "Rua A  01001") = [lit "Rua A"; lit "01001"]
  /\ split_linha (lit "a b c") = [lit "a"; lit "b"; lit "c"].
Proof.
  cbv zeta. split; [intros toks; apply re_split_unique; lia|].
  split; [|split; [|split; [|by vm_compute]]].
  - intros Htab toks. apply existsb_istab in Htab. unfold split_linha.
    rewrite Htab. apply re_split_unique. lia.
  - intros Htab Hlen. unfold split_linha.
    destruct (existsb istab linha) eqn:E; [by apply existsb_istab in E|].
    by apply Nat.eqb_neq in Hlen as ->.
  - intros Htab Hlen toks. unfold split_linha.
    destruct (existsb istab linha) eqn:E; [by apply existsb_istab in E|].
    apply Nat.eqb_eq in Hlen as ->. apply re_split_unique. lia.
Qed.

(** ** Data frames *)

Lemma positions_spec l cols : forall j x,
  In x (positions l cols j) <-> (j <= x)%nat /\ cols !! (x - j)%nat = Some l.
Proof.
  induction cols as [|c r IH]; intros j x; cbn.
  - split; [done|]. by intros [_ ?].
  - assert (Hr : In x (positions l r (S j))
                 <-> (j < x)%nat /\ r !! (x - S j)%nat = Some l).
    { rewrite IH. split; intros [? ?]; split; done || lia. }
    case_bool_decide as Hc; cbn; rewrite ?Hr; split.
    + intros [<-|[? ?]].
      * split; [lia|]. replace (j - j)%nat with 0%nat by lia. by subst.
      * split; [lia|]. by replace (x - j)%nat with (S (x - S j)) by lia.
    + intros [Hj Hx]. destruct (decide (x = j)) as [->|Hne]; [by left|right].
      split; [lia|].
      by replace (x - j)%nat with (S (x - S j)) in Hx by lia.
    + intros [? ?]. split; [lia|].
      by replace (x - j)%nat with (S (x - S j)) by lia.
    + intros [Hj Hx]. destruct (decide (x = j)) as [->|Hne].
      * replace (j - j)%nat with 0%nat in Hx by lia. cbn in Hx. congruence.
      * split; [lia|].
        by replace (x - j)%nat with (S (x - S j)) in Hx by lia.
Qed.

Lemma positions_app l a b j :
  positions l (a ++ b) j = positions l a j ++ positions l b (j + length a).
Proof.
  revert j. induction a as [|c a IH]; intros j; cbn.
  - by rewrite Nat.add_0_r.
  - rewrite IH. replace (S j + length a)%nat with (j + S (length a))%nat by lia.
    by case_bool_decide.
Qed.

Lemma positions_absent l cols j : l ∉ cols -> positions l cols j = [].
Proof.
  intros H. destruct (positions l cols j) as [|x r] eqn:E; [done|].
  assert (Hx : In x (positions l cols j)) by (rewrite E; by left).
  apply positions_spec in Hx as [_ Hx]. apply list_elem_of_lookup_2 in Hx. done.
Qed.

Lemma positions_present l cols j : l ∈ cols -> positions l cols j <> [].
Proof.
  intros H E. apply list_elem_of_lookup_1 in H as [i Hi].
  assert (Hx : In (j + i)%nat (positions l cols j)).
  { apply positions_spec. split; [lia|].
    by replace (j + i - j)%nat with i by lia. }
  by rewrite E in Hx.
Qed.

Lemma positions_app_other l l' cols :
  l <> l' -> positions l (cols ++ [l']) 0 = positions l cols 0.
Proof.
  intros Hne. rewrite positions_app. cbn.
  rewrite bool_decide_false by done. apply app_nil_r.
Qed.

Lemma nth_set_cell_same cols l r v j :
  length r = length cols -> cols !! j = Some l ->
  nth j (set_cell cols l r v) NaN = v.
Proof.
  intros Hlen Hj. unfold set_cell.
  rewrite bool_decide_true by by eapply list_elem_of_lookup_2.
  rewrite nth_lookup, lookup_zip_with, Hj. cbn.
  destruct (lookup_lt_is_Some_2 r j) as [x Hx].
  { rewrite Hlen. by eapply lookup_lt_Some. }
  rewrite Hx. cbn. by rewrite bool_decide_true.
Qed.

Lemma nth_set_cell_other cols l l' r v j :
  length r = length cols -> cols !! j = Some l' -> l' <> l ->
  nth j (set_cell cols l r v) NaN = nth j r NaN.
Proof.
  intros Hlen Hj Hne. unfold set_cell.
  destruct (lookup_lt_is_Some_2 r j) as [x Hx].
  { rewrite Hlen. by eapply lookup_lt_Some. }
  rewrite !nth_lookup. case_bool_decide.
  - rewrite lookup_zip_with, Hj, Hx. cbn. by rewrite bool_decide_false.
  - by rewrite lookup_app_l by by eapply lookup_lt_Some.
Qed.

Lemma nth_set_cell_new cols l r v :
  length r = length cols -> l ∉ cols ->
  nth (length cols) (set_cell cols l r v) NaN = v.
Proof.
  intros Hlen Hl. unfold set_cell. rewrite bool_decide_false by done.
  rewrite nth_lookup, <- Hlen. by rewrite list_lookup_middle.
Qed.

Lemma length_set_cell cols l r v :
  length r = length cols ->
  length (set_cell cols l r v)
  = length (if bool_decide (l ∈ cols) then cols else cols ++ [l]).
Proof.
  intros Hlen. unfold set_cell. case_bool_decide.
  - rewrite length_zip_with. lia.
  - rewrite !length_app. cbn. lia.
Qed.

Lemma wf_set_col df l v : wf_frame df -> wf_frame (set_col df l v).
Proof.
  unfold wf_frame. cbn. generalize (rows df) as rs. intros rs H. revert v.
  induction H as [|r rs Hr _ IH]; intros [|x v]; cbn; constructor.
  - by apply length_set_cell.
  - apply IH.
Qed.

Lemma length_rows_set_col df l v :
  length v = length (rows df) -> length (rows (set_col df l v)) = length (rows df).
Proof. intros H. cbn. rewrite length_zip_with. lia. Qed.

(** A value computed from each row and its new cell, over the rows of an
    assignment. *)
Lemma map_zip_with_rows {A} (g : list cell -> A) (h : list cell -> cell -> A)
    cols l (rs : list (list cell)) (v : list cell) :
  Forall (fun r => length r = length cols) rs -> length v = length rs ->
  (forall r x, length r = length cols -> g (set_cell cols l r x) = h r x) ->
  map g (zip_with (set_cell cols l) rs v) = zip_with h rs v.
Proof.
  intros Hwf Hlen Hg. revert v Hlen.
  induction Hwf as [|r rs Hr _ IH]; intros [|x v] Hlen; try done.
  cbn in *. rewrite Hg by done. f_equal. apply IH. lia.
Qed.

Lemma zip_with_snd {A B} (l : list A) (k : list B) :
  length k = length l -> zip_with (fun _ y => y) l k = k.
Proof.
  revert k. induction l as [|x l IH]; intros [|y k] H; try done.
  cbn in *. f_equal. apply IH. lia.
Qed.

Lemma zip_with_fst {A B C} (f : A -> C) (l : list A) (k : list B) :
  length k = length l -> zip_with (fun x _ => f x) l k = map f l.
Proof.
  revert k. induction l as [|x l IH]; intros [|y k] H; try done.
  cbn in *. f_equal. apply IH. lia.
Qed.

(** Reading back the column just assigned gives the values assigned. *)
Lemma select_set_col_same df l v :
  wf_frame df -> length v = length (rows df) ->
  (length (positions l (columns df) 0) <= 1)%nat ->
  select (set_col df l v) l = Series v.
Proof.
  intros Hwf Hlen Hone. unfold select. cbn [columns rows set_col].
  case_bool_decide as Hin.
  - pose proof (positions_present l (columns df) 0 Hin) as Hne.
    destruct (positions l (columns df) 0) as [|j [|j' js]] eqn:E;
      [done| |cbn in Hone; lia].
    assert (Hj : columns df !! j = Some l).
    { assert (Hx : In j (positions l (columns df) 0)) by (rewrite E; by left).
      apply positions_spec in Hx as [_ Hx].
      by replace (j - 0)%nat with j in Hx by lia. }
    f_equal. rewrite (map_zip_with_rows _ (fun _ x => x)); [|done..|].
    + by apply zip_with_snd.
    + intros r x Hr. by apply nth_set_cell_same.
  - rewrite positions_app, (positions_absent l _ 0 Hin). cbn.
    rewrite bool_decide_true by done. f_equal.
    rewrite (map_zip_with_rows _ (fun _ x => x)); [|done..|].
    + by apply zip_with_snd.
    + intros r x Hr. by apply nth_set_cell_new.
Qed.

(** Assigning one column leaves the others as they were. *)
Lemma select_set_col_other df l l' v :
  l <> l' -> wf_frame df -> length v = length (rows df) ->
  select (set_col df l' v) l = select df l.
Proof.
  intros Hne Hwf Hlen. unfold select. cbn [columns rows set_col].
  assert (Hpos : positions l (if bool_decide (l' ∈ columns df) then columns df
                              else columns df ++ [l']) 0
                 = positions l (columns df) 0).
  { case_bool_decide; [done|]. rewrite positions_app. cbn.
    rewrite bool_decide_false by done. apply app_nil_r. }
  rewrite Hpos.
  destruct (positions l (columns df) 0) as [|j [|j' js]] eqn:E; [done| |done].
  assert (Hj : columns df !! j = Some l).
  { assert (Hx : In j (positions l (columns df) 0)) by (rewrite E; by left).
    apply positions_spec in Hx as [_ Hx].
    by replace (j - 0)%nat with j in Hx by lia. }
  f_equal. rewrite (map_zip_with_rows _ (fun r _ => nth j r NaN)); [|done..|].
  - by apply zip_with_fst.
  - intros r x Hr. by apply (nth_set_cell_other _ _ l).
Qed.

(** ** The matcher *)

Lemma traverse_Ok_map {A B} (g : A -> B) (l : list A) :
  traverse (fun x => Ok (g x)) l = Ok (map g l).
Proof. induction l as [|x l IH]; [done|]. cbn. by rewrite IH. Qed.

Lemma select_Series_cell_at df l vs :
  select df l = Series vs -> vs = map (cell_at df l) (rows df).
Proof.
  unfold select, cell_at.
  destruct (positions l (columns df) 0) as [|j [|j' js]]; [done| |done].
  by intros [= <-].
Qed.

Lemma select_Series_length df l vs :
  select df l = Series vs -> length vs = length (rows df).
Proof. intros H. apply select_Series_cell_at in H as ->. apply length_map. Qed.

Lemma key_in_is_repeat base df_dia bk r :
  select base chave = Series bk ->
  key_in (list_to_set (map py_str bk)) (cell_at df_dia chave r)
  = is_repeat base df_dia r.
Proof.
  intros Hb. apply select_Series_cell_at in Hb as ->.
  unfold is_repeat, key_in, chaves. rewrite map_map.
  destruct (cell_at df_dia chave r); [|done..].
  apply bool_decide_ext, elem_of_list_to_set.
Qed.

Lemma bind_Ok {A B} (a : A) (f : A -> outcome B) : (Ok a ≫= f) = f a.
Proof. reflexivity. Qed.

Lemma column_apply_Series df l vs (g : cell -> cell) e :
  select df l = Series vs ->
  column_apply df l (fun x => Ok (g x)) e = Ok (map g vs).
Proof. intros H. unfold column_apply. rewrite H. apply traverse_Ok_map. Qed.

Lemma get_series_Series df l vs : select df l = Series vs -> get_series df l = Ok vs.
Proof. intros H. unfold get_series. by rewrite H. Qed.

(** Boolean indexing after the assignment of the flags keeps the rows whose
    flag is set, each with its flag, in their order. *)
Lemma filter_flagged cols l (f : list cell -> bool) (rs : list (list cell)) :
  map fst
    (List.filter (fun rm => bool_decide (snd rm = Bool true))
       (zip (zip_with (set_cell cols l) rs (map (fun r => Bool (f r)) rs))
            (map (fun r => Bool (f r)) rs)))
  = map (fun r => set_cell cols l r (Bool true)) (List.filter f rs).
Proof.
  induction rs as [|r rs IH]; [done|].
  cbn [map zip_with List.filter snd]. destruct (f r).
  - rewrite bool_decide_true by done. cbn [map fst]. by rewrite IH.
  - rewrite bool_decide_false by done. apply IH.
Qed.

Lemma rows_mask_index df mask :
  rows (mask_index df mask) = rows (filter_rows df mask).
Proof. destruct mask; [|done]. cbn. by destruct (rows df). Qed.

Lemma columns_mask_index df mask :
  columns (mask_index df mask) = if mask is [] then [] else columns df.
Proof. by destruct mask. Qed.

(** The matcher on two tables that have one [chave] column each (one cell
    per column in every daily row, and no second column named
    [is_repetido]): it returns a result; the flag of a daily row is set iff
    its [chave] is one of the [chave] values of the base, and the rows of
    the result are exactly the daily rows so flagged, in the order of the
    daily table, each with its flag and (the daily table having rows) under
    the columns of the daily table and the flag. *)
Lemma df_repetidos_one_chave (base df_dia : DataFrame)
    (bk dk : list cell) :
  wf_frame df_dia ->
  select base chave = Series bk ->
  select df_dia chave = Series dk ->
  (length (positions is_repetido (columns df_dia) 0) <= 1)%nat ->
  let flags := map (fun r => Bool (is_repeat base df_dia r)) (rows df_dia) in
  exists res,
    df_repetidos base df_dia = Ok res
    /\ select (set_col df_dia is_repetido flags) is_repetido = Series flags
    /\ (rows df_dia <> [] ->
        columns res = columns (set_col df_dia is_repetido flags))
    /\ rows res
       = map (fun r => set_cell (columns df_dia) is_repetido r (Bool true))
           (List.filter (is_repeat base df_dia) (rows df_dia)).
Proof.
  intros Hwf Hb Hd Hone flags.
  assert (Hflags : map (fun k => Bool (key_in (list_to_set (map py_str bk)) k)) dk
                   = flags).
  { rewrite (select_Series_cell_at _ _ _ Hd), map_map. subst flags.
    apply map_ext. intros r. f_equal. by apply key_in_is_repeat. }
  assert (Hlen : length flags = length (rows df_dia))
    by (subst flags; apply length_map).
  assert (Hsel : select (set_col df_dia is_repetido flags) is_repetido
                 = Series flags) by by apply select_set_col_same.
  exists (mask_index (set_col df_dia is_repetido flags) flags).
  split; [|split; [exact Hsel|split]].
  - unfold df_repetidos. rewrite Hb, bind_Ok.
    rewrite (column_apply_Series _ _ dk) by done.
    rewrite bind_Ok, Hflags, (get_series_Series _ _ flags Hsel), bind_Ok.
    reflexivity.
  - intros Hrows. rewrite columns_mask_index.
    subst flags. by destruct (rows df_dia).
  - rewrite rows_mask_index. cbn [rows filter_rows set_col].
    apply filter_flagged.
Qed.

(** The end-to-end example: of the three daily records only the one that is
    the record of the base written differently is returned. *)
Lemma df_repetidos_example :
  (fun o => match o with
            | Ok res => Some (map (fun r => cell_at res Remetente r) (rows res),
                              map (fun r => cell_at res is_repetido r) (rows res))
            | _ => None
            end) (df_repetidos example_base example_daily)
  = Some ([Str (lit "acme ltda")], [Bool true]).
Proof. by vm_compute. Qed.

(** ** The parser on an input without lines *)

(** C2 at its failing input.  For an input without a non-blank line (no
    bytes, or blank lines only; given as bytes or read from a file)
    [parse_txt_to_df] returns the frame without columns: none of Remetente,
    EnderecoOrigem, CEPOrigem and [chave] exists.  The matcher raises
    [KeyError] on that frame and [upload_dia] ends with that exception,
    while the sibling path of [ensure_base_loaded] builds its empty table
    with the four columns. *)
Theorem parse_txt_to_df_no_lines (U : UnicodeTables) (fs : FileSystem) :
  parse_txt_to_df U fs (Bytes []) = Ok empty_frame
  /\ parse_txt_to_df U fs (Bytes (ascii_bytes (text_lines [" "; ""; "  "]%string)))
     = Ok empty_frame
  /\ parse_txt_to_df U
       {| base_txt := Some []; base_csv := base_csv fs; csv_write := csv_write fs |}
       (Path BASE_TXT)
     = Ok empty_frame
  /\ columns empty_frame = []
  /\ select empty_frame Remetente = NoColumn
  /\ select empty_frame EnderecoOrigem = NoColumn
  /\ select empty_frame CEPOrigem = NoColumn
  /\ select empty_frame chave = NoColumn
  /\ df_repetidos example_base empty_frame = Raises (KeyError chave)
  /\ snd (upload_dia sample_tables example_world (Some example_empty_upload))
     = ServerError (KeyError chave)
  /\ columns empty_base = [Remetente; EnderecoOrigem; CEPOrigem; chave].
Proof. by vm_compute. Qed.

(** ** The upload handler *)

Lemma ensure_base_loaded_keeps_match U w :
  DF_MATCH (fst (ensure_base_loaded U w)) = DF_MATCH w.
Proof.
  unfold ensure_base_loaded.
  destruct (DF_BASE w); [done|].
  destruct (load_snapshot U (disk w)) as [[df|]| |]; try done.
  destruct (base_txt (disk w)); [|done].
  by destruct (parse_txt_to_df U (disk w) (Path BASE_TXT)).
Qed.

Lemma parse_bytes_any_disk U fs fs' b :
  parse_txt_to_df U fs (Bytes b) = parse_txt_to_df U fs' (Bytes b).
Proof. reflexivity. Qed.

(** ** The base repository *)

(** A snapshot that is broken.  With no base loaded and a snapshot on disk:
    - when the snapshot fails to load, or lacks [chave] and cannot be read
      as a text table either, and the raw base exists and parses, the base
      is the table parsed from the raw base, and the snapshot is overwritten
      when the write succeeds;
    - when the snapshot loads but lacks [chave], the base is what the text
      parser makes of the snapshot file itself; the raw base is not read
      and the snapshot stays on disk. *)
Theorem ensure_base_loaded_broken_snapshot (U : UnicodeTables) (w : World)
    (f : CsvFile) :
  DF_BASE w = None ->
  base_csv (disk w) = Some f ->
  (forall raw dfb,
      (exists e, csv_frame f = Raises e)
      \/ ((exists d0, csv_frame f = Ok d0 /\ chave ∉ columns d0)
          /\ exists e, parse_txt_to_df U (disk w) (Path BASE_CSV) = Raises e) ->
      base_txt (disk w) = Some raw ->
      parse_txt_to_df U (disk w) (Path BASE_TXT) = Ok dfb ->
      ensure_base_loaded U w
      = ({| DF_BASE := Some dfb; DF_MATCH := DF_MATCH w;
            disk := save_snapshot (disk w) dfb |}, Ok tt)
      /\ (forall f', csv_write (disk w) dfb = Some f' ->
                     base_csv (save_snapshot (disk w) dfb) = Some f'))
  /\ (forall d0 d,
      csv_frame f = Ok d0 -> chave ∉ columns d0 ->
      parse_txt_to_df U (disk w) (Path BASE_CSV) = Ok d ->
      ensure_base_loaded U w = (set_DF_BASE w d, Ok tt)
      /\ disk (fst (ensure_base_loaded U w)) = disk w).
Proof.
  intros Hnone Hcsv. split.
  - intros raw dfb Hbroken Htxt Hparse.
    assert (Hload : load_snapshot U (disk w) = Ok None).
    { unfold load_snapshot. rewrite Hcsv.
      destruct Hbroken as [[e He]|[(d0 & Hd0 & Hno) [e He]]].
      - by rewrite He.
      - rewrite Hd0, bool_decide_false, He by done. done. }
    split.
    + unfold ensure_base_loaded. by rewrite Hnone, Hload, Htxt, Hparse.
    + intros f' Hw. unfold save_snapshot. by rewrite Hw.
  - intros d0 d Hd0 Hno Hparse.
    assert (Hload : load_snapshot U (disk w) = Ok (Some d)).
    { unfold load_snapshot. rewrite Hcsv, Hd0, bool_decide_false, Hparse by done.
      done. }
    assert (E : ensure_base_loaded U w = (set_DF_BASE w d, Ok tt)).
    { unfold ensure_base_loaded. by rewrite Hnone, Hload. }
    split; [done|]. by rewrite E.
Qed.

Lemma ensure_base_loaded_broken_snapshot_witness :
  ensure_base_loaded sample_tables example_start
  = (set_DF_BASE example_start
       (frame_of (parse_txt_to_df sample_tables example_disk (Path BASE_CSV))),
     Ok tt)
  /\ ensure_base_loaded sample_tables example_start_unreadable
     = ({| DF_BASE := Some example_base; DF_MATCH := None;
           disk := save_snapshot example_disk_unreadable example_base |}, Ok tt).
Proof.
  split.
  - assert (H1 : DF_BASE example_start = None) by reflexivity.
    assert (H2 : base_csv (disk example_start)
                 = Some example_snapshot_without_chave) by reflexivity.
    destruct (ensure_base_loaded_broken_snapshot sample_tables example_start
                example_snapshot_without_chave H1 H2) as [_ Hb].
    refine (proj1 (Hb {| columns := [Remetente; EnderecoOrigem; CEPOrigem];
                         rows := [[Str (lit "ACME LTDA"); Str (lit "Rua A 10");
                                   Str (lit "01001-000")]] |}
                      _ _ _ _)).
    + reflexivity.
    + vm_compute. intros H.
      by repeat (apply elem_of_cons in H as [H|H]; [|]);
        try by apply elem_of_nil in H.
    + vm_compute; reflexivity.
  - assert (H1 : DF_BASE example_start_unreadable = None) by reflexivity.
    assert (H2 : base_csv (disk example_start_unreadable)
                 = Some {| csv_bytes := [];
                           csv_frame :=
                             Raises (ValueError
                                       (lit "No columns to parse from file")) |})
      by reflexivity.
    destruct (ensure_base_loaded_broken_snapshot sample_tables
                example_start_unreadable _ H1 H2) as [Ha _].
    refine (proj1 (Ha example_base_txt example_base _ _ _)).
    + left. by eexists.
    + reflexivity.
    + vm_compute; reflexivity.
Defined.

(** C6 at its failing input.  With a raw base on disk and a snapshot that
    loads but lacks [chave], the base is not the table of the raw base: the
    code hands the snapshot file to the text parser (its header line is one
    token, so the table has one column and the key of the record is
    "ACME||"), and the snapshot is still on disk.  The sibling path, for a
    snapshot that fails to load, does rebuild the base from the raw
    base. *)
Lemma snapshot_without_chave_not_rebuilt :
  let w := fst (ensure_base_loaded sample_tables example_start) in
  parse_txt_to_df sample_tables example_disk (Path BASE_TXT) = Ok example_base
  /\ DF_BASE w <> Some example_base
  /\ DF_BASE w
     = Some (frame_of (parse_txt_to_df sample_tables example_disk (Path BASE_CSV)))
  /\ chaves <$> DF_BASE w = Some [lit "ACME||"]
  /\ base_csv (disk w) = Some example_snapshot_without_chave
  /\ DF_BASE (fst (ensure_base_loaded sample_tables example_start_unreadable))
     = Some example_base.
Proof. by vm_compute. Qed.

(** ** The parser, step by step *)

Lemma traverse_length {A B} (f : A -> outcome B) l v :
  traverse f l = Ok v -> length v = length l.
Proof.
  revert v. induction l as [|x l IH]; intros v; cbn.
  - by intros [= <-].
  - destruct (f x) as [y| |]; [|done..]. cbn.
    destruct (traverse f l) as [ys| |]; [|done..]. cbn.
    intros [= <-]. cbn. f_equal. by apply IH.
Qed.

Lemma traverse_on_str g (ss : list pystr) :
  traverse (on_str g) (map Str ss) = Ok (map (fun s => Str (g s)) ss).
Proof. induction ss as [|s ss IH]; [done|]. cbn. by rewrite IH. Qed.

Lemma clean_txt_Str c : clean_txt c = Str (py_str (clean_txt c)).
Proof. unfold clean_txt. by destruct (isna c). Qed.

Lemma map_clean_txt vs :
  map clean_txt vs = map Str (map (fun c => py_str (clean_txt c)) vs).
Proof. rewrite map_map. apply map_ext. intros c. apply clean_txt_Str. Qed.

Lemma select_Series_positions df l vs :
  select df l = Series vs -> length (positions l (columns df) 0) = 1%nat.
Proof.
  unfold select.
  by destruct (positions l (columns df) 0) as [|j [|j' js]].
Qed.

Lemma select_Series_elem df l vs : select df l = Series vs -> l ∈ columns df.
Proof.
  intros H. apply select_Series_positions in H.
  destruct (decide (l ∈ columns df)) as [|Hn]; [done|].
  by rewrite (positions_absent l _ 0 Hn) in H.
Qed.

Lemma elem_of_columns_set_col df l l' v :
  l ∈ columns df \/ l = l' -> l ∈ columns (set_col df l' v).
Proof.
  cbn. case_bool_decide as Hin.
  - by intros [?| ->].
  - intros [?| ->]; apply elem_of_app; [by left|right]. by apply list_elem_of_singleton.
Qed.

(** If the column just assigned is read back as a Series, the Series is the
    values assigned. *)
Lemma select_set_col_same_inv df l v vs :
  wf_frame df -> length v = length (rows df) ->
  select (set_col df l v) l = Series vs -> vs = v.
Proof.
  intros Hwf Hlen H.
  assert (Hone : (length (positions l (columns df) 0) <= 1)%nat).
  { apply select_Series_positions in H. cbn [columns set_col] in H.
    case_bool_decide as Hin; [lia|].
    rewrite (positions_absent l _ 0 Hin). cbn. lia. }
  rewrite select_set_col_same in H by done. by injection H.
Qed.

(** One assignment [df[tgt] = df[src].apply(f)] that succeeded. *)
Lemma column_apply_Ok_inv df src (f : cell -> outcome cell) e v :
  column_apply df src f e = Ok v ->
  exists vs, select df src = Series vs /\ traverse f vs = Ok v
             /\ length v = length (rows df).
Proof.
  unfold column_apply. destruct (select df src) as [|vs|n] eqn:E; [done| |].
  - intros H. exists vs. split; [done|]. split; [done|].
    rewrite (traverse_length _ _ _ H). by apply select_Series_length in E.
  - by destruct (rows df).
Qed.

Lemma get_series_Ok_inv df l vs : get_series df l = Ok vs -> select df l = Series vs.
Proof.
  unfold get_series. destruct (select df l); [done| |done]. by intros [= ->].
Qed.

Lemma pad_row_length n cols : length (pad_row n cols) = n.
Proof.
  unfold pad_row. rewrite length_take.
  destruct (Nat.ltb_spec (length cols) n).
  - rewrite length_app, repeat_length. lia.
  - lia.
Qed.

Lemma wf_ensure_column df need : wf_frame df -> wf_frame (ensure_column df need).
Proof.
  intros H. unfold ensure_column. case_bool_decide; [done|].
  by apply wf_set_col.
Qed.

(** The key column of three columns of strings. *)
Lemma traverse_key_cell (f g h : pystr -> pystr) (a b c : list pystr) :
  length a = length c -> length b = length c ->
  traverse key_cell
    (zip (zip (map (fun s => Str (f s)) a) (map (fun s => Str (g s)) b))
         (map (fun s => Str (h s)) c))
  = Ok (map (fun rec : pystr * pystr * pystr =>
               Str (join_key (f rec.1.1) (g rec.1.2) (h rec.2)))
          (zip (zip a b) c)).
Proof.
  revert b c. induction a as [|x a IH]; intros [|y b] [|z c] Ha Hb; try done.
  cbn in *. rewrite IH by lia. done.
Qed.

Lemma length_zip3 {A B C} (a : list A) (b : list B) (c : list C) :
  length a = length c -> length b = length c ->
  length (zip (zip a b) c) = length c.
Proof. intros Ha Hb. rewrite !length_zip_with. lia. Qed.

Lemma wf_built (f : pystr -> pystr) (header : list pystr) (ls : list pystr) :
  wf_frame
    (rename_columns f
       {| columns := header;
          rows := map (map Str)
                    (map (fun l => pad_row (length header) (split_linha l)) ls) |}).
Proof.
  unfold wf_frame. cbn. rewrite length_map.
  apply List.Forall_forall. intros r Hr.
  apply in_map_iff in Hr as (r' & <- & Hr).
  apply in_map_iff in Hr as (l & <- & _).
  by rewrite length_map, pad_row_length.
Qed.

(** What a successful parse of at least one line leaves in the frame: the
    three cleaned fields of every row, their normalised forms, and (when
    [chave] names one column) the keys joined from them. *)
Lemma parse_lines_fields U linhas df :
  linhas <> [] -> parse_lines U linhas = Ok df ->
  wf_frame df
  /\ exists rem ende cep : list pystr,
      length rem = length (rows df)
      /\ length ende = length (rows df)
      /\ length cep = length (rows df)
      /\ select df Remetente = Series (map Str rem)
      /\ select df EnderecoOrigem = Series (map Str ende)
      /\ select df CEPOrigem = Series (map Str cep)
      /\ select df remetente_norm = Series (map (fun s => Str (norm_text U s)) rem)
      /\ select df endereco_norm = Series (map (fun s => Str (norm_text U s)) ende)
      /\ select df cep_norm = Series (map (fun s => Str (norm_cep U s)) cep)
      /\ chave ∈ columns df
      /\ forall ks, select df chave = Series ks ->
           ks = map (fun rec : pystr * pystr * pystr =>
                       Str (join_key (norm_text U rec.1.1) (norm_text U rec.1.2)
                              (norm_cep U rec.2)))
                  (zip (zip rem ende) cep).
Proof.
  intros Hne H. destruct linhas as [|l0 ls]; [done|]. clear Hne.
  unfold parse_lines in H. cbv zeta in H.
  set (idx := encontrar_linha_cabecalho U (l0 :: ls)) in *.
  set (header := split_linha (nth idx (l0 :: ls) [])) in *.
  set (df0 := fold_left ensure_column [Remetente; EnderecoOrigem; CEPOrigem] _) in *.
  assert (W0 : wf_frame df0).
  { subst df0. cbn [fold_left]. do 3 apply wf_ensure_column. apply wf_built. }
  (* the three cleaning assignments *)
  bind_inv H v1 H1. apply column_apply_Ok_inv in H1 as (vs1 & S1 & T1 & L1).
  rewrite traverse_Ok_map in T1. injection T1 as <-.
  set (rem := map (fun c => py_str (clean_txt c)) vs1) in *.
  rewrite map_clean_txt in *. fold rem in H, L1.
  set (df1 := set_col df0 Remetente (map Str rem)) in *.
  assert (W1 : wf_frame df1) by by apply wf_set_col.
  assert (R1 : length (rows df1) = length (rows df0))
    by by apply length_rows_set_col.
  assert (A1 : select df1 Remetente = Series (map Str rem)).
  { apply select_set_col_same; [done..|].
    by rewrite (select_Series_positions _ _ _ S1). }
  bind_inv H v2 H2. apply column_apply_Ok_inv in H2 as (vs2 & S2 & T2 & L2).
  rewrite traverse_Ok_map in T2. injection T2 as <-.
  set (ende := map (fun c => py_str (clean_txt c)) vs2) in *.
  rewrite map_clean_txt in *. fold ende in H, L2.
  set (df2 := set_col df1 EnderecoOrigem (map Str ende)) in *.
  assert (W2 : wf_frame df2) by by apply wf_set_col.
  assert (R2 : length (rows df2) = length (rows df1))
    by by apply length_rows_set_col.
  assert (A2 : select df2 Remetente = Series (map Str rem)).
  { subst df2. rewrite select_set_col_other; [done|label_ne|done..]. }
  assert (B2 : select df2 EnderecoOrigem = Series (map Str ende)).
  { apply select_set_col_same; [done..|].
    by rewrite (select_Series_positions _ _ _ S2). }
  bind_inv H v3 H3. apply column_apply_Ok_inv in H3 as (vs3 & S3 & T3 & L3).
  rewrite traverse_Ok_map in T3. injection T3 as <-.
  set (cep := map (fun c => py_str (clean_txt c)) vs3) in *.
  rewrite map_clean_txt in *. fold cep in H, L3.
  set (df3 := set_col df2 CEPOrigem (map Str cep)) in *.
  assert (W3 : wf_frame df3) by by apply wf_set_col.
  assert (R3 : length (rows df3) = length (rows df2))
    by by apply length_rows_set_col.
  assert (A3 : select df3 Remetente = Series (map Str rem)).
  { subst df3. rewrite select_set_col_other; [done|label_ne|done..]. }
  assert (B3 : select df3 EnderecoOrigem = Series (map Str ende)).
  { subst df3. rewrite select_set_col_other; [done|label_ne|done..]. }
  assert (C3 : select df3 CEPOrigem = Series (map Str cep)).
  { apply select_set_col_same; [done..|].
    by rewrite (select_Series_positions _ _ _ S3). }
  (* the three normalising assignments *)
  bind_inv H v4 H4. apply column_apply_Ok_inv in H4 as (vs4 & S4 & T4 & L4).
  rewrite A3 in S4. injection S4 as <-.
  rewrite traverse_on_str in T4. injection T4 as <-.
  set (rn := map (fun s => Str (norm_text U s)) rem) in *.
  set (df4 := set_col df3 remetente_norm rn) in *.
  assert (W4 : wf_frame df4) by by apply wf_set_col.
  assert (R4 : length (rows df4) = length (rows df3))
    by by apply length_rows_set_col.
  assert (A4 : select df4 Remetente = Series (map Str rem)).
  { subst df4. rewrite select_set_col_other; [done|label_ne|done..]. }
  assert (B4 : select df4 EnderecoOrigem = Series (map Str ende)).
  { subst df4. rewrite select_set_col_other; [done|label_ne|done..]. }
  assert (C4 : select df4 CEPOrigem = Series (map Str cep)).
  { subst df4. rewrite select_set_col_other; [done|label_ne|done..]. }
  bind_inv H v5 H5. apply column_apply_Ok_inv in H5 as (vs5 & S5 & T5 & L5).
  rewrite B4 in S5. injection S5 as <-.
  rewrite traverse_on_str in T5. injection T5 as <-.
  set (en := map (fun s => Str (norm_text U s)) ende) in *.
  set (df5 := set_col df4 endereco_norm en) in *.
  assert (W5 : wf_frame df5) by by apply wf_set_col.
  assert (R5 : length (rows df5) = length (rows df4))
    by by apply length_rows_set_col.
  assert (A5 : select df5 Remetente = Series (map Str rem)).
  { subst df5. rewrite select_set_col_other; [done|label_ne|done..]. }
  assert (B5 : select df5 EnderecoOrigem = Series (map Str ende)).
  { subst df5. rewrite select_set_col_other; [done|label_ne|done..]. }
  assert (C5 : select df5 CEPOrigem = Series (map Str cep)).
  { subst df5. rewrite select_set_col_other; [done|label_ne|done..]. }
  bind_inv H v6 H6. rewrite C5 in H6. injection H6 as <-.
  rewrite map_map in H. cbn [py_str] in H.
  set (cn := map (fun s => Str (norm_cep U s)) cep) in *.
  assert (L6 : length cn = length (rows df5)).
  { subst cn. rewrite length_map. rewrite length_map in L3. lia. }
  set (df6 := set_col df5 cep_norm cn) in *.
  assert (W6 : wf_frame df6) by by apply wf_set_col.
  assert (R6 : length (rows df6) = length (rows df5))
    by by apply length_rows_set_col.
  assert (A6 : select df6 Remetente = Series (map Str rem)).
  { subst df6. rewrite select_set_col_other; [done|label_ne|done..]. }
  assert (B6 : select df6 EnderecoOrigem = Series (map Str ende)).
  { subst df6. rewrite select_set_col_other; [done|label_ne|done..]. }
  assert (C6 : select df6 CEPOrigem = Series (map Str cep)).
  { subst df6. rewrite select_set_col_other; [done|label_ne|done..]. }
  (* the three columns read for the key *)
  bind_inv H a Ha. apply get_series_Ok_inv in Ha.
  assert (Ea : a = rn).
  { pose proof Ha as Ha'. subst df6 df5.
    rewrite select_set_col_other in Ha'; [|label_ne|done..].
    rewrite select_set_col_other in Ha'; [|label_ne|done..].
    by apply select_set_col_same_inv in Ha'. }
  subst a.
  bind_inv H b Hb. apply get_series_Ok_inv in Hb.
  assert (Eb : b = en).
  { pose proof Hb as Hb'. subst df6.
    rewrite select_set_col_other in Hb'; [|label_ne|done..].
    by apply select_set_col_same_inv in Hb'. }
  subst b.
  bind_inv H c Hc. apply get_series_Ok_inv in Hc.
  assert (Ec : c = cn)
    by (pose proof Hc as Hc'; by apply select_set_col_same_inv in Hc').
  subst c.
  bind_inv H k Hk. injection H as <-.
  assert (Lrem : length rem = length cep)
    by (rewrite !length_map in *; lia).
  assert (Lend : length ende = length cep)
    by (rewrite !length_map in *; lia).
  subst rn en cn. rewrite traverse_key_cell in Hk by done.
  injection Hk as <-.
  set (keys := map _ (zip (zip rem ende) cep)) in *.
  assert (Lk : length keys = length (rows df6)).
  { subst keys. rewrite length_map, length_zip3 by done.
    rewrite length_map in L3. lia. }
  rewrite length_map in L1, L2, L3.
  split; [by apply wf_set_col|].
  exists rem, ende, cep.
  rewrite (length_rows_set_col df6 chave keys Lk).
  split; [lia|]. split; [lia|]. split; [lia|].
  rewrite !(select_set_col_other df6 _ chave) by (done || label_ne).
  split; [done|]. split; [done|]. split; [done|].
  split; [done|]. split; [done|]. split; [done|].
  split.
  { apply elem_of_columns_set_col. by right. }
  intros ks Hks. by apply select_set_col_same_inv in Hks.
Qed.

Lemma parse_txt_to_df_lines U fs src df :
  parse_txt_to_df U fs src = Ok df ->
  exists linhas, parse_lines U linhas = Ok df.
Proof.
  unfold parse_txt_to_df. intros H. bind_inv H raw Hraw. by eexists.
Qed.

(** A parsed table has one cell per column in every row. *)
Lemma parse_txt_to_df_wf U fs src df :
  parse_txt_to_df U fs src = Ok df -> wf_frame df.
Proof.
  intros H. apply parse_txt_to_df_lines in H as (linhas & H).
  destruct linhas as [|l ls].
  - injection H as <-. constructor.
  - by apply parse_lines_fields in H as [? _].
Qed.

(** A parsed table of at least one line has the three fields, their
    normalised forms and the key. *)
Lemma parse_lines_columns U linhas df :
  linhas <> [] -> parse_lines U linhas = Ok df ->
  Forall (fun l => l ∈ columns df)
    [Remetente; EnderecoOrigem; CEPOrigem; remetente_norm; endereco_norm;
     cep_norm; chave].
Proof.
  intros Hne H. apply parse_lines_fields in H as (_ & rem & ende & cep & H);
    [|done].
  destruct H as (_ & _ & _ & H1 & H2 & H3 & H4 & H5 & H6 & H7 & _).
  repeat constructor; try done; by eapply select_Series_elem.
Qed.

Lemma zip3_fst {A B C D} (F : A -> D) (a : list A) (b : list B) (c : list C) :
  length a = length c -> length b = length c ->
  map (fun rec : A * B * C => F rec.1.1) (zip (zip a b) c) = map F a.
Proof.
  revert b c. induction a as [|x a IH]; intros [|y b] [|z c] Ha Hb; try done.
  cbn in *. f_equal. apply IH; lia.
Qed.

Lemma zip3_snd {A B C D} (F : B -> D) (a : list A) (b : list B) (c : list C) :
  length a = length c -> length b = length c ->
  map (fun rec : A * B * C => F rec.1.2) (zip (zip a b) c) = map F b.
Proof.
  revert b c. induction a as [|x a IH]; intros [|y b] [|z c] Ha Hb; try done.
  cbn in *. f_equal. apply IH; lia.
Qed.

Lemma zip3_trd {A B C D} (F : C -> D) (a : list A) (b : list B) (c : list C) :
  length a = length c -> length b = length c ->
  map (fun rec : A * B * C => F rec.2) (zip (zip a b) c) = map F c.
Proof.
  revert b c. induction a as [|x a IH]; intros [|y b] [|z c] Ha Hb; try done.
  cbn in *. f_equal. apply IH; lia.
Qed.

(** C8. In a parsed table whose [chave] is one column, there is for every
    row a triple of normalised fields (sender, address, postal code) such
    that the columns [remetente_norm], [endereco_norm] and [cep_norm] hold
    the fields and [chave] holds their join; no field contains a pipe, every
    key contains exactly two, and two keys are equal iff the triples are
    equal (empty fields included). *)
Theorem chave_unambiguous (U : UnicodeTables) (fs : FileSystem) (src : source)
    (df : DataFrame) (ks : list cell) :
  parse_txt_to_df U fs src = Ok df ->
  select df chave = Series ks ->
  exists fields : list (pystr * pystr * pystr),
    select df remetente_norm = Series (map (fun f => Str f.1.1) fields)
    /\ select df endereco_norm = Series (map (fun f => Str f.1.2) fields)
    /\ select df cep_norm = Series (map (fun f => Str f.2) fields)
    /\ ks = map (fun f => Str (join_key f.1.1 f.1.2 f.2)) fields
    /\ Forall (fun f => ~ In PIPE f.1.1 /\ ~ In PIPE f.1.2 /\ ~ In PIPE f.2
                        /\ count_occ N.eq_dec (join_key f.1.1 f.1.2 f.2) PIPE
                           = 2%nat) fields
    /\ forall f g, In f fields -> In g fields ->
         (join_key f.1.1 f.1.2 f.2 = join_key g.1.1 g.1.2 g.2 <-> f = g).
Proof.
  intros Hparse Hks. apply parse_txt_to_df_lines in Hparse as (linhas & H).
  destruct linhas as [|l ls]; [by injection H as <-|].
  apply parse_lines_fields in H as (_ & rem & ende & cep & H); [|done].
  destruct H as (L1 & L2 & L3 & _ & _ & _ & Hr & He & Hc & _ & Hk).
  specialize (Hk ks Hks).
  assert (La : length rem = length cep) by lia.
  assert (Lb : length ende = length cep) by lia.
  set (norm := fun rec : pystr * pystr * pystr =>
                 (norm_text U rec.1.1, norm_text U rec.1.2, norm_cep U rec.2)).
  exists (map norm (zip (zip rem ende) cep)).
  assert (Hfields : forall f, In f (map norm (zip (zip rem ende) cep)) ->
            ~ In PIPE f.1.1 /\ ~ In PIPE f.1.2 /\ ~ In PIPE f.2).
  { intros f Hf. apply in_map_iff in Hf as (rec & <- & _). cbn.
    auto using norm_text_no_pipe, norm_cep_no_pipe. }
  rewrite !map_map. cbn [norm fst snd].
  split; [by rewrite (zip3_fst (fun s => Str (norm_text U s)))|].
  split; [by rewrite (zip3_snd (fun s => Str (norm_text U s)))|].
  split; [by rewrite (zip3_trd (fun s => Str (norm_cep U s)))|].
  split; [done|]. split.
  - apply List.Forall_forall. intros f Hf.
    destruct (Hfields f Hf) as (Ha & Hb & Hd).
    repeat split; [done..|]. by apply join_key_pipes.
  - intros f g Hf Hg. split; [|by intros ->].
    destruct (Hfields f Hf) as (Ha & Hb & _).
    destruct (Hfields g Hg) as (Ha' & Hb' & _).
    intros E. apply join_key_injective in E as (E1 & E2 & E3); [|done..].
    destruct f as [[f1 f2] f3], g as [[g1 g2] g3]. cbn in *. by subst.
Qed.

Lemma chave_unambiguous_witness :
  exists fields : list (pystr * pystr * pystr),
    select example_daily chave
    = Series (map (fun f => Str (join_key f.1.1 f.1.2 f.2)) fields)
    /\ forall f g, In f fields -> In g fields ->
         (join_key f.1.1 f.1.2 f.2 = join_key g.1.1 g.1.2 g.2 <-> f = g).
Proof.
  assert (H1 : parse_txt_to_df sample_tables no_files (Bytes example_daily_txt)
               = Ok example_daily) by (vm_compute; reflexivity).
  assert (H2 : select example_daily chave
               = Series (map (cell_at example_daily chave) (rows example_daily)))
    by (vm_compute; reflexivity).
  destruct (chave_unambiguous sample_tables no_files _ _ _ H1 H2)
    as (fields & _ & _ & _ & Hk & _ & Hinj).
  exists fields. split; [|exact Hinj]. rewrite <- Hk. exact H2.
Defined.

(** ** Further properties of the table builder, the header locator and the
    matcher *)

(** Row padding.  A data row is brought to the header's column count: a
    shorter row is padded on the right with empty strings, a longer one is
    cut, and no row is dropped. *)
Theorem pad_row_spec (n : nat) (cols : list pystr) :
  length (pad_row n cols) = n
  /\ ((length cols <= n)%nat -> pad_row n cols = cols ++ repeat [] (n - length cols))
  /\ ((n <= length cols)%nat -> pad_row n cols = take n cols).
Proof.
  split; [apply pad_row_length|]. unfold pad_row. split; intros H.
  - destruct (Nat.ltb_spec (length cols) n) as [L|L].
    + apply take_ge. rewrite length_app, repeat_length. lia.
    + replace (n - length cols)%nat with 0%nat by lia. cbn.
      rewrite app_nil_r. apply take_ge. lia.
  - by destruct (Nat.ltb_spec (length cols) n) as [L|L]; [lia|].
Qed.

Lemma find_index_Some {A} (p : A -> bool) (l : list A) i :
  find_index p l = Some i ->
  (exists x, l !! i = Some x /\ p x = true)
  /\ forall j y, l !! j = Some y -> p y = true -> (i <= j)%nat.
Proof.
  revert i. induction l as [|x r IH]; intros i; [done|].
  cbn. destruct (p x) eqn:Hx.
  - intros [= <-]. split; [by exists x|]. intros; lia.
  - destruct (find_index p r) as [i'|]; [|done]. cbn. intros [= <-].
    destruct (IH i' eq_refl) as [Hi Hmin]. split; [done|].
    intros [|j] y Hj Hy; cbn in Hj.
    + injection Hj as ->. congruence.
    + specialize (Hmin j y Hj Hy). lia.
Qed.

Lemma find_index_None {A} (p : A -> bool) (l : list A) :
  find_index p l = None -> forall x, In x l -> p x = false.
Proof.
  induction l as [|x r IH]; [done|]. cbn. destruct (p x) eqn:Hx; [done|].
  destruct (find_index p r); [done|]. intros _ y [<-|Hy]; [done|]. by apply IH.
Qed.

(** Header location.  The locator returns the index of the first line that
    has the three markers, and 0 when no line has them; for the lines "foo",
    "Remetente  Endereço Origem  CEP Origem", "Acme  Rua X  01001000" it
    returns 1. *)
Theorem encontrar_linha_cabecalho_first (U : UnicodeTables)
    (linhas : list pystr) :
  let i := encontrar_linha_cabecalho U linhas in
  (forall j l, linhas !! j = Some l -> is_header_line U l = true ->
     (i <= j)%nat
     /\ exists l', linhas !! i = Some l' /\ is_header_line U l' = true)
  /\ ((forall l, In l linhas -> is_header_line U l = false) -> i = 0%nat)
  /\ encontrar_linha_cabecalho sample_tables
       [lit "foo";
        lit "Remetente  Endere" ++ [C_CEDILLA] ++ lit "o Origem  CEP Origem";
        lit "Acme  Rua X  01001000"]
     = 1%nat.
Proof.
  cbv zeta. unfold encontrar_linha_cabecalho. split; [|split; [|by vm_compute]].
  - intros j l Hj Hl.
    destruct (find_index (is_header_line U) linhas) as [i|] eqn:E.
    + apply find_index_Some in E as [Hi Hmin]. cbn. split; [|done].
      by apply (Hmin j l).
    + apply find_index_None with (x := l) in E; [congruence|].
      apply list_elem_of_In. by eapply list_elem_of_lookup_2.
  - intros Hnone.
    destruct (find_index (is_header_line U) linhas) as [i|] eqn:E; [|done].
    apply find_index_Some in E as [(x & Hx & Hp) _].
    rewrite Hnone in Hp; [done|].
    apply list_elem_of_In. by eapply list_elem_of_lookup_2.
Qed.

(** Empty base.  Against a base without rows the matcher returns no row,
    whatever the daily table holds; this is the case of the table that
    [ensure_base_loaded] builds when neither file exists. *)
Theorem df_repetidos_empty_base (base df_dia : DataFrame) (dk : list cell) :
  select base chave = Series [] ->
  wf_frame df_dia ->
  select df_dia chave = Series dk ->
  (length (positions is_repetido (columns df_dia) 0) <= 1)%nat ->
  exists res, df_repetidos base df_dia = Ok res /\ rows res = [].
Proof.
  intros Hb Hwf Hd Hone.
  set (flags := map (fun _ : cell => Bool false) dk).
  assert (Hlen : length flags = length (rows df_dia)).
  { subst flags. rewrite length_map. by apply select_Series_length in Hd. }
  assert (Hsel : select (set_col df_dia is_repetido flags) is_repetido
                 = Series flags) by by apply select_set_col_same.
  exists (mask_index (set_col df_dia is_repetido flags) flags). split.
  - unfold df_repetidos. rewrite Hb, bind_Ok.
    rewrite (column_apply_Series _ _ dk) by done. rewrite bind_Ok.
    replace (map _ dk) with flags.
    + by rewrite (get_series_Series _ _ flags Hsel), bind_Ok.
    + subst flags. apply map_ext. intros k. f_equal. by destruct k.
  - rewrite rows_mask_index. cbn [rows filter_rows set_col]. subst flags.
    generalize (rows df_dia) as rs. clear.
    induction dk as [|k dk IH]; intros [|r rs]; try done.
    cbn [map zip_with List.filter snd]. rewrite bool_decide_false by done.
    apply IH.
Qed.

Lemma df_repetidos_empty_base_witness :
  exists res, df_repetidos empty_base example_daily = Ok res /\ rows res = [].
Proof.
  apply (df_repetidos_empty_base empty_base example_daily
           (map (cell_at example_daily chave) (rows example_daily))).
  - vm_compute; reflexivity.
  - unfold wf_frame; vm_compute; repeat constructor.
  - vm_compute; reflexivity.
  - vm_compute; lia.
Defined.

(** ** The examples do not depend on the tables

    The inputs of the examples above are ASCII texts, on which the
    character tables are never consulted: what was computed with
    [sample_tables] holds for every choice of tables. *)

Lemma norm_cep_nine_digits_any_tables (U : UnicodeTables) :
  norm_cep U (lit "123456789") = lit "123456789".
Proof. by vm_compute. Qed.

Lemma norm_text_full_stop_any_tables (U : UnicodeTables) :
  norm_text U (lit "a.") = lit "A " /\ norm_text U (lit "A ") = lit "A".
Proof. by vm_compute. Qed.

Lemma snapshot_without_chave_any_tables (U : UnicodeTables) :
  chaves <$> DF_BASE (fst (ensure_base_loaded U example_start))
  = Some [lit "ACME||"]
  /\ chaves <$> Some (frame_of (parse_txt_to_df U example_disk (Path BASE_TXT)))
     = Some [lit "ACME LTDA|RUA A 10|01001000"].
Proof. by vm_compute. Qed.

Lemma two_senders_any_tables (U : UnicodeTables) (fs : FileSystem) :
  parse_txt_to_df U fs (Bytes example_two_senders_txt)
  = Raises series_truth_ambiguous.
Proof. by vm_compute. Qed.

(* ================================================================== *)
(** * Further properties *)
(* ================================================================== *)

(** ** The byte decoder, from text to bytes and back *)

Lemma mapM_of_N_values (ns : list N) (b : bytes) :
  mapM Byte.of_N ns = Some b -> map Byte.to_N b = ns.
Proof.
  intros H. apply mapM_Some in H.
  induction H as [|n x ns b Hx _ IH]; [done|].
  cbn. f_equal; [by apply Byte.to_of_N | done].
Qed.

(** The decoder reads back one encoded character. *)
Lemma utf8_scan_encoded (c : N) (ns : list N) (bs rest : bytes) :
  utf8_encode_char c = Some ns -> map Byte.to_N bs = ns ->
  utf8_scan (bs ++ rest) = inl c :: utf8_scan rest.
Proof.
  unfold utf8_encode_char. intros Hc Hbs.
  destruct (N.ltb_spec c 0x80) as [L1|L1].
  { injection Hc as <-. destruct bs as [|b0 [|? ?]]; try done.
    injection Hbs as E0. cbn [app utf8_scan]. cbv zeta. rewrite E0.
    by destruct (N.ltb_spec c 0x80); [|lia]. }
  destruct (N.ltb_spec c 0x800) as [L2|L2].
  { injection Hc as <-. destruct bs as [|b0 [|b1 [|? ?]]]; try done.
    injection Hbs as E0 E1. cbn [app utf8_scan]. cbv zeta.
    unfold is_continuation, tail6, in_range. rewrite E0, E1.
    destruct (N.ltb_spec (0xC0 + c / 64) 0x80); [lia|].
    destruct (N.ltb_spec (0xC0 + c / 64) 0xC2); [lia|].
    destruct (N.ltb_spec (0xC0 + c / 64) 0xE0); [|lia].
    destruct (N.leb_spec 0x80 (0x80 + c mod 64)); [|lia].
    destruct (N.leb_spec (0x80 + c mod 64) 0xBF); [|lia].
    cbn [andb]. do 2 f_equal. lia. }
  destruct (N.ltb_spec c 0x10000) as [L3|L3].
  { destruct (in_range 0xD800 0xDFFF c) eqn:Hs; [done|].
    assert (Hsur : c < 0xD800 \/ 0xDFFF < c)
      by (unfold in_range in Hs; apply andb_false_iff in Hs as [Hs|Hs];
          [apply N.leb_gt in Hs|apply N.leb_gt in Hs]; lia).
    injection Hc as <-. destruct bs as [|b0 [|b1 [|b2 [|? ?]]]]; try done.
    injection Hbs as E0 E1 E2. cbn [app utf8_scan]. cbv zeta.
    unfold second_of_3, is_continuation, tail6, in_range. rewrite E0, E1, E2.
    compare_all; cbn [andb]; do 2 f_equal; lia. }
  destruct (N.ltb_spec c 0x110000) as [L4|L4]; [|done].
  injection Hc as <-. destruct bs as [|b0 [|b1 [|b2 [|b3 [|? ?]]]]]; try done.
  injection Hbs as E0 E1 E2 E3. cbn [app utf8_scan]. cbv zeta.
  unfold second_of_4, is_continuation, tail6, in_range. rewrite E0, E1, E2, E3.
  compare_all; cbn [andb]; do 2 f_equal; lia.
Qed.

Lemma utf8_collect_encoded (s : pystr) : forall (bss : list (list N)) (b : bytes),
  mapM utf8_encode_char s = Some bss -> map Byte.to_N b = concat bss ->
  utf8_collect Strict (utf8_scan b) = Some s.
Proof.
  induction s as [|c s IH]; intros bss b Hm Hb.
  - injection Hm as <-. by destruct b.
  - apply mapM_Some in Hm. inversion Hm as [|? ns ? bss' Hc Hrest]; subst.
    apply mapM_Some in Hrest. cbn [concat] in Hb.
    apply map_eq_app in Hb as (b1 & b2 & -> & Hb1 & Hb2).
    rewrite (utf8_scan_encoded c ns b1 b2 Hc Hb1). cbn [utf8_collect].
    by rewrite (IH bss' b2 Hrest Hb2).
Qed.

(** Reading UTF-8.  A text that can be encoded as UTF-8 (no surrogate, no
    value above U+10FFFF) is what [try_decode_bytes] returns for its
    encoding, and the branch taken is the utf-8 attempt. *)
Theorem try_decode_bytes_reads_utf8 (s : pystr) (b : bytes) :
  encode utf_8 s = Some b ->
  try_decode_bytes b = s
  /\ snd (try_decode_bytes_by b default_encodings) = ByEncoding utf_8.
Proof.
  unfold encode. intros H.
  destruct (mapM utf8_encode_char s) as [bss|] eqn:Hm; [|done]. cbn in H.
  apply mapM_of_N_values in H.
  pose proof (utf8_collect_encoded s bss b Hm H) as Hd.
  unfold try_decode_bytes, try_decode_bytes_by, default_encodings.
  cbn [first_decoding decode]. unfold utf8_decode. by rewrite Hd.
Qed.

Lemma try_decode_bytes_reads_utf8_witness :
  try_decode_bytes [x45; xc3; xa7; xe2; x82; xac] = [0x45; C_CEDILLA; 0x20AC]
  /\ snd (try_decode_bytes_by [x45; xc3; xa7; xe2; x82; xac] default_encodings)
     = ByEncoding utf_8.
Proof.
  apply (try_decode_bytes_reads_utf8 [0x45; C_CEDILLA; 0x20AC]).
  vm_compute. reflexivity.
Defined.

(** ** The byte decoder with any list of encodings *)
Lemma utf8_collect_Ignore_total items : is_Some (utf8_collect Ignore items).
Proof.
  induction items as [|[c|e] items [s Hs]]; cbn; [by eexists| |by eexists].
  rewrite Hs. by eexists.
Qed.

Lemma first_decoding_Some b encodings s enc :
  first_decoding b encodings = Some (s, enc) ->
  exists pre post,
    encodings = pre ++ enc :: post
    /\ Forall (fun e => decode e b = None) pre
    /\ decode enc b = Some s.
Proof.
  induction encodings as [|e rest IH]; [done|]. cbn.
  destruct (decode e b) as [s'|] eqn:E.
  - intros [= <- <-]. by exists [], rest.
  - intros H. apply IH in H as (pre & post & -> & Hpre & Hd).
    exists (e :: pre), post. split; [done|]. split; [by constructor|done].
Qed.

Lemma first_decoding_None b encodings :
  first_decoding b encodings = None ->
  Forall (fun enc => decode enc b = None) encodings.
Proof.
  induction encodings as [|e rest IH]; [constructor|]. cbn.
  destruct (decode e b) as [s'|] eqn:E; [done|]. intros H. constructor; auto.
Qed.

(** Any list of encodings.  The text returned is the decoding by an
    encoding of the list that accepts the bytes (the first one that does);
    when none accepts them it is the utf-8 decoding that drops what cannot be
    decoded, which always exists.  With latin-1 in the list the last resort
    is never reached.  With utf-8 alone, the bytes 61 FF 62 give "ab". *)
Theorem try_decode_bytes_by_any_encodings (b : bytes) (encodings : list encoding) :
  let r := try_decode_bytes_by b encodings in
  (forall enc, snd r = ByEncoding enc ->
     exists pre post,
       encodings = pre ++ enc :: post
       /\ Forall (fun e => decode e b = None) pre
       /\ decode enc b = Some (fst r))
  /\ (snd r = LastResort ->
      Forall (fun enc => decode enc b = None) encodings
      /\ utf8_decode Ignore b = Some (fst r))
  /\ (In latin_1 encodings -> snd r <> LastResort)
  /\ try_decode_bytes_by [x61; xff; x62] [utf_8] = (lit "ab", LastResort).
Proof.
  cbv zeta. unfold try_decode_bytes_by.
  destruct (first_decoding b encodings) as [[s enc]|] eqn:E; cbn [fst snd].
  - apply first_decoding_Some in E. split; [|by repeat split].
    by intros enc' [= <-].
  - apply first_decoding_None in E. split; [done|]. split; [|split; [|done]].
    + intros _. split; [done|].
      destruct (utf8_collect_Ignore_total (utf8_scan b)) as [s Hs].
      unfold utf8_decode. by rewrite Hs.
    + intros Hin _. rewrite List.Forall_forall in E. by specialize (E _ Hin).
Qed.

(** ** The lines of a text *)

Lemma line_segments_no_linebreak n : forall s, (length s <= n)%nat ->
  Forall no_linebreak (line_segments s).
Proof.
  induction n as [|n IH]; intros s Hn.
  - destruct s; [|cbn in Hn; lia]. repeat constructor.
  - destruct s as [|c r]; [repeat constructor|].
    cbn in Hn. cbn [line_segments].
    destruct (is_linebreak c) eqn:Hc.
    + constructor; [constructor|].
      destruct r as [|d r']; [apply IH; cbn; lia|].
      destruct ((c =? CR) && (d =? LF)); apply IH; cbn in *; lia.
    + assert (H : Forall no_linebreak (line_segments r)) by (apply IH; lia).
      destruct (line_segments r) as [|l ls]; [repeat constructor; done|].
      inversion H; subst. constructor; [by constructor|done].
Qed.

Lemma removelast_Forall {A} (P : A -> Prop) l : Forall P l -> Forall P (removelast l).
Proof.
  induction 1 as [|x l Hx Hl IH]; [constructor|].
  cbn. destruct l; [constructor|]. by constructor.
Qed.

Lemma splitlines_no_linebreak s : Forall no_linebreak (splitlines s).
Proof.
  unfold splitlines.
  pose proof (line_segments_no_linebreak (length s) s (le_n _)) as H.
  destruct (last (line_segments s)) as [[|? ?]|]; try done.
  by apply removelast_Forall.
Qed.

Lemma rstrip_chars_no_linebreak l :
  no_linebreak l -> rstrip_chars [LF; CR] l = l.
Proof.
  intros H. unfold rstrip_chars. rewrite dropwhile_fixed; [apply rev_involutive|].
  destruct (rev l) as [|x r] eqn:E; [done|].
  assert (Hx : In x l) by (apply in_rev; rewrite E; by left).
  unfold no_linebreak in H. rewrite List.Forall_forall in H. specialize (H x Hx).
  cbn. destruct (N.eqb_spec x LF) as [->|]; [done|].
  destruct (N.eqb_spec x CR) as [->|]; [done|]. done.
Qed.

Lemma non_blank_lines_filter text :
  non_blank_lines text
  = List.filter (fun l => negb (bool_decide (strip l = []))) (splitlines text).
Proof.
  unfold non_blank_lines.
  pose proof (splitlines_no_linebreak text) as H.
  induction H as [|l ls Hl _ IH]; [done|].
  cbn [List.filter]. destruct (negb _); [|done].
  cbn [map]. by rewrite rstrip_chars_no_linebreak, IH.
Qed.

(** The lines kept.  The lines that [parse_txt_to_df] works on are the
    lines of [splitlines] that are not blank, as they are: none contains a
    line boundary (so [rstrip] with the two characters removes nothing) and
    none is empty or made of whitespace only.  The boundaries are those of
    [str.splitlines]: a form feed inside a record cuts it in two. *)
Theorem non_blank_lines_spec (text : pystr) :
  non_blank_lines text
  = List.filter (fun l => negb (bool_decide (strip l = []))) (splitlines text)
  /\ Forall (fun l => strip l <> [] /\ Forall (fun c => is_linebreak c = false) l)
       (non_blank_lines text)
  /\ non_blank_lines (lit "a" ++ [12] ++ lit "b") = [lit "a"; lit "b"].
Proof.
  split; [apply non_blank_lines_filter|]. split; [|by vm_compute].
  rewrite non_blank_lines_filter. apply List.Forall_forall. intros l Hl.
  apply List.filter_In in Hl as [Hin Hl]. split.
  - apply negb_true_iff in Hl. by apply bool_decide_eq_false in Hl.
  - pose proof (splitlines_no_linebreak text) as H.
    rewrite List.Forall_forall in H. by apply H.
Qed.

(** A line, its terminator and what follows; after a lone CR the rest must
    not begin with LF. *)
Lemma line_segments_line l sep rest :
  no_linebreak l -> newline sep ->
  (sep = [CR] -> starts_in (N.eqb LF) rest = false) ->
  line_segments (l ++ sep ++ rest) = l :: line_segments rest.
Proof.
  intros Hl Hsep Hrest. induction Hl as [|c l Hc _ IH].
  - destruct Hsep as [->|[->| ->]]; cbn [app line_segments].
    + change (is_linebreak LF) with true. cbv iota.
      change (LF =? CR) with false. cbn [andb]. by destruct rest.
    + change (is_linebreak CR) with true. cbv iota.
      by rewrite !N.eqb_refl.
    + change (is_linebreak CR) with true. cbv iota.
      destruct rest as [|d rest']; [done|]. specialize (Hrest eq_refl).
      unfold starts_in in Hrest. rewrite N.eqb_sym in Hrest.
      by rewrite Hrest, andb_false_r.
  - cbn [app line_segments]. rewrite Hc, IH. done.
Qed.

Lemma line_segments_one l : no_linebreak l -> line_segments l = [l].
Proof.
  induction 1 as [|c l Hc _ IH]; [done|]. cbn [line_segments]. by rewrite Hc, IH.
Qed.

Lemma join_lines_start sep ls tail :
  sep = [CR] -> Forall no_linebreak ls ->
  starts_in (N.eqb LF) tail = false ->
  starts_in (N.eqb LF) (join_lines sep ls ++ tail) = false.
Proof.
  intros -> Hls Htail. destruct Hls as [|l ls Hl _]; [done|].
  unfold join_lines. cbn [map concat]. rewrite <- !app_assoc.
  destruct Hl as [|c l Hc _]; [reflexivity|]. cbn [app starts_in].
  destruct (N.eqb_spec LF c) as [<-|]; done.
Qed.

Lemma line_segments_join sep ls tail :
  newline sep -> Forall no_linebreak ls ->
  starts_in (N.eqb LF) tail = false ->
  line_segments (join_lines sep ls ++ tail) = ls ++ line_segments tail.
Proof.
  intros Hsep Hls Htail. induction Hls as [|l ls Hl Hls IH]; [done|].
  unfold join_lines in *. cbn [map concat]. rewrite <- !app_assoc.
  rewrite line_segments_line; [by rewrite IH|done..|].
  intros E. by apply join_lines_start.
Qed.

(** Line endings.  Lines without a line boundary, each followed by LF, by
    CR LF or by CR, are read back as they are, with or without a terminator
    after the last one; the lines kept are the non-blank ones, whatever the
    terminator. *)
Theorem non_blank_lines_line_endings (ls : list pystr) (sep : pystr) :
  Forall (Forall (fun c => is_linebreak c = false)) ls ->
  sep = [LF] \/ sep = [CR; LF] \/ sep = [CR] ->
  let keep := List.filter (fun l => negb (bool_decide (strip l = []))) in
  splitlines (join_lines sep ls) = ls
  /\ non_blank_lines (join_lines sep ls) = keep ls
  /\ forall l, l <> [] -> Forall (fun c => is_linebreak c = false) l ->
       splitlines (join_lines sep ls ++ l) = ls ++ [l]
       /\ non_blank_lines (join_lines sep ls ++ l) = keep (ls ++ [l]).
Proof.
  intros Hls Hsep keep.
  assert (E1 : splitlines (join_lines sep ls) = ls).
  { unfold splitlines.
    rewrite <- (app_nil_r (join_lines sep ls)), line_segments_join by done.
    cbn [line_segments]. rewrite last_snoc. apply removelast_last. }
  assert (E2 : forall l, l <> [] -> no_linebreak l ->
                 splitlines (join_lines sep ls ++ l) = ls ++ [l]).
  { intros l Hne Hl. unfold splitlines. rewrite line_segments_join; [|done..|].
    - rewrite (line_segments_one l Hl), last_snoc. by destruct l.
    - destruct Hl as [|c l Hc _]; [done|]. cbn [starts_in].
      by destruct (N.eqb_spec LF c) as [<-|]. }
  split; [done|]. split.
  - by rewrite non_blank_lines_filter, E1.
  - intros l Hne Hl. split; [by apply E2|].
    by rewrite non_blank_lines_filter, E2.
Qed.

Lemma non_blank_lines_line_endings_witness :
  non_blank_lines (join_lines [CR; LF] [lit "a"; lit " "; lit "b"])
  = List.filter (fun l => negb (bool_decide (strip l = [])))
      [lit "a"; lit " "; lit "b"].
Proof.
  refine (proj1 (proj2 (non_blank_lines_line_endings
                          [lit "a"; lit " "; lit "b"] [CR; LF] _ _))).
  - repeat constructor.
  - right. left. reflexivity.
Defined.

(** ** Joining and splitting fields *)

Section Fields.
Context (p : N -> bool) (k : nat) (Hk : (0 < k)%nat).

Lemma starts_in_join d f rest :
  f <> [] -> starts_in p f = false ->
  starts_in p (join_with d (f :: rest)) = false.
Proof using Type.
  intros Hne Hs. destruct f as [|c f']; [done|]. by destruct rest.
Qed.

Lemma SplitAt_join d fields :
  forallb p d = true -> (k <= length d)%nat -> fields <> [] ->
  Forall (plain_field p k) fields ->
  SplitAt p k (join_with d fields) fields.
Proof using Type.
  intros Hd Hl Hne Hf. induction Hf as [|f rest (Hf1 & Hf2 & Hf3 & Hf4) Hrest IH];
    [done|].
  destruct rest as [|f' rest']; [by apply SplitAt_last|].
  change (join_with d (f :: f' :: rest'))
    with (f ++ d ++ join_with d (f' :: rest')).
  apply SplitAt_cons; try done.
  - inversion Hrest as [|? ? (? & ? & ? & ?) ?]; subst. by apply starts_in_join.
  - by apply IH.
Qed.

Lemma re_split_join d fields :
  forallb p d = true -> (k <= length d)%nat -> fields <> [] ->
  Forall (plain_field p k) fields ->
  re_split p k (join_with d fields) = fields.
Proof using Hk.
  intros Hd Hl Hne Hf. symmetry. apply (re_split_unique p k Hk).
  by apply SplitAt_join.
Qed.

(** Of the tokens of a text that does not begin with a delimiter the first
    is not empty when another follows it. *)
Lemma SplitAt_first s t t' toks :
  SplitAt p k s (t :: t' :: toks) -> starts_in p s = false -> t <> [].
Proof using Hk.
  intros H Hs ->. inversion H as [|t0 d s' toks' _ _ Hd Hl _ _ E]; subst.
  cbn [app] in Hs. destruct d as [|c d']; [cbn in Hl; lia|].
  cbn in Hs, Hd. by rewrite Hs in Hd.
Qed.

(** Only the first and the last token can be empty. *)
Lemma SplitAt_inner s toks :
  SplitAt p k s toks ->
  forall i t, (0 < i)%nat -> (S i < length toks)%nat -> toks !! i = Some t ->
  t <> [].
Proof using Hk.
  induction 1 as [t Ht|t d s toks Ht He Hd Hl Hs Hrest IH]; intros i x Hi Hlen Hx.
  - cbn in Hlen. lia.
  - destruct i as [|i]; [lia|]. cbn in Hx, Hlen.
    destruct i as [|i].
    + destruct toks as [|t1 [|t2 toks']]; [done|cbn in Hlen; lia|].
      injection Hx as <-. by eapply SplitAt_first.
    + apply (IH (S i) x); [lia|lia|done].
Qed.

Lemma SplitAt_not_nil s toks : SplitAt p k s toks -> toks <> [].
Proof using Type. by destruct 1. Qed.

Lemma has_run_no_class s :
  Forall (fun c => p c = false) s -> has_run p k s = false.
Proof using Hk.
  induction 1 as [|c r Hc _ IH].
  - destruct k; [lia|done].
  - cbn. rewrite IH, orb_false_r. destruct k; [lia|]. cbn. by rewrite Hc.
Qed.

End Fields.

Lemma not_In_TAB f : ~ In TAB f <-> Forall (fun c => istab c = false) f.
Proof.
  rewrite List.Forall_forall. unfold istab. split.
  - intros H c Hc. apply N.eqb_neq. by intros ->.
  - intros H Hin. specialize (H _ Hin). by rewrite N.eqb_refl in H.
Qed.

Lemma existsb_istab_false linha : existsb istab linha = false <-> ~ In TAB linha.
Proof.
  rewrite <- existsb_istab. by destruct (existsb istab linha).
Qed.

Lemma starts_in_no_class (p : N -> bool) s :
  Forall (fun c => p c = false) s -> starts_in p s = false.
Proof. by destruct 1. Qed.

Lemma ends_in_no_class (p : N -> bool) s :
  Forall (fun c => p c = false) s -> ends_in p s = false.
Proof.
  intros H. unfold ends_in. destruct (last s) as [c|] eqn:E; [|done].
  apply last_Some in E as [l' ->]. apply Forall_app in H as [_ H].
  by inversion H.
Qed.

Lemma In_join_with (c : N) d fields :
  In c (join_with d fields) -> In c d \/ exists f, In f fields /\ In c f.
Proof.
  induction fields as [|f rest IH]; [done|].
  destruct rest as [|f' rest'].
  - intros H. right. exists f. split; [by left|done].
  - change (join_with d (f :: f' :: rest'))
      with (f ++ d ++ join_with d (f' :: rest')).
    rewrite !in_app_iff. intros [H|[H|H]].
    + right. exists f. split; [by left|done].
    + by left.
    + apply IH in H as [H|(g & Hg & H)]; [by left|].
      right. exists g. split; [by right|done].
Qed.

Lemma In_join_with_sep (c : N) d f f' rest :
  In c d -> In c (join_with d (f :: f' :: rest)).
Proof.
  intros H. change (join_with d (f :: f' :: rest))
    with (f ++ d ++ join_with d (f' :: rest)).
  rewrite !in_app_iff. auto.
Qed.

(** Fields without a character of the class, joined by one character, have
    no two characters of the class in a row. *)
Lemma has_run_single (p : N -> bool) d fields :
  length d = 1%nat ->
  Forall (fun f => f <> [] /\ Forall (fun c => p c = false) f) fields ->
  has_run p 2 (join_with d fields) = false.
Proof.
  intros Hd Hf. induction Hf as [|f rest [Hne Hf] Hrest IH]; [done|].
  destruct rest as [|f' rest']; [apply has_run_no_class; [lia|done]|].
  change (join_with d (f :: f' :: rest'))
    with (f ++ d ++ join_with d (f' :: rest')).
  apply has_run_app;
    [apply has_run_no_class; [lia|done] | by apply ends_in_no_class |].
  destruct d as [|c [|? ?]]; try done. cbn [app has_run run_at].
  rewrite IH, orb_false_r.
  inversion Hrest as [|? ? [Hne' Hf'] _]; subst.
  destruct f' as [|x f'']; [done|]. inversion Hf'; subst.
  assert (E : join_with [c] ((x :: f'') :: rest')
              = x :: match rest' with
                     | [] => f''
                     | _ => f'' ++ [c] ++ join_with [c] rest'
                     end) by (by destruct rest').
  rewrite E. cbn [run_at]. by rewrite H1, andb_false_r.
Qed.

(** Joining and splitting.  Two or more fields, none empty, joined by a
    delimiter, are what [split_linha] returns for the joined line: with
    tabs as the delimiter when no field contains a tab; with two or more
    whitespace characters when no field contains a tab, begins or ends with
    whitespace or contains two whitespace characters in a row; with one
    whitespace character when no field contains whitespace at all. *)
Theorem split_linha_join (fields : list pystr) (d : pystr) :
  (2 <= length fields)%nat -> Forall (fun f => f <> []) fields -> d <> [] ->
  (forallb istab d = true -> Forall (fun f => ~ In TAB f) fields ->
   split_linha (join_with d fields) = fields)
  /\ (forallb isspace d = true -> ~ In TAB d -> (2 <= length d)%nat ->
      Forall (fun f => ~ In TAB f /\ has_run isspace 2 f = false
                       /\ starts_in isspace f = false
                       /\ ends_in isspace f = false) fields ->
      split_linha (join_with d fields) = fields)
  /\ (forallb isspace d = true -> ~ In TAB d -> length d = 1%nat ->
      Forall (Forall (fun c => isspace c = false)) fields ->
      split_linha (join_with d fields) = fields).
Proof.
  intros Hlen Hne Hd.
  assert (Hfs : fields <> []) by (destruct fields; [cbn in Hlen; lia|done]).
  assert (Hsep : forall c, In c d -> In c (join_with d fields)).
  { intros c Hc. destruct fields as [|f [|f' rest]]; try (cbn in Hlen; lia).
    by apply In_join_with_sep. }
  split; [|split].
  - intros Htab Hf. unfold split_linha.
    assert (E : existsb istab (join_with d fields) = true).
    { apply existsb_istab. apply Hsep. destruct d as [|c d']; [done|].
      cbn in Htab. apply andb_true_iff in Htab as [Hc _].
      apply N.eqb_eq in Hc as ->. by left. }
    rewrite E. apply re_split_join; [lia|done|destruct d; [done|cbn; lia]|done|].
    apply List.Forall_forall. intros f Hin.
    rewrite List.Forall_forall in Hne, Hf.
    specialize (Hne f Hin). specialize (Hf f Hin). apply not_In_TAB in Hf.
    split; [done|]. split; [apply has_run_no_class; [lia|done]|].
    split; [by apply starts_in_no_class|by apply ends_in_no_class].
  - intros Hsp Hnt Hl Hf. unfold split_linha.
    assert (E : existsb istab (join_with d fields) = false).
    { apply existsb_istab_false. intros H.
      apply In_join_with in H as [H|(f & Hin & H)]; [done|].
      rewrite List.Forall_forall in Hf. by destruct (Hf f Hin) as [? _]. }
    rewrite E.
    assert (E2 : re_split isspace 2 (join_with d fields) = fields).
    { apply re_split_join; [lia|done..|].
      apply List.Forall_forall. intros f Hin.
      rewrite List.Forall_forall in Hne, Hf.
      specialize (Hne f Hin). destruct (Hf f Hin) as (_ & ? & ? & ?).
      by repeat split. }
    rewrite E2. by destruct (Nat.eqb_spec (length fields) 1); [lia|].
  - intros Hsp Hnt Hl Hf. unfold split_linha.
    assert (Hws : forall f, In f fields -> Forall (fun c => isspace c = false) f).
    { by apply List.Forall_forall. }
    assert (E : existsb istab (join_with d fields) = false).
    { apply existsb_istab_false. intros H.
      apply In_join_with in H as [H|(f & Hin & H)]; [done|].
      specialize (Hws f Hin). rewrite List.Forall_forall in Hws.
      by specialize (Hws _ H). }
    rewrite E.
    assert (E2 : re_split isspace 2 (join_with d fields) = [join_with d fields]).
    { symmetry. apply (re_split_unique isspace 2); [lia|].
      apply SplitAt_last, has_run_single; [done|].
      apply List.Forall_forall. intros f Hin. split; [|by apply Hws].
      rewrite List.Forall_forall in Hne. by apply Hne. }
    rewrite E2. cbn [length Nat.eqb].
    apply re_split_join; [lia|done|lia|done|].
    apply List.Forall_forall. intros f Hin.
    rewrite List.Forall_forall in Hne. specialize (Hne f Hin).
    specialize (Hws f Hin).
    split; [done|]. split; [apply has_run_no_class; [lia|done]|].
    split; [by apply starts_in_no_class|by apply ends_in_no_class].
Qed.

Lemma split_linha_SplitAt linha :
  exists p k, (0 < k)%nat /\ SplitAt p k linha (split_linha linha).
Proof.
  unfold split_linha. destruct (existsb istab linha).
  - exists istab, 1%nat. split; [lia|]. apply re_split_spec. lia.
  - destruct (length (re_split isspace 2 linha) =? 1)%nat.
    + exists isspace, 1%nat. split; [lia|]. apply re_split_spec. lia.
    + exists isspace, 2%nat. split; [lia|]. apply re_split_spec. lia.
Qed.

(** The tokens of a line.  [split_linha] returns at least one token.  Only
    the first and the last token can be empty (a delimiter at an end of the
    line), so a run of tabs between two fields does not make an empty field:
    "a", two tabs, "c" gives two tokens.  A line without whitespace is one
    token. *)
Theorem split_linha_tokens (linha : pystr) :
  split_linha linha <> []
  /\ (forall i t, (0 < i)%nat -> (S i < length (split_linha linha))%nat ->
        split_linha linha !! i = Some t -> t <> [])
  /\ (Forall (fun c => isspace c = false) linha -> split_linha linha = [linha])
  /\ split_linha (lit "a" ++ [TAB; TAB] ++ lit "c") = [lit "a"; lit "c"]
  /\ split_linha ([TAB] ++ lit "a") = [[]; lit "a"].
Proof.
  destruct (split_linha_SplitAt linha) as (p & k & Hk & H).
  split; [by eapply SplitAt_not_nil|].
  split; [by apply (SplitAt_inner p k Hk linha)|].
  split; [|by vm_compute].
  intros Hws. unfold split_linha.
  assert (E : existsb istab linha = false).
  { apply existsb_istab_false. intros Hin.
    rewrite List.Forall_forall in Hws. by specialize (Hws _ Hin). }
  rewrite E.
  assert (E2 : forall k, (0 < k)%nat -> re_split isspace k linha = [linha]).
  { intros k' Hk'. symmetry. apply (re_split_unique isspace k' Hk').
    by apply SplitAt_last, has_run_no_class. }
  rewrite !E2 by lia. done.
Qed.

Lemma split_linha_join_witness :
  split_linha (join_with [TAB] [lit "ACME LTDA"; lit "Rua A, 10"; lit "01001-000"])
  = [lit "ACME LTDA"; lit "Rua A, 10"; lit "01001-000"].
Proof.
  refine (proj1 (split_linha_join
                   [lit "ACME LTDA"; lit "Rua A, 10"; lit "01001-000"] [TAB]
                   _ _ _) _ _).
  - cbn. lia.
  - repeat constructor; discriminate.
  - discriminate.
  - reflexivity.
  - repeat constructor; absent.
Defined.

(** ** Cleaning and normalising, further *)
Lemma collapse_from_only_space b s :
  Forall (fun c => isspace c = true -> c = SPACE) (collapse_from b s).
Proof.
  revert b. induction s as [|c r IH]; intros b; [constructor|].
  cbn. destruct (isspace c) eqn:E.
  - destruct b; [apply IH|]. constructor; [done|apply IH].
  - constructor; [congruence|apply IH].
Qed.

Lemma replace_char_absent a b s : ~ In a s -> replace_char a b s = s.
Proof.
  intros H. unfold replace_char. induction s as [|c r IH]; [done|].
  cbn. destruct (N.eqb_spec c a) as [->|].
  - exfalso. apply H. by left.
  - f_equal. apply IH. intros Hin. apply H. by right.
Qed.

Lemma replace_char_gone a b s : a <> b -> ~ In a (replace_char a b s).
Proof.
  intros Hne H. unfold replace_char in H. apply in_map_iff in H as (c & E & _).
  destruct (N.eqb_spec c a); congruence.
Qed.

(** Cleaning.  [clean_txt] returns a string that has no underscore and no
    whitespace but single spaces, and that is empty for a missing value.  It
    strips before it replaces underscores, so the result can begin or end
    with a space ("_a_" gives " a "); cleaning it again only strips it. *)
Theorem clean_txt_spec (c : cell) :
  exists s,
    clean_txt c = Str s
    /\ ~ In UNDERSCORE s
    /\ Forall (fun x => isspace x = true -> x = SPACE) s
    /\ spaced false s = true
    /\ clean_txt (Str s) = Str (strip s)
    /\ (c = NaN -> s = [])
    /\ clean_txt (Str (lit "  ACME__LTDA ")) = Str (lit "ACME LTDA")
    /\ clean_txt (Str (lit "_a_")) = Str (lit " a ").
Proof.
  assert (H : forall x,
    let s := collapse_ws (replace_char UNDERSCORE SPACE (strip x)) in
    ~ In UNDERSCORE s
    /\ Forall (fun x => isspace x = true -> x = SPACE) s
    /\ spaced false s = true
    /\ clean_txt (Str s) = Str (strip s)).
  { intros x s.
    assert (H1 : ~ In UNDERSCORE s).
    { intros Hin.
      assert (HF : Forall (fun c => c <> UNDERSCORE) s).
      { apply collapse_from_Forall; [done|]. apply List.Forall_forall.
        intros y Hy ->. by apply replace_char_gone in Hy. }
      rewrite List.Forall_forall in HF. by apply (HF _ Hin). }
    assert (H2 : Forall (fun x => isspace x = true -> x = SPACE) s)
      by apply collapse_from_only_space.
    assert (H3 : spaced false s = true) by apply collapse_from_spaced.
    repeat split; try done.
    unfold clean_txt. cbn [isna py_str]. f_equal.
    rewrite replace_char_absent.
    - apply collapse_from_fixed; [by apply strip_spaced|by apply strip_Forall].
    - intros Hin. apply H1. destruct (strip_infix s) as (a & b & E).
      rewrite E, !in_app_iff. auto. }
  destruct c as [x|b|].
  - exists (collapse_ws (replace_char UNDERSCORE SPACE (strip x))).
    destruct (H x) as (? & ? & ? & ?). repeat split; try done.
  - exists (collapse_ws (replace_char UNDERSCORE SPACE (strip (py_str (Bool b))))).
    destruct (H (py_str (Bool b))) as (? & ? & ? & ?). repeat split; try done.
  - exists []. repeat split; try done. by intros [].
Qed.

(** The alphabet of normalised text.  When [unidecode] returns ASCII text,
    a normalised text is made of capital letters, digits, underscores and
    single spaces only. *)
Theorem norm_text_alphabet (U : UnicodeTables) (x : pystr) :
  ascii_transliteration U ->
  Forall (fun c => settled c = true) (norm_text U x)
  /\ spaced false (norm_text U x) = true.
Proof.
  intros HU. split; [by apply norm_text_settled|apply norm_text_spaced].
Qed.

Lemma lower_from_ascii U before s :
  Forall (fun c => is_ascii c = true) s ->
  lower_from U before s = map ascii_lower_char s.
Proof.
  intros H. revert before. induction H as [|c r Hc _ IH]; intros before; [done|].
  cbn [lower_from map]. by rewrite Hc, IH.
Qed.

Lemma upper_ascii U s :
  Forall (fun c => is_ascii c = true) s ->
  upper U s = map (fun c => if ascii_lower_letter c then c - 32 else c) s.
Proof.
  induction 1 as [|c r Hc _ IH]; [done|].
  unfold upper in *. cbn [flat_map map]. unfold upper_char at 1.
  by rewrite Hc, IH.
Qed.

Lemma upper_chars_ascii U s :
  Forall (fun c => is_ascii c = true) s ->
  Forall (fun c => is_ascii c = true) (upper U s).
Proof.
  intros H. rewrite (upper_ascii U s H). apply Forall_map.
  eapply Forall_impl; [exact H|]. cbn. intros c Hc.
  destruct (ascii_lower_letter c) eqn:E; [|done].
  clear H. char_facts. lia.
Qed.

Lemma lower_chars_ascii U s :
  Forall (fun c => is_ascii c = true) s ->
  Forall (fun c => is_ascii c = true) (lower U s).
Proof.
  intros H. unfold lower. rewrite (lower_from_ascii U [] s H). apply Forall_map.
  eapply Forall_impl; [exact H|]. cbn. intros c Hc. unfold ascii_lower_char.
  destruct (ascii_upper_letter c) eqn:E; [|done].
  clear H. char_facts. lia.
Qed.

Lemma upper_lower_ascii U s :
  Forall (fun c => is_ascii c = true) s -> upper U (lower U s) = upper U s.
Proof.
  intros H. rewrite (upper_ascii U (lower U s)) by by apply lower_chars_ascii.
  rewrite (upper_ascii U s H). unfold lower. rewrite (lower_from_ascii U [] s H).
  rewrite map_map. apply map_ext_in. intros c Hc.
  rewrite List.Forall_forall in H. specialize (H c Hc). unfold ascii_lower_char.
  destruct (ascii_upper_letter c) eqn:E1, (ascii_lower_letter c) eqn:E2.
  - exfalso. char_facts. lia.
  - assert (E3 : ascii_lower_letter (c + 32) = true) by (char_facts; lia).
    rewrite E3. lia.
  - done.
  - done.
Qed.

Lemma upper_upper_ascii U s :
  Forall (fun c => is_ascii c = true) s -> upper U (upper U s) = upper U s.
Proof.
  intros H. rewrite (upper_ascii U (upper U s)) by by apply upper_chars_ascii.
  rewrite (upper_ascii U s H), map_map. apply map_ext_in. intros c Hc.
  destruct (ascii_lower_letter c) eqn:E.
  - assert (E3 : ascii_lower_letter (c - 32) = false) by (char_facts; lia).
    by rewrite E3.
  - by rewrite E.
Qed.

(** Case.  On ASCII text the normalisation does not depend on case: the
    text in lower case and the text in upper case are normalised as the text
    itself. *)
Theorem norm_text_ignores_case (U : UnicodeTables) (s : pystr) :
  Forall (fun c => is_ascii c = true) s ->
  norm_text U (lower U s) = norm_text U s
  /\ norm_text U (upper U s) = norm_text U s.
Proof.
  intros H. unfold norm_text.
  rewrite (unidecode_ascii U s H).
  rewrite (unidecode_ascii U (lower U s)) by by apply lower_chars_ascii.
  rewrite (unidecode_ascii U (upper U s)) by by apply upper_chars_ascii.
  by rewrite upper_lower_ascii, upper_upper_ascii.
Qed.

(** Postal codes written differently.  The normalised postal code depends
    only on the digits of the text and, up to eight digits, not on zeros in
    front of them: "1001-000", "1001000" and "01001000" are normalised
    alike. *)
Theorem norm_cep_leading_zeros (U : UnicodeTables) (s : pystr) (d : pystr)
    (n : nat) :
  only_digits U s = d -> d <> [] -> (n + length d <= 8)%nat ->
  norm_cep U s = norm_cep U d
  /\ norm_cep U (repeat ZERO n ++ d) = norm_cep U d.
Proof.
  intros Hs Hne Hlen.
  assert (Hd : Forall (fun c => isdigit U c = true) d)
    by (rewrite <- Hs; apply only_digits_Forall).
  assert (Hdd : only_digits U d = d) by by apply only_digits_fixed.
  assert (Hz : Forall (fun c => isdigit U c = true) (repeat ZERO n ++ d)).
  { apply Forall_app. split; [|done]. apply List.Forall_forall.
    intros x Hx. apply repeat_spec in Hx as ->. apply isdigit_ZERO. }
  assert (Hzz : only_digits U (repeat ZERO n ++ d) = repeat ZERO n ++ d)
    by by apply only_digits_fixed.
  split.
  - rewrite !norm_cep_digits by (rewrite ?Hs, ?Hdd; done). by rewrite Hs, Hdd.
  - rewrite !norm_cep_digits; rewrite ?Hzz, ?Hdd; try done.
    + rewrite length_app, repeat_length, app_assoc, <- repeat_app.
      f_equal. f_equal. lia.
    + by destruct (repeat ZERO n), d.
Qed.

Lemma norm_text_alphabet_witness :
  Forall (fun c => settled c = true) (norm_text sample_tables (lit "Rua A, 10"))
  /\ spaced false (norm_text sample_tables (lit "Rua A, 10")) = true.
Proof. exact (norm_text_alphabet sample_tables (lit "Rua A, 10") sample_tables_ascii). Defined.

Lemma norm_text_ignores_case_witness :
  norm_text sample_tables (lower sample_tables (lit "Acme Ltda"))
  = norm_text sample_tables (lit "Acme Ltda")
  /\ norm_text sample_tables (upper sample_tables (lit "Acme Ltda"))
     = norm_text sample_tables (lit "Acme Ltda").
Proof.
  apply (norm_text_ignores_case sample_tables (lit "Acme Ltda")).
  repeat constructor.
Defined.

Lemma norm_cep_leading_zeros_witness :
  norm_cep sample_tables (lit "1001-000") = norm_cep sample_tables (lit "1001000")
  /\ norm_cep sample_tables (repeat ZERO 1 ++ lit "1001000")
     = norm_cep sample_tables (lit "1001000").
Proof.
  apply (norm_cep_leading_zeros sample_tables (lit "1001-000") (lit "1001000") 1).
  - vm_compute. reflexivity.
  - discriminate.
  - cbn. lia.
Defined.

(** ** The parser, from the lines to the records *)

Lemma parse_lines_cons U l ls :
  parse_lines U (l :: ls)
  = let idx := encontrar_linha_cabecalho U (l :: ls) in
    normalise_columns U
      (built_frame U (split_linha (nth idx (l :: ls) [])) (drop (S idx) (l :: ls))).
Proof. reflexivity. Qed.

(** One assignment to a frame. *)
Lemma set_col_step df l v :
  wf_frame df -> length v = length (rows df) ->
  (length (positions l (columns df) 0) <= 1)%nat ->
  wf_frame (set_col df l v)
  /\ length (rows (set_col df l v)) = length (rows df)
  /\ select (set_col df l v) l = Series v
  /\ forall l', l' <> l -> select (set_col df l v) l' = select df l'.
Proof.
  intros Hwf Hlen Hone. split; [by apply wf_set_col|].
  split; [by apply length_rows_set_col|].
  split; [by apply select_set_col_same|].
  intros l' Hne. by apply select_set_col_other.
Qed.

Lemma columns_set_col_present df l v :
  l ∈ columns df -> columns (set_col df l v) = columns df.
Proof. intros H. cbn. by rewrite bool_decide_true. Qed.

Lemma columns_set_col_absent df l v :
  l ∉ columns df -> columns (set_col df l v) = columns df ++ [l].
Proof. intros H. cbn. by rewrite bool_decide_false. Qed.

Lemma positions_le_1_absent l cols : l ∉ cols -> (length (positions l cols 0) <= 1)%nat.
Proof. intros H. rewrite (positions_absent l cols 0 H). cbn. lia. Qed.

Lemma not_elem_of_app_singleton (l l' : pystr) cols :
  l ∉ cols -> l <> l' -> l ∉ cols ++ [l'].
Proof.
  intros H Hne Hin. apply elem_of_app in Hin as [?|Hin]; [done|].
  by apply list_elem_of_singleton in Hin.
Qed.

Lemma column_apply_on_str df l ss (g : pystr -> pystr) e :
  select df l = Series (map Str ss) ->
  column_apply df l (on_str g) e = Ok (map (fun s => Str (g s)) ss).
Proof. intros H. unfold column_apply. rewrite H. apply traverse_on_str. Qed.

Lemma normalise_columns_Ok U df r0 e0 c0 :
  wf_frame df ->
  select df Remetente = Series r0 ->
  select df EnderecoOrigem = Series e0 ->
  select df CEPOrigem = Series c0 ->
  remetente_norm ∉ columns df -> endereco_norm ∉ columns df ->
  cep_norm ∉ columns df -> chave ∉ columns df ->
  let rem := map (fun c => py_str (clean_txt c)) r0 in
  let ende := map (fun c => py_str (clean_txt c)) e0 in
  let cep := map (fun c => py_str (clean_txt c)) c0 in
  exists df',
    normalise_columns U df = Ok df'
    /\ wf_frame df'
    /\ length (rows df') = length (rows df)
    /\ columns df' = columns df ++ [remetente_norm; endereco_norm; cep_norm; chave]
    /\ select df' Remetente = Series (map Str rem)
    /\ select df' EnderecoOrigem = Series (map Str ende)
    /\ select df' CEPOrigem = Series (map Str cep)
    /\ select df' chave
       = Series (map (fun rec : pystr * pystr * pystr =>
                        Str (join_key (norm_text U rec.1.1) (norm_text U rec.1.2)
                               (norm_cep U rec.2)))
                   (zip (zip rem ende) cep)).
Proof.
  intros W0 SR SE SC N1 N2 N3 N4 rem ende cep.
  pose proof (select_Series_length _ _ _ SR) as LR.
  pose proof (select_Series_length _ _ _ SE) as LE.
  pose proof (select_Series_length _ _ _ SC) as LC.
  pose proof (select_Series_elem _ _ _ SR) as IR.
  pose proof (select_Series_elem _ _ _ SE) as IE.
  pose proof (select_Series_elem _ _ _ SC) as IC.
  assert (Lrem : length rem = length (rows df)) by (subst rem; by rewrite length_map).
  assert (Lend : length ende = length (rows df)) by (subst ende; by rewrite length_map).
  assert (Lcep : length cep = length (rows df)) by (subst cep; by rewrite length_map).
  (* the frames after each assignment *)
  set (df1 := set_col df Remetente (map Str rem)).
  destruct (set_col_step df Remetente (map Str rem) W0) as (W1 & R1 & A1 & O1);
    [by rewrite length_map | by rewrite (select_Series_positions _ _ _ SR) |].
  fold df1 in W1, R1, A1, O1.
  assert (K1 : columns df1 = columns df) by by apply columns_set_col_present.
  set (df2 := set_col df1 EnderecoOrigem (map Str ende)).
  assert (SE1 : select df1 EnderecoOrigem = Series e0)
    by (rewrite O1; [done|label_ne]).
  destruct (set_col_step df1 EnderecoOrigem (map Str ende) W1) as (W2 & R2 & A2 & O2);
    [rewrite length_map; lia | by rewrite (select_Series_positions _ _ _ SE1) |].
  fold df2 in W2, R2, A2, O2.
  assert (K2 : columns df2 = columns df).
  { unfold df2. rewrite columns_set_col_present; [done|]. by rewrite K1. }
  set (df3 := set_col df2 CEPOrigem (map Str cep)).
  assert (SC2 : select df2 CEPOrigem = Series c0).
  { rewrite O2 by label_ne. rewrite O1 by label_ne. done. }
  destruct (set_col_step df2 CEPOrigem (map Str cep) W2) as (W3 & R3 & A3 & O3);
    [rewrite length_map; lia | by rewrite (select_Series_positions _ _ _ SC2) |].
  fold df3 in W3, R3, A3, O3.
  assert (K3 : columns df3 = columns df).
  { unfold df3. rewrite columns_set_col_present; [done|]. by rewrite K2. }
  assert (SR3 : select df3 Remetente = Series (map Str rem)).
  { rewrite O3 by label_ne. rewrite O2 by label_ne. done. }
  assert (SE3 : select df3 EnderecoOrigem = Series (map Str ende)).
  { rewrite O3 by label_ne. done. }
  set (rn := map (fun s => Str (norm_text U s)) rem).
  set (df4 := set_col df3 remetente_norm rn).
  destruct (set_col_step df3 remetente_norm rn W3) as (W4 & R4 & A4 & O4);
    [subst rn; rewrite length_map; lia
    |apply positions_le_1_absent; by rewrite K3 |].
  fold df4 in W4, R4, A4, O4.
  assert (K4 : columns df4 = columns df ++ [remetente_norm]).
  { unfold df4. rewrite columns_set_col_absent; by rewrite K3. }
  set (en := map (fun s => Str (norm_text U s)) ende).
  set (df5 := set_col df4 endereco_norm en).
  destruct (set_col_step df4 endereco_norm en W4) as (W5 & R5 & A5 & O5);
    [subst en; rewrite length_map; lia
    |apply positions_le_1_absent; rewrite K4;
     apply not_elem_of_app_singleton; [done|label_ne] |].
  fold df5 in W5, R5, A5, O5.
  assert (K5 : columns df5 = columns df ++ [remetente_norm; endereco_norm]).
  { unfold df5. rewrite columns_set_col_absent; rewrite K4.
    - by rewrite <- app_assoc.
    - apply not_elem_of_app_singleton; [done|label_ne]. }
  set (cn := map (fun s => Str (norm_cep U s)) cep).
  set (df6 := set_col df5 cep_norm cn).
  assert (N3' : cep_norm ∉ columns df5).
  { rewrite K5. change [remetente_norm; endereco_norm]
      with ([remetente_norm] ++ [endereco_norm]). rewrite app_assoc.
    apply not_elem_of_app_singleton; [|label_ne].
    apply not_elem_of_app_singleton; [done|label_ne]. }
  destruct (set_col_step df5 cep_norm cn W5) as (W6 & R6 & A6 & O6);
    [subst cn; rewrite length_map; lia | by apply positions_le_1_absent |].
  fold df6 in W6, R6, A6, O6.
  assert (K6 : columns df6 = columns df ++ [remetente_norm; endereco_norm; cep_norm]).
  { unfold df6. rewrite columns_set_col_absent by done. rewrite K5.
    by rewrite <- app_assoc. }
  set (keys := map (fun rec : pystr * pystr * pystr =>
                      Str (join_key (norm_text U rec.1.1) (norm_text U rec.1.2)
                             (norm_cep U rec.2)))
                 (zip (zip rem ende) cep)).
  assert (Lk : length keys = length (rows df6)).
  { subst keys. rewrite length_map, length_zip3 by lia. lia. }
  assert (N4' : chave ∉ columns df6).
  { rewrite K6. change [remetente_norm; endereco_norm; cep_norm]
      with ([remetente_norm] ++ [endereco_norm] ++ [cep_norm]).
    rewrite !app_assoc.
    apply not_elem_of_app_singleton; [|label_ne].
    apply not_elem_of_app_singleton; [|label_ne].
    apply not_elem_of_app_singleton; [done|label_ne]. }
  destruct (set_col_step df6 chave keys W6) as (W7 & R7 & A7 & O7);
    [done | by apply positions_le_1_absent |].
  exists (set_col df6 chave keys).
  split; [|split; [done|split; [lia|split; [|split; [|split; [|split]]]]]].
  - unfold normalise_columns. cbv zeta.
    rewrite (column_apply_Series df Remetente r0) by done.
    rewrite bind_Ok, map_clean_txt. fold rem. fold df1.
    rewrite (column_apply_Series df1 EnderecoOrigem e0) by done.
    rewrite bind_Ok, map_clean_txt. fold ende. fold df2.
    rewrite (column_apply_Series df2 CEPOrigem c0) by done.
    rewrite bind_Ok, map_clean_txt. fold cep. fold df3.
    rewrite (column_apply_on_str df3 Remetente rem) by done.
    rewrite bind_Ok. fold rn. fold df4.
    rewrite (column_apply_on_str df4 EnderecoOrigem ende)
      by (rewrite O4 by label_ne; done).
    rewrite bind_Ok. fold en. fold df5.
    rewrite (O5 CEPOrigem) by label_ne. rewrite (O4 CEPOrigem) by label_ne.
    rewrite A3, bind_Ok, map_map. cbn [py_str]. fold cn. fold df6.
    rewrite (get_series_Series df6 remetente_norm rn), bind_Ok.
    2:{ rewrite O6 by label_ne. rewrite O5 by label_ne. done. }
    rewrite (get_series_Series df6 endereco_norm en), bind_Ok.
    2:{ rewrite O6 by label_ne. done. }
    rewrite (get_series_Series df6 cep_norm cn), bind_Ok by done.
    subst rn en cn. rewrite traverse_key_cell by lia. rewrite bind_Ok.
    reflexivity.
  - rewrite columns_set_col_absent by done. rewrite K6. by rewrite <- app_assoc.
  - rewrite O7 by label_ne. rewrite O6 by label_ne. rewrite O5 by label_ne.
    rewrite O4 by label_ne. done.
  - rewrite O7 by label_ne. rewrite O6 by label_ne. rewrite O5 by label_ne.
    rewrite O4 by label_ne. done.
  - rewrite O7 by label_ne. rewrite O6 by label_ne. rewrite O5 by label_ne.
    rewrite O4 by label_ne. done.
  - done.
Qed.

(** ** The frame built from the lines *)

Lemma repeat_map_const {A B} (x : B) (l : list A) :
  repeat x (length l) = map (fun _ => x) l.
Proof. induction l as [|a l IH]; [done|]. cbn. by rewrite IH. Qed.

Lemma select_present df l : l ∈ columns df -> select df l <> NoColumn.
Proof.
  intros H. unfold select.
  pose proof (positions_present l (columns df) 0 H).
  by destruct (positions l (columns df) 0) as [|j [|j' js]].
Qed.

Lemma select_absent df l : l ∉ columns df -> select df l = NoColumn.
Proof. intros H. unfold select. by rewrite (positions_absent l _ 0 H). Qed.

(** What [if need not in df.columns: df[need] = ''] does to a frame. *)
Lemma ensure_column_facts df need :
  wf_frame df ->
  wf_frame (ensure_column df need)
  /\ length (rows (ensure_column df need)) = length (rows df)
  /\ columns (ensure_column df need)
     = (if bool_decide (need ∈ columns df) then columns df
        else columns df ++ [need])
  /\ (forall l, l <> need -> select (ensure_column df need) l = select df l)
  /\ select (ensure_column df need) need
     = match select df need with
       | NoColumn => Series (map (fun _ => Str []) (rows df))
       | s => s
       end.
Proof.
  intros W. unfold ensure_column. case_bool_decide as Hin.
  - repeat split; try done.
    pose proof (select_present df need Hin). by destruct (select df need).
  - unfold set_col_scalar.
    destruct (set_col_step df need (repeat (Str []) (length (rows df))) W)
      as (W1 & R1 & A1 & O1);
      [by rewrite repeat_length | by apply positions_le_1_absent |].
    repeat split; try done.
    + by apply columns_set_col_absent.
    + by rewrite (select_absent df need Hin), A1, repeat_map_const.
Qed.

Lemma blank_if_missing_rows df df' need :
  select df' need = select df need -> length (rows df') = length (rows df) ->
  blank_if_missing df' need = blank_if_missing df need.
Proof.
  intros E L. unfold blank_if_missing. rewrite E.
  destruct (select df need); [|done..].
  f_equal. by rewrite <- !repeat_map_const, L.
Qed.

Lemma elem_of_app_other (l l' : pystr) cols :
  l <> l' -> l ∈ cols ++ [l'] <-> l ∈ cols.
Proof.
  intros Hne. rewrite elem_of_app, list_elem_of_singleton. tauto.
Qed.

Lemma bool_decide_elem_of_app_other (l l' : pystr) cols :
  l <> l' -> bool_decide (l ∈ cols ++ [l']) = bool_decide (l ∈ cols).
Proof. intros Hne. apply bool_decide_ext. by apply elem_of_app_other. Qed.

Lemma fold_ensure_facts df :
  wf_frame df ->
  let df0 := fold_left ensure_column [Remetente; EnderecoOrigem; CEPOrigem] df in
  wf_frame df0
  /\ length (rows df0) = length (rows df)
  /\ select df0 Remetente = blank_if_missing df Remetente
  /\ select df0 EnderecoOrigem = blank_if_missing df EnderecoOrigem
  /\ select df0 CEPOrigem = blank_if_missing df CEPOrigem
  /\ (forall l, l ∉ columns df -> l <> Remetente -> l <> EnderecoOrigem ->
        l <> CEPOrigem -> l ∉ columns df0)
  /\ columns df0
     = columns df
       ++ List.filter (fun need => negb (bool_decide (need ∈ columns df)))
            [Remetente; EnderecoOrigem; CEPOrigem].
Proof.
  intros W. cbn [fold_left].
  destruct (ensure_column_facts df Remetente W) as (Wa & Ra & Ka & Oa & Sa).
  set (dfa := ensure_column df Remetente) in *.
  destruct (ensure_column_facts dfa EnderecoOrigem Wa) as (Wb & Rb & Kb & Ob & Sb).
  set (dfb := ensure_column dfa EnderecoOrigem) in *.
  destruct (ensure_column_facts dfb CEPOrigem Wb) as (Wc & Rc & Kc & Oc & Sc).
  set (dfc := ensure_column dfb CEPOrigem) in *.
  cbv zeta. split; [done|]. split; [lia|].
  split; [|split; [|split; [|split]]].
  - rewrite Oc by label_ne. rewrite Ob by label_ne. done.
  - rewrite Oc by label_ne. rewrite Sb.
    apply blank_if_missing_rows; [|done]. apply Oa. label_ne.
  - rewrite Sc. apply blank_if_missing_rows; [|lia].
    rewrite Ob by label_ne. apply Oa. label_ne.
  - intros l Hl H1 H2 H3.
    assert (Ha : l ∉ columns dfa).
    { rewrite Ka. destruct (bool_decide (Remetente ∈ columns df)); [done|].
      by apply not_elem_of_app_singleton. }
    assert (Hb : l ∉ columns dfb).
    { rewrite Kb. destruct (bool_decide (EnderecoOrigem ∈ columns dfa)); [done|].
      by apply not_elem_of_app_singleton. }
    rewrite Kc. destruct (bool_decide (CEPOrigem ∈ columns dfb)); [done|].
    by apply not_elem_of_app_singleton.
  - rewrite Kc, Kb, Ka. cbn [List.filter].
    destruct (bool_decide (Remetente ∈ columns df)); cbn [negb];
      rewrite ?bool_decide_elem_of_app_other by label_ne;
      (destruct (bool_decide (EnderecoOrigem ∈ columns df)); cbn [negb]);
      rewrite ?bool_decide_elem_of_app_other by label_ne;
      (destruct (bool_decide (CEPOrigem ∈ columns df)); cbn [negb]);
      by rewrite <- ?app_assoc, ?app_nil_r.
Qed.

Lemma nth_map_Str j (toks : list pystr) :
  (j < length toks)%nat -> nth j (map Str toks) NaN = Str (nth j toks []).
Proof.
  intros H. rewrite (nth_indep _ NaN (Str [])) by by rewrite length_map.
  apply (map_nth Str).
Qed.

Lemma built_frame_select U header data need :
  (length (positions need (map (colmap U) header) 0) <= 1)%nat ->
  blank_if_missing
    (rename_columns (colmap U)
       {| columns := header;
          rows := map (map Str)
                    (map (fun l => pad_row (length header) (split_linha l)) data) |})
    need
  = Series (map (fun l => Str (field_token U header need l)) data).
Proof.
  intros Hone. unfold blank_if_missing, select, field_token.
  cbn [columns rows rename_columns].
  destruct (positions need (map (colmap U) header) 0) as [|j [|j' js]] eqn:E;
    [|clear Hone|cbn in Hone; lia].
  - by rewrite !map_map.
  - assert (Hj : (j < length header)%nat).
    { assert (Hx : In j (positions need (map (colmap U) header) 0))
        by (rewrite E; by left).
      apply positions_spec in Hx as [_ Hx]. apply lookup_lt_Some in Hx.
      rewrite length_map in Hx. lia. }
    f_equal. rewrite !map_map. apply map_ext. intros l.
    apply nth_map_Str. by rewrite pad_row_length.
Qed.

Lemma zip3_map {A B C D} (f : A -> B) (g : A -> C) (h : A -> D) (l : list A) :
  zip (zip (map f l) (map g l)) (map h l) = map (fun x => (f x, g x, h x)) l.
Proof. induction l as [|x l IH]; [done|]. cbn. by rewrite IH. Qed.

Lemma encontrar_linha_cabecalho_bound U linhas :
  linhas <> [] -> (encontrar_linha_cabecalho U linhas < length linhas)%nat.
Proof.
  intros Hne. unfold encontrar_linha_cabecalho.
  destruct (find_index (is_header_line U) linhas) as [i|] eqn:E; cbn.
  - apply find_index_Some in E as [(x & Hx & _) _]. by apply lookup_lt_Some in Hx.
  - destruct linhas; [done|cbn; lia].
Qed.

(** The records of a parsed file.  When the renamed header names each of
    Remetente, EnderecoOrigem and CEPOrigem at most once and has no column
    named like a derived column, parsing succeeds.  The header line is one
    of the lines; the columns are the renamed header, those of the three
    fields that it lacks, and the four derived columns; there is one row for
    each line after the header line, in order; the three fields of a row are
    the cleaned tokens of its line under the header columns so named (the
    empty string where the header names none); and [chave] is the join of
    their normalised forms. *)
Theorem parse_lines_records (U : UnicodeTables) (linhas : list pystr) :
  linhas <> [] ->
  let idx := encontrar_linha_cabecalho U linhas in
  let header := split_linha (nth idx linhas []) in
  let data := drop (S idx) linhas in
  let cols := map (colmap U) header in
  (forall need, need ∈ [Remetente; EnderecoOrigem; CEPOrigem] ->
     (length (positions need cols 0) <= 1)%nat) ->
  (forall l, l ∈ [remetente_norm; endereco_norm; cep_norm; chave] -> l ∉ cols) ->
  (idx < length linhas)%nat
  /\ exists df,
      parse_lines U linhas = Ok df
      /\ wf_frame df
      /\ columns df
         = cols
           ++ List.filter (fun need => negb (bool_decide (need ∈ cols)))
                [Remetente; EnderecoOrigem; CEPOrigem]
           ++ [remetente_norm; endereco_norm; cep_norm; chave]
      /\ length (rows df) = length data
      /\ select df Remetente
         = Series (map (fun l => Str (field_value U header Remetente l)) data)
      /\ select df EnderecoOrigem
         = Series (map (fun l => Str (field_value U header EnderecoOrigem l)) data)
      /\ select df CEPOrigem
         = Series (map (fun l => Str (field_value U header CEPOrigem l)) data)
      /\ select df chave
         = Series (map (fun l =>
                          Str (join_key
                                 (norm_text U (field_value U header Remetente l))
                                 (norm_text U (field_value U header EnderecoOrigem l))
                                 (norm_cep U (field_value U header CEPOrigem l))))
                     data).
Proof.
  intros Hne idx header data cols Hone Habs.
  split; [by apply encontrar_linha_cabecalho_bound|].
  destruct linhas as [|l0 ls]; [done|]. rewrite parse_lines_cons. cbv zeta.
  fold idx. fold header. fold data.
  set (dfh := rename_columns (colmap U)
       {| columns := header;
          rows := map (map Str)
                    (map (fun l => pad_row (length header) (split_linha l)) data) |}).
  assert (Wh : wf_frame dfh) by apply wf_built.
  destruct (fold_ensure_facts dfh Wh) as (W0 & R0 & SR & SE & SC & Hcols & K0).
  change (fold_left ensure_column [Remetente; EnderecoOrigem; CEPOrigem] dfh)
    with (built_frame U header data) in *.
  set (df0 := built_frame U header data) in *.
  assert (Lh : length (rows dfh) = length data)
    by (subst dfh; cbn; by rewrite !length_map).
  unfold dfh in SR, SE, SC.
  rewrite built_frame_select in SR, SE, SC
    by (apply Hone; repeat constructor).
  assert (Hd : forall l, l ∈ [remetente_norm; endereco_norm; cep_norm; chave] ->
                 l ∉ columns df0).
  { intros l Hl. apply Hcols; [by apply Habs| | |];
      intros ->; repeat (apply elem_of_cons in Hl as [Hl|Hl]; [by vm_compute in Hl|]);
      by apply elem_of_nil in Hl. }
  destruct (normalise_columns_Ok U df0 _ _ _ W0 SR SE SC)
    as (df & Hdf & Wd & Rd & Kd & S1 & S2 & S3 & S4);
    try (apply Hd; repeat constructor).
  exists df. rewrite !map_map in S1, S2, S3.
  split; [done|]. split; [done|].
  split; [by rewrite Kd, K0, <- app_assoc|]. split; [lia|].
  split; [done|]. split; [done|]. split; [done|].
  rewrite S4. f_equal. rewrite !map_map, zip3_map, map_map. done.
Qed.

Lemma column_apply_SubFrame df l (f : cell -> outcome cell) e n :
  select df l = SubFrame n -> rows df <> [] -> column_apply df l f e = Raises e.
Proof. intros H Hr. unfold column_apply. rewrite H. by destruct (rows df). Qed.

Lemma blank_if_missing_SubFrame df need :
  (2 <= length (positions need (columns df) 0))%nat ->
  exists n, blank_if_missing df need = SubFrame n.
Proof.
  intros H. unfold blank_if_missing, select.
  destruct (positions need (columns df) 0) as [|j [|j' js]];
    [cbn in H; lia..|]. by eexists.
Qed.

Lemma rows_not_nil {A} (l : list A) : (0 < length l)%nat -> l <> [].
Proof. destruct l; [cbn; lia|done]. Qed.

(** Two columns of one name.  When the mapper gives two header columns the
    name of one of the three fields (as it does with "Remetente" and "Nome
    do Remetente") and the file has a data line, parsing raises the
    ValueError of the truth value of a Series. *)
Theorem parse_lines_duplicate_column (U : UnicodeTables) (linhas : list pystr) :
  let idx := encontrar_linha_cabecalho U linhas in
  let header := split_linha (nth idx linhas []) in
  let data := drop (S idx) linhas in
  let cols := map (colmap U) header in
  data <> [] ->
  (exists need, need ∈ [Remetente; EnderecoOrigem; CEPOrigem]
                /\ (2 <= length (positions need cols 0))%nat) ->
  parse_lines U linhas = Raises series_truth_ambiguous.
Proof.
  intros idx header data cols Hdata (need & Hneed & Hdup).
  destruct linhas as [|l0 ls]; [by destruct idx|]. rewrite parse_lines_cons.
  cbv zeta. fold idx. fold header. fold data.
  set (dfh := rename_columns (colmap U)
       {| columns := header;
          rows := map (map Str)
                    (map (fun l => pad_row (length header) (split_linha l)) data) |}).
  assert (Wh : wf_frame dfh) by apply wf_built.
  destruct (fold_ensure_facts dfh Wh) as (W0 & R0 & SR & SE & SC & _ & _).
  change (fold_left ensure_column [Remetente; EnderecoOrigem; CEPOrigem] dfh)
    with (built_frame U header data) in *.
  set (df0 := built_frame U header data) in *.
  assert (Lh : length (rows dfh) = length data)
    by (subst dfh; cbn; by rewrite !length_map).
  assert (Hpos : (0 < length data)%nat) by (destruct data; [done|cbn; lia]).
  assert (N0 : rows df0 <> []) by (apply rows_not_nil; lia).
  unfold normalise_columns. cbv zeta.
  destruct (le_lt_dec (length (positions Remetente cols 0)) 1) as [HR|HR].
  2:{ destruct (blank_if_missing_SubFrame dfh Remetente HR) as [n Hn].
      rewrite Hn in SR. by rewrite (column_apply_SubFrame _ _ _ _ n SR N0). }
  unfold dfh in SR. rewrite built_frame_select in SR by done. fold dfh in SR.
  rewrite (column_apply_Series df0 Remetente _ _ _ SR), bind_Ok.
  match goal with |- context [set_col df0 Remetente ?v] =>
    set (v1 := v); set (df1 := set_col df0 Remetente v1) end.
  destruct (set_col_step df0 Remetente v1 W0) as (W1 & R1 & A1 & O1);
    [subst v1; rewrite !length_map; lia
    |by rewrite (select_Series_positions _ _ _ SR) |].
  fold df1 in W1, R1, A1, O1.
  assert (N1 : rows df1 <> []) by (apply rows_not_nil; lia).
  destruct (le_lt_dec (length (positions EnderecoOrigem cols 0)) 1) as [HE|HE].
  2:{ destruct (blank_if_missing_SubFrame dfh EnderecoOrigem HE) as [n Hn].
      rewrite Hn in SE.
      rewrite (column_apply_SubFrame df1 EnderecoOrigem _ _ n); [done| |done].
      rewrite O1 by label_ne. done. }
  unfold dfh in SE. rewrite built_frame_select in SE by done. fold dfh in SE.
  rewrite (column_apply_Series df1 EnderecoOrigem _ _ _
             ltac:(rewrite O1 by label_ne; exact SE)), bind_Ok.
  match goal with |- context [set_col df1 EnderecoOrigem ?v] =>
    set (v2 := v); set (df2 := set_col df1 EnderecoOrigem v2) end.
  destruct (set_col_step df1 EnderecoOrigem v2 W1) as (W2 & R2 & A2 & O2);
    [subst v2; rewrite !length_map; lia
    |rewrite (select_Series_positions df1 EnderecoOrigem
                (map (fun l => Str (field_token U header EnderecoOrigem l)) data));
     [lia|rewrite O1 by label_ne; exact SE] |].
  fold df2 in W2, R2, A2, O2.
  assert (N2 : rows df2 <> []) by (apply rows_not_nil; lia).
  assert (HC : (2 <= length (positions CEPOrigem cols 0))%nat).
  { repeat (apply elem_of_cons in Hneed as [->|Hneed]; [lia||done|]).
    by apply elem_of_nil in Hneed. }
  destruct (blank_if_missing_SubFrame dfh CEPOrigem HC) as [n Hn].
  rewrite Hn in SC.
  rewrite (column_apply_SubFrame df2 CEPOrigem _ _ n); [done| |done].
  rewrite O2 by label_ne. rewrite O1 by label_ne. done.
Qed.

(** The columns of a parsed table.  A successful parse returns a frame
    whose rows have one cell per column, and which is either the frame
    without columns (for bytes: exactly when the input has no non-blank
    line) or a frame that has the three fields, their normalised forms and
    the key. *)
Theorem parse_txt_to_df_columns (U : UnicodeTables) (fs : FileSystem)
    (src : source) (df : DataFrame) :
  parse_txt_to_df U fs src = Ok df ->
  wf_frame df
  /\ (df = empty_frame
      \/ Forall (fun l => l ∈ columns df)
           [Remetente; EnderecoOrigem; CEPOrigem; remetente_norm; endereco_norm;
            cep_norm; chave])
  /\ (forall b, src = Bytes b ->
        (df = empty_frame <-> non_blank_lines (try_decode_bytes b) = [])).
Proof.
  intros H. split; [by eapply parse_txt_to_df_wf|].
  unfold parse_txt_to_df in H. bind_inv H raw Hraw.
  set (linhas := non_blank_lines (try_decode_bytes raw)) in *.
  assert (Hcases : linhas = [] /\ df = empty_frame
                   \/ linhas <> [] /\ Forall (fun l => l ∈ columns df)
           [Remetente; EnderecoOrigem; CEPOrigem; remetente_norm; endereco_norm;
            cep_norm; chave]).
  { destruct linhas as [|l ls] eqn:E.
    - left. by injection H as <-.
    - right. split; [done|]. by apply (parse_lines_columns U (l :: ls)). }
  split; [tauto|].
  intros b ->. injection Hraw as ->. fold linhas.
  destruct Hcases as [[? ?]|[Hne HF]]; [tauto|].
  split; [|done]. intros ->. inversion HF as [|? ? Hin _]. by apply elem_of_nil in Hin.
Qed.

Lemma parse_lines_records_witness :
  exists df,
    parse_lines sample_tables example_daily_lines = Ok df
    /\ length (rows df)
       = length (drop (S (encontrar_linha_cabecalho sample_tables example_daily_lines))
                   example_daily_lines).
Proof.
  assert (H1 : example_daily_lines <> []) by (vm_compute; discriminate).
  destruct (parse_lines_records sample_tables example_daily_lines H1)
    as (_ & df & Hdf & _ & _ & Hr & _).
  - intros need H. each_label H; vm_compute; lia.
  - intros l H. each_label H; decided.
  - exists df. split; [exact Hdf|exact Hr].
Defined.

Lemma parse_lines_duplicate_column_witness :
  parse_lines sample_tables example_two_senders_lines
  = Raises series_truth_ambiguous.
Proof.
  apply (parse_lines_duplicate_column sample_tables example_two_senders_lines).
  - vm_compute. discriminate.
  - exists Remetente. split; [constructor|]. vm_compute. lia.
Defined.

Lemma parse_txt_to_df_columns_witness :
  wf_frame example_daily
  /\ (example_daily = empty_frame
      \/ Forall (fun l => l ∈ columns example_daily)
           [Remetente; EnderecoOrigem; CEPOrigem; remetente_norm; endereco_norm;
            cep_norm; chave]).
Proof.
  assert (H : parse_txt_to_df sample_tables no_files (Bytes example_daily_txt)
              = Ok example_daily) by (vm_compute; reflexivity).
  destruct (parse_txt_to_df_columns sample_tables no_files _ _ H) as (H1 & H2 & _).
  split; [exact H1|exact H2].
Defined.

(** ** What the parser can raise *)

Lemma bind_Raises {A B} (e : exn) (f : A -> outcome B) :
  (Raises e ≫= f) = Raises e.
Proof. reflexivity. Qed.

Lemma bind_OutOfModel {A B} (f : A -> outcome B) :
  (OutOfModel ≫= f) = OutOfModel.
Proof. reflexivity. Qed.

(** One cleaning of a column that exists: it gives the cleaned values of a
    Series, and on several columns of the same name it raises when there
    are rows. *)
Lemma column_apply_clean_cases df l e :
  select df l <> NoColumn ->
  (exists vs, select df l = Series vs
              /\ column_apply df l (fun c => Ok (clean_txt c)) e
                 = Ok (map clean_txt vs))
  \/ column_apply df l (fun c => Ok (clean_txt c)) e = OutOfModel
  \/ column_apply df l (fun c => Ok (clean_txt c)) e = Raises e.
Proof.
  intros Hne. unfold column_apply.
  destruct (select df l) as [|vs|n]; [done| |].
  - left. exists vs. split; [done|]. apply traverse_Ok_map.
  - right. destruct (rows df); [by left|by right].
Qed.

(** Reading back as a Series the column just assigned: the values assigned,
    unless the label names several columns. *)
Lemma get_series_assigned df l v :
  wf_frame df -> length v = length (rows df) ->
  get_series (set_col df l v) l = Ok v
  \/ get_series (set_col df l v) l = OutOfModel.
Proof.
  intros W L. unfold get_series.
  destruct (select (set_col df l v) l) as [|vs|n] eqn:E.
  - exfalso. revert E. apply select_present.
    apply elem_of_columns_set_col. by right.
  - left. f_equal. by apply select_set_col_same_inv in E.
  - by right.
Qed.

Lemma get_series_set_col_other df l l' v :
  l <> l' -> wf_frame df -> length v = length (rows df) ->
  get_series (set_col df l' v) l = get_series df l.
Proof.
  intros Hne W L. unfold get_series. by rewrite select_set_col_other.
Qed.

(** The only exception of the normalising stage, on a frame that has the
    three fields, is that of a field that names several columns. *)
Lemma normalise_columns_Raises U df e :
  wf_frame df ->
  select df Remetente <> NoColumn ->
  select df EnderecoOrigem <> NoColumn ->
  select df CEPOrigem <> NoColumn ->
  normalise_columns U df = Raises e -> e = series_truth_ambiguous.
Proof.
  intros W0 HR HE HC H. unfold normalise_columns in H. cbv zeta in H.
  (* the three cleaning assignments *)
  destruct (column_apply_clean_cases df Remetente series_truth_ambiguous HR)
    as [(r0 & SR & E1)|[E1|E1]]; rewrite E1 in H;
    [|by rewrite bind_OutOfModel in H
     |rewrite bind_Raises in H; by injection H as <-].
  rewrite bind_Ok, map_clean_txt in H.
  set (rem := map (fun c => py_str (clean_txt c)) r0) in *.
  pose proof (select_Series_length _ _ _ SR) as LR.
  assert (Lrem : length (map Str rem) = length (rows df))
    by (subst rem; by rewrite !length_map).
  destruct (set_col_step df Remetente (map Str rem) W0 Lrem) as (W1 & R1 & A1 & O1);
    [by rewrite (select_Series_positions _ _ _ SR)|].
  set (df1 := set_col df Remetente (map Str rem)) in *.
  assert (HE1 : select df1 EnderecoOrigem <> NoColumn)
    by (rewrite O1; [done|label_ne]).
  destruct (column_apply_clean_cases df1 EnderecoOrigem series_truth_ambiguous HE1)
    as [(e0 & SE & E2)|[E2|E2]]; rewrite E2 in H;
    [|by rewrite bind_OutOfModel in H
     |rewrite bind_Raises in H; by injection H as <-].
  rewrite bind_Ok, map_clean_txt in H.
  set (ende := map (fun c => py_str (clean_txt c)) e0) in *.
  pose proof (select_Series_length _ _ _ SE) as LE.
  assert (Lend : length (map Str ende) = length (rows df1))
    by (subst ende; by rewrite !length_map).
  destruct (set_col_step df1 EnderecoOrigem (map Str ende) W1 Lend)
    as (W2 & R2 & A2 & O2);
    [by rewrite (select_Series_positions _ _ _ SE)|].
  set (df2 := set_col df1 EnderecoOrigem (map Str ende)) in *.
  assert (HC2 : select df2 CEPOrigem <> NoColumn).
  { rewrite O2 by label_ne. rewrite O1 by label_ne. done. }
  destruct (column_apply_clean_cases df2 CEPOrigem series_truth_ambiguous HC2)
    as [(c0 & SC & E3)|[E3|E3]]; rewrite E3 in H;
    [|by rewrite bind_OutOfModel in H
     |rewrite bind_Raises in H; by injection H as <-].
  rewrite bind_Ok, map_clean_txt in H.
  set (cep := map (fun c => py_str (clean_txt c)) c0) in *.
  pose proof (select_Series_length _ _ _ SC) as LC.
  assert (Lcep : length (map Str cep) = length (rows df2))
    by (subst cep; by rewrite !length_map).
  destruct (set_col_step df2 CEPOrigem (map Str cep) W2 Lcep)
    as (W3 & R3 & A3 & O3);
    [by rewrite (select_Series_positions _ _ _ SC)|].
  set (df3 := set_col df2 CEPOrigem (map Str cep)) in *.
  exfalso.
  (* from here on nothing raises *)
  assert (SR3 : select df3 Remetente = Series (map Str rem)).
  { rewrite O3 by label_ne. rewrite O2 by label_ne. done. }
  assert (SE3 : select df3 EnderecoOrigem = Series (map Str ende)).
  { rewrite O3 by label_ne. done. }
  rewrite (column_apply_on_str df3 Remetente rem) in H by done.
  rewrite bind_Ok in H.
  set (rn := map (fun s => Str (norm_text U s)) rem) in *.
  assert (Lrn : length rn = length (rows df3))
    by (subst rn; rewrite !length_map in *; lia).
  pose proof (wf_set_col df3 remetente_norm rn W3) as W4.
  pose proof (length_rows_set_col df3 remetente_norm rn Lrn) as R4.
  set (df4 := set_col df3 remetente_norm rn) in *.
  assert (SE4 : select df4 EnderecoOrigem = Series (map Str ende)).
  { subst df4. rewrite select_set_col_other; [done|label_ne|done..]. }
  rewrite (column_apply_on_str df4 EnderecoOrigem ende) in H by done.
  rewrite bind_Ok in H.
  set (en := map (fun s => Str (norm_text U s)) ende) in *.
  assert (Len : length en = length (rows df4))
    by (subst en; rewrite !length_map in *; lia).
  pose proof (wf_set_col df4 endereco_norm en W4) as W5.
  pose proof (length_rows_set_col df4 endereco_norm en Len) as R5.
  set (df5 := set_col df4 endereco_norm en) in *.
  assert (SC5 : select df5 CEPOrigem = Series (map Str cep)).
  { subst df5 df4. rewrite select_set_col_other; [|label_ne|done..].
    rewrite select_set_col_other; [done|label_ne|done..]. }
  rewrite SC5, bind_Ok, map_map in H. cbn [py_str] in H.
  set (cn := map (fun s => Str (norm_cep U s)) cep) in *.
  assert (Lcn : length cn = length (rows df5))
    by (subst cn; rewrite !length_map in *; lia).
  pose proof (wf_set_col df5 cep_norm cn W5) as W6.
  set (df6 := set_col df5 cep_norm cn) in *.
  (* the three columns read for the key *)
  assert (Ga : get_series df6 remetente_norm = Ok rn
               \/ get_series df6 remetente_norm = OutOfModel).
  { subst df6 df5. rewrite get_series_set_col_other; [|label_ne|done..].
    rewrite get_series_set_col_other; [|label_ne|done..].
    by apply get_series_assigned. }
  destruct Ga as [Ga|Ga]; rewrite Ga in H; [|by rewrite bind_OutOfModel in H].
  rewrite bind_Ok in H.
  assert (Gb : get_series df6 endereco_norm = Ok en
               \/ get_series df6 endereco_norm = OutOfModel).
  { subst df6. rewrite get_series_set_col_other; [|label_ne|done..].
    by apply get_series_assigned. }
  destruct Gb as [Gb|Gb]; rewrite Gb in H; [|by rewrite bind_OutOfModel in H].
  rewrite bind_Ok in H.
  destruct (get_series_assigned df5 cep_norm cn W5 Lcn) as [Gc|Gc];
    fold df6 in Gc; rewrite Gc in H; [|by rewrite bind_OutOfModel in H].
  rewrite bind_Ok in H.
  subst rn en cn. rewrite traverse_key_cell in H.
  - by rewrite bind_Ok in H.
  - rewrite !length_map in *. lia.
  - rewrite !length_map in *. lia.
Qed.

(** The frame built from the lines has the three fields. *)
Lemma built_frame_fields U header data :
  let df := built_frame U header data in
  wf_frame df
  /\ select df Remetente <> NoColumn
  /\ select df EnderecoOrigem <> NoColumn
  /\ select df CEPOrigem <> NoColumn.
Proof.
  unfold built_frame.
  destruct (fold_ensure_facts _ (wf_built (colmap U) header data))
    as (W & _ & SR & SE & SC & _).
  cbv zeta in *. split; [done|]. rewrite SR, SE, SC. unfold blank_if_missing.
  repeat split; match goal with |- context [select ?d ?l] => by destruct (select d l) end.
Qed.

(** The only exception of the parser on the lines of a text: a field that
    names several columns of a table with rows makes [clean_txt] raise. *)
Lemma parse_lines_Raises U linhas e :
  parse_lines U linhas = Raises e -> e = series_truth_ambiguous.
Proof.
  destruct linhas as [|l ls]; [done|]. rewrite parse_lines_cons. cbv zeta.
  intros H.
  destruct (built_frame_fields U
              (split_linha (nth (encontrar_linha_cabecalho U (l :: ls)) (l :: ls) []))
              (drop (S (encontrar_linha_cabecalho U (l :: ls))) (l :: ls)))
    as (W & HR & HE & HC).
  by apply (normalise_columns_Raises U _ e W HR HE HC).
Qed.

(** C9.  When parsing the uploaded file raises, [upload_dia] leaves
    [DF_MATCH] as it was, and (the base being loaded and the file name
    accepted) answers with the flashed message "Erro ao ler arquivo do dia: "
    followed by the text of the exception.  The exception is the
    [ValueError] of pandas for a field that names several columns, so that
    the message reads "Erro ao ler arquivo do dia: The truth value of a
    Series is ambiguous." and what pandas adds to it. *)
Theorem upload_dia_parse_failure (U : UnicodeTables) (w : World) (f : Upload)
    (e : exn) :
  parse_txt_to_df U (disk w) (Bytes (content f)) = Raises e ->
  DF_MATCH (fst (upload_dia U w (Some f))) = DF_MATCH w
  /\ (snd (ensure_base_loaded U w) = Ok tt ->
      filename f <> [] ->
      extension U (filename f) ∈ ALLOWED_EXT ->
      snd (upload_dia U w (Some f))
      = Redirect (lit "Erro ao ler arquivo do dia: " ++ exn_str e) danger)
  /\ exists rest,
       e = ValueError (lit "The truth value of a Series is ambiguous." ++ rest)
       /\ (snd (ensure_base_loaded U w) = Ok tt ->
           filename f <> [] ->
           extension U (filename f) ∈ ALLOWED_EXT ->
           snd (upload_dia U w (Some f))
           = Redirect
               (lit "Erro ao ler arquivo do dia: The truth value of a Series is ambiguous."
                ++ rest) danger).
Proof.
  intros Hparse.
  assert (He : e = series_truth_ambiguous)
    by (apply (parse_lines_Raises U _ e Hparse)).
  assert (Hflash : snd (ensure_base_loaded U w) = Ok tt ->
            filename f <> [] ->
            extension U (filename f) ∈ ALLOWED_EXT ->
            snd (upload_dia U w (Some f))
            = Redirect (lit "Erro ao ler arquivo do dia: " ++ exn_str e) danger).
  { intros Hok Hname Hext. unfold upload_dia.
    destruct (ensure_base_loaded U w) as [w1 loaded]. cbn [fst snd] in *.
    rewrite (parse_bytes_any_disk U (disk w1) (disk w)), Hparse. subst loaded.
    rewrite bool_decide_false by done.
    by rewrite bool_decide_true by done. }
  split; [|split; [exact Hflash|]].
  - unfold upload_dia.
    pose proof (ensure_base_loaded_keeps_match U w) as Hkeep.
    destruct (ensure_base_loaded U w) as [w1 loaded]. cbn [fst snd] in *.
    rewrite (parse_bytes_any_disk U (disk w1) (disk w)), Hparse.
    destruct loaded; [|done..].
    repeat case_bool_decide; cbn [negb]; done.
  - exists (lit " Use a.empty, a.bool(), a.item(), a.any() or a.all().").
    split; [by rewrite He|].
    intros Hok Hname Hext. rewrite (Hflash Hok Hname Hext), He. reflexivity.
Qed.

Lemma upload_dia_parse_failure_witness :
  DF_MATCH (fst (upload_dia sample_tables example_world
                   (Some example_two_senders_upload)))
  = DF_MATCH example_world
  /\ exists rest,
       snd (upload_dia sample_tables example_world
              (Some example_two_senders_upload))
       = Redirect
           (lit "Erro ao ler arquivo do dia: The truth value of a Series is ambiguous."
            ++ rest) danger.
Proof.
  assert (H : parse_txt_to_df sample_tables (disk example_world)
                (Bytes (content example_two_senders_upload))
              = Raises series_truth_ambiguous) by (vm_compute; reflexivity).
  destruct (upload_dia_parse_failure sample_tables example_world
              example_two_senders_upload series_truth_ambiguous H)
    as (H1 & _ & rest & _ & H2).
  split; [exact H1|]. exists rest. apply H2.
  - vm_compute; reflexivity.
  - vm_compute; discriminate.
  - vm_compute; constructor.
Defined.

(** ** The labels of a parsed table *)

Lemma columns_ensure_column df need :
  columns (ensure_column df need) = with_label (columns df) need.
Proof.
  unfold ensure_column, with_label. case_bool_decide as Hin; [done|].
  cbn. by rewrite bool_decide_false.
Qed.

Lemma columns_built_frame U header data :
  columns (built_frame U header data)
  = fold_left with_label [Remetente; EnderecoOrigem; CEPOrigem]
      (map (colmap U) header).
Proof.
  unfold built_frame. cbn [fold_left]. by rewrite !columns_ensure_column.
Qed.

Lemma columns_set_col df l v :
  columns (set_col df l v) = with_label (columns df) l.
Proof. reflexivity. Qed.

Lemma columns_normalise_columns U df df' :
  normalise_columns U df = Ok df' ->
  columns df'
  = fold_left with_label
      [Remetente; EnderecoOrigem; CEPOrigem; remetente_norm; endereco_norm;
       cep_norm; chave] (columns df).
Proof.
  unfold normalise_columns. cbv zeta. intros H.
  bind_inv H v1 H1. bind_inv H v2 H2. bind_inv H v3 H3. bind_inv H v4 H4.
  bind_inv H v5 H5. bind_inv H v6 H6. bind_inv H a Ha. bind_inv H b Hb.
  bind_inv H c Hc. bind_inv H k Hk. injection H as <-.
  cbn [fold_left]. by rewrite !columns_set_col.
Qed.

Lemma positions_with_label_other l l' cols :
  l <> l' -> positions l (with_label cols l') 0 = positions l cols 0.
Proof.
  intros Hne. unfold with_label. case_bool_decide; [done|].
  by apply positions_app_other.
Qed.

Lemma positions_with_label_same l cols :
  (length (positions l cols 0) <= 1)%nat ->
  (length (positions l (with_label cols l) 0) <= 1)%nat.
Proof.
  intros H. unfold with_label. case_bool_decide as Hin; [done|].
  rewrite positions_app, (positions_absent l cols 0 Hin). cbn.
  case_bool_decide; cbn; lia.
Qed.

Lemma positions_fold_with_label l labels cols :
  Forall (fun l' => l <> l') labels ->
  positions l (fold_left with_label labels cols) 0 = positions l cols 0.
Proof.
  intros H. revert cols. induction H as [|l' labels Hne _ IH]; intros cols;
    [done|].
  cbn [fold_left]. by rewrite IH, positions_with_label_other.
Qed.

(** The labels of a table parsed from lines: a label that the parser does
    not assign is where the renamed header has it, and [chave] names one
    column unless the header names it several times. *)
Lemma parse_lines_labels U l ls df :
  parse_lines U (l :: ls) = Ok df ->
  let cols :=
    map (colmap U)
      (split_linha (nth (encontrar_linha_cabecalho U (l :: ls)) (l :: ls) [])) in
  positions is_repetido (columns df) 0 = positions is_repetido cols 0
  /\ ((length (positions chave cols 0) <= 1)%nat ->
      (length (positions chave (columns df) 0) <= 1)%nat).
Proof.
  rewrite parse_lines_cons. cbv zeta. intros H.
  apply columns_normalise_columns in H. rewrite columns_built_frame in H.
  rewrite H. split.
  - rewrite !positions_fold_with_label; [done|..];
      repeat constructor; label_ne.
  - intros Hone.
    change [Remetente; EnderecoOrigem; CEPOrigem; remetente_norm; endereco_norm;
            cep_norm; chave]
      with ([Remetente; EnderecoOrigem; CEPOrigem; remetente_norm; endereco_norm;
             cep_norm] ++ [chave]).
    rewrite fold_left_app.
    match goal with
    | |- context [fold_left with_label [chave] ?c] =>
        change (fold_left with_label [chave] c) with (with_label c chave)
    end.
    apply positions_with_label_same.
    rewrite !positions_fold_with_label; [done|..];
      repeat constructor; label_ne.
Qed.

(** In a table parsed from lines, [chave] is read as a Series of strings
    unless the header names it several times. *)
Lemma parse_lines_chave_Series U l ls df :
  parse_lines U (l :: ls) = Ok df ->
  (length (positions chave
             (map (colmap U)
                (split_linha
                   (nth (encontrar_linha_cabecalho U (l :: ls)) (l :: ls) []))) 0)
   <= 1)%nat ->
  exists dk, select df chave = Series dk
             /\ Forall (fun r => exists s, cell_at df chave r = Str s) (rows df).
Proof.
  intros H Hone.
  destruct (parse_lines_labels U l ls df H) as [_ Hc]. specialize (Hc Hone).
  apply parse_lines_fields in H as (_ & rem & ende & cep & H); [|done].
  destruct H as (_ & _ & _ & _ & _ & _ & _ & _ & _ & Hin & Hk).
  pose proof (positions_present chave (columns df) 0 Hin) as Hne.
  assert (Hs : exists dk, select df chave = Series dk).
  { unfold select.
    destruct (positions chave (columns df) 0) as [|j [|j' js]];
      [done|by eexists|cbn in Hc; lia]. }
  destruct Hs as [dk Hs]. exists dk. split; [done|].
  pose proof (select_Series_cell_at _ _ _ Hs) as E.
  rewrite (Hk dk Hs) in E.
  apply List.Forall_forall. intros r Hr.
  apply (in_map (cell_at df chave)) in Hr. rewrite <- E in Hr.
  apply in_map_iff in Hr as (z & Hz & _). by eexists.
Qed.

(** ** The matcher on parsed tables *)

Lemma is_repeat_spec base df_dia bk r s :
  select base chave = Series bk ->
  cell_at df_dia chave r = Str s ->
  is_repeat base df_dia r = true <-> exists k, k ∈ bk /\ py_str k = s.
Proof.
  intros Hb Hs. apply select_Series_cell_at in Hb as ->.
  unfold is_repeat, chaves. rewrite Hs, bool_decide_eq_true.
  rewrite !list_elem_of_In, in_map_iff. split.
  - intros (x & <- & Hx). exists (cell_at base chave x). split; [|done].
    apply list_elem_of_In. by apply in_map.
  - intros (k & Hk & <-). apply list_elem_of_In, in_map_iff in Hk as (x & <- & Hx).
    by exists x.
Qed.

(** C1, amended.  For a base with one [chave] column and the daily table
    parsed from an upload with at least one non-blank line whose header
    names neither [chave] nor [is_repetido] more than once, the matcher
    returns a result: the flag of a daily row is set iff its [chave], a
    string, is the text of one of the [chave] values of the base (iff it is
    one of them, when they are strings), and the rows of the result are
    exactly the daily rows so flagged, in the order of the daily table, each
    with its flag and (the daily table having rows) under the columns of the
    daily table and the flag. *)
Theorem df_repetidos_flagged_subsequence (U : UnicodeTables)
    (fs : FileSystem) (base : DataFrame) (bk : list cell) (b : bytes)
    (df_dia : DataFrame) :
  let linhas := non_blank_lines (try_decode_bytes b) in
  let cols :=
    map (colmap U)
      (split_linha (nth (encontrar_linha_cabecalho U linhas) linhas [])) in
  select base chave = Series bk ->
  parse_txt_to_df U fs (Bytes b) = Ok df_dia ->
  linhas <> [] ->
  (length (positions chave cols 0) <= 1)%nat ->
  (length (positions is_repetido cols 0) <= 1)%nat ->
  let flags := map (fun r => Bool (is_repeat base df_dia r)) (rows df_dia) in
  exists res,
    df_repetidos base df_dia = Ok res
    /\ select (set_col df_dia is_repetido flags) is_repetido = Series flags
    /\ (rows df_dia <> [] ->
        columns res = columns (set_col df_dia is_repetido flags))
    /\ rows res
       = map (fun r => set_cell (columns df_dia) is_repetido r (Bool true))
           (List.filter (is_repeat base df_dia) (rows df_dia))
    /\ Forall (fun r =>
                 exists s, cell_at df_dia chave r = Str s
                           /\ (is_repeat base df_dia r = true
                               <-> exists k, k ∈ bk /\ py_str k = s))
         (rows df_dia)
    /\ (Forall (fun k => exists s, k = Str s) bk ->
        Forall (fun r => is_repeat base df_dia r = true
                         <-> cell_at df_dia chave r ∈ bk)
          (rows df_dia)).
Proof.
  intros linhas cols Hb Hparse Hne Hc Hi flags.
  pose proof (parse_txt_to_df_wf _ _ _ _ Hparse) as Hwf.
  change (parse_lines U linhas = Ok df_dia) in Hparse.
  destruct linhas as [|l ls] eqn:El; [done|].
  destruct (parse_lines_labels U l ls df_dia Hparse) as [Pi _].
  destruct (parse_lines_chave_Series U l ls df_dia Hparse Hc) as (dk & Hd & Hstr).
  fold cols in Pi.
  assert (Hone : (length (positions is_repetido (columns df_dia) 0) <= 1)%nat)
    by by rewrite Pi.
  destruct (df_repetidos_one_chave base df_dia bk dk Hwf Hb Hd Hone)
    as (res & H1 & H2 & H3 & H4).
  exists res. split; [done|]. split; [done|]. split; [done|]. split; [done|].
  assert (Hkeys : Forall (fun r =>
                    exists s, cell_at df_dia chave r = Str s
                              /\ (is_repeat base df_dia r = true
                                  <-> exists k, k ∈ bk /\ py_str k = s))
                    (rows df_dia)).
  { eapply Forall_impl; [exact Hstr|]. intros r [s Hs]. exists s.
    split; [done|]. by apply is_repeat_spec. }
  split; [done|].
  intros Hbk. eapply Forall_impl; [exact Hkeys|]. cbn.
  intros r (s & Hs & Hiff). rewrite Hiff, Hs. split.
  - intros (k & Hk & <-).
    rewrite List.Forall_forall in Hbk.
    destruct (Hbk k) as [s' ->]; [by apply list_elem_of_In|]. done.
  - intros Hk. by exists (Str s).
Qed.

Lemma df_repetidos_witness :
  exists res,
    df_repetidos example_base example_daily = Ok res
    /\ rows res
       = [[Str (lit "acme ltda"); Str (lit "RUA A 10"); Str (lit "01001000");
           Str (lit "ACME LTDA"); Str (lit "RUA A 10"); Str (lit "01001000");
           Str (lit "ACME LTDA|RUA A 10|01001000"); Bool true]]
    /\ chaves example_base = [lit "ACME LTDA|RUA A 10|01001000"]
    /\ chaves example_daily
       = [lit "BETA SA|RUA B 20|02002000"; lit "ACME LTDA|RUA A 10|01001000";
          lit "GAMA ME|AV C 30|03003000"].
Proof.
  assert (H1 : select example_base chave
               = Series (map (cell_at example_base chave) (rows example_base)))
    by (vm_compute; reflexivity).
  assert (H2 : parse_txt_to_df sample_tables no_files (Bytes example_daily_txt)
               = Ok example_daily) by (vm_compute; reflexivity).
  assert (H3 : non_blank_lines (try_decode_bytes example_daily_txt) <> [])
    by (vm_compute; discriminate).
  destruct (df_repetidos_flagged_subsequence sample_tables no_files example_base _ example_daily_txt
              example_daily H1 H2 H3)
    as (res & Hres & _ & _ & Hrows & _).
  - vm_compute; lia.
  - vm_compute; lia.
  - exists res. split; [exact Hres|]. split; [|split].
    + etransitivity; [exact Hrows|]. vm_compute. reflexivity.
    + vm_compute. reflexivity.
    + vm_compute. reflexivity.
Defined.

(** C1, as stated, fails.  A daily file whose header names [chave] twice
    parses, both columns hold the key, [df_dia['chave']] is a frame, and
    the matcher raises [TypeError] where it flags the rows: [upload_dia]
    ends with that exception and stores no result.  With that table as
    the base, the matcher raises [AttributeError] where it collects the
    keys.  An upload without a non-blank line parses to the frame without
    columns, on which the matcher raises [KeyError]. *)
Lemma df_repetidos_two_chave_columns :
  let df := frame_of (parse_txt_to_df sample_tables no_files
                        (Bytes example_two_keys_txt)) in
  parse_txt_to_df sample_tables no_files (Bytes example_two_keys_txt) = Ok df
  /\ rows df <> []
  /\ select df chave = SubFrame 2
  /\ df_repetidos example_base df
     = Raises (TypeError (lit "unhashable type: 'Series'"))
  /\ snd (upload_dia sample_tables example_world (Some example_two_keys_upload))
     = ServerError (TypeError (lit "unhashable type: 'Series'"))
  /\ DF_MATCH (fst (upload_dia sample_tables example_world
                      (Some example_two_keys_upload)))
     = DF_MATCH example_world
  /\ df_repetidos df example_daily
     = Raises (AttributeError (lit "'DataFrame' object has no attribute 'tolist'"))
  /\ parse_txt_to_df sample_tables no_files (Bytes []) = Ok empty_frame
  /\ df_repetidos example_base empty_frame = Raises (KeyError chave).
Proof. by vm_compute. Qed.

(** ** The base repository, further *)

Lemma ensure_base_loaded_cases U w :
  (snd (ensure_base_loaded U w) = Ok tt
   /\ is_Some (DF_BASE (fst (ensure_base_loaded U w))))
  \/ (snd (ensure_base_loaded U w) <> Ok tt /\ fst (ensure_base_loaded U w) = w).
Proof.
  unfold ensure_base_loaded.
  destruct (DF_BASE w) as [b|] eqn:E.
  { left. cbn [fst snd]. rewrite E. split; [done|by eexists]. }
  destruct (load_snapshot U (disk w)) as [[df|]| |]; cbn [fst snd].
  - left. split; [done|by eexists].
  - destruct (base_txt (disk w)); cbn [fst snd].
    + destruct (parse_txt_to_df U (disk w) (Path BASE_TXT)); cbn [fst snd].
      * left. split; [done|by eexists].
      * by right.
      * by right.
    + left. split; [done|by eexists].
  - by right.
  - by right.
Qed.

Lemma ensure_base_loaded_keeps_raw U w :
  base_txt (disk (fst (ensure_base_loaded U w))) = base_txt (disk w).
Proof.
  unfold ensure_base_loaded.
  destruct (DF_BASE w); [done|].
  destruct (load_snapshot U (disk w)) as [[df|]| |]; try done.
  destruct (base_txt (disk w)) eqn:E; [|done].
  destruct (parse_txt_to_df U (disk w) (Path BASE_TXT)); try done.
  cbn. unfold save_snapshot. by destruct (csv_write (disk w) a).
Qed.

(** Loading once.  After a call that returns, the base is loaded, and a
    later call changes nothing, whatever is on disk then and whatever result
    is stored; a call that raises leaves the globals and the files as they
    were.  No call changes [DF_MATCH] or the raw base. *)
Theorem ensure_base_loaded_once (U : UnicodeTables) (w : World) :
  let r := ensure_base_loaded U w in
  (snd r = Ok tt ->
   is_Some (DF_BASE (fst r))
   /\ forall (m : option DataFrame) (fs : FileSystem),
        ensure_base_loaded U
          {| DF_BASE := DF_BASE (fst r); DF_MATCH := m; disk := fs |}
        = ({| DF_BASE := DF_BASE (fst r); DF_MATCH := m; disk := fs |}, Ok tt))
  /\ (snd r <> Ok tt -> fst r = w)
  /\ DF_MATCH (fst r) = DF_MATCH w
  /\ base_txt (disk (fst r)) = base_txt (disk w).
Proof.
  cbv zeta. split; [|split; [|split]].
  - intros Hok.
    destruct (ensure_base_loaded_cases U w) as [[_ [b Hb]]|[Hne _]]; [|done].
    split; [by eexists|]. intros m fs. unfold ensure_base_loaded at 1.
    cbn [DF_BASE]. by rewrite Hb.
  - intros Hne. by destruct (ensure_base_loaded_cases U w) as [[? _]|[_ ?]].
  - apply ensure_base_loaded_keeps_match.
  - apply ensure_base_loaded_keeps_raw.
Qed.

(** Without a snapshot.  With no base loaded and no snapshot on disk:
    without a raw base the base is the empty table of four columns; with a
    raw base that parses, the base is its table, the snapshot is what the
    write leaves (none when it fails), the raw base is untouched, and a
    process started afterwards loads the snapshot written, whatever the raw
    base is then; with a raw base whose parsing raises, the exception leaves
    the function and nothing is loaded. *)
Theorem ensure_base_loaded_first_run (U : UnicodeTables) (w : World) :
  DF_BASE w = None -> base_csv (disk w) = None ->
  (base_txt (disk w) = None ->
   ensure_base_loaded U w = (set_DF_BASE w empty_base, Ok tt))
  /\ (forall raw dfb,
        base_txt (disk w) = Some raw ->
        parse_txt_to_df U (disk w) (Path BASE_TXT) = Ok dfb ->
        let w1 := fst (ensure_base_loaded U w) in
        snd (ensure_base_loaded U w) = Ok tt
        /\ DF_BASE w1 = Some dfb
        /\ base_csv (disk w1) = csv_write (disk w) dfb
        /\ base_txt (disk w1) = Some raw
        /\ forall f' d (raw' : option bytes),
             csv_write (disk w) dfb = Some f' ->
             csv_frame f' = Ok d -> chave ∈ columns d ->
             DF_BASE (fst (ensure_base_loaded U
                             {| DF_BASE := None; DF_MATCH := None;
                                disk := {| base_txt := raw';
                                           base_csv := base_csv (disk w1);
                                           csv_write := csv_write (disk w1) |} |}))
             = Some d)
  /\ (forall raw e,
        base_txt (disk w) = Some raw ->
        parse_txt_to_df U (disk w) (Path BASE_TXT) = Raises e ->
        ensure_base_loaded U w = (w, Raises e)).
Proof.
  intros Hnone Hcsv.
  assert (Hload : load_snapshot U (disk w) = Ok None)
    by (unfold load_snapshot; by rewrite Hcsv).
  split; [|split].
  - intros Htxt. unfold ensure_base_loaded. by rewrite Hnone, Hload, Htxt.
  - intros raw dfb Htxt Hparse.
    assert (E : ensure_base_loaded U w
                = ({| DF_BASE := Some dfb; DF_MATCH := DF_MATCH w;
                      disk := save_snapshot (disk w) dfb |}, Ok tt)).
    { unfold ensure_base_loaded. by rewrite Hnone, Hload, Htxt, Hparse. }
    cbv zeta. rewrite E. cbn [fst snd DF_BASE disk].
    split; [done|]. split; [done|].
    unfold save_snapshot.
    destruct (csv_write (disk w) dfb) as [f'|] eqn:Hw; cbn [base_csv base_txt];
      (split; [done|]); (split; [done|]); [|done].
    intros f'' d raw' [= <-] Hd Hin.
    unfold ensure_base_loaded, load_snapshot. cbn [DF_BASE disk base_csv].
    by rewrite Hd, bool_decide_true.
  - intros raw e Htxt Hparse.
    unfold ensure_base_loaded. by rewrite Hnone, Hload, Htxt, Hparse.
Qed.

(** ** What an upload leaves unchanged *)

(** The only thing [upload_dia] does to the globals and the files, beyond
    what [ensure_base_loaded] does, is to assign [DF_MATCH]. *)
Lemma upload_dia_world U w file :
  fst (upload_dia U w file) = fst (ensure_base_loaded U w)
  \/ exists reps,
       fst (upload_dia U w file) = set_DF_MATCH (fst (ensure_base_loaded U w)) reps.
Proof.
  unfold upload_dia. destruct (ensure_base_loaded U w) as [w1 loaded].
  cbn [fst]. destruct loaded; [|by left..]. destruct file as [f|]; [|by left].
  destruct (bool_decide (filename f = [])); [by left|].
  destruct (negb _); [by left|].
  destruct (parse_txt_to_df U (disk w1) (Bytes (content f))) as [df_dia| |];
    [|by left..].
  destruct (DF_BASE w1) as [base|]; [|by left].
  destruct (df_repetidos base df_dia) as [reps| |]; [|by left..].
  right. exists reps. by destruct (project _ _).
Qed.

(** The base is not extended.  What [upload_dia] leaves as base and on
    disk is what [ensure_base_loaded] leaves: with the base loaded, an upload
    changes neither the base nor the files, so the records of a daily file
    never become part of the base. *)
Theorem upload_dia_keeps_base (U : UnicodeTables) (w : World)
    (file : option Upload) :
  DF_BASE (fst (upload_dia U w file)) = DF_BASE (fst (ensure_base_loaded U w))
  /\ disk (fst (upload_dia U w file)) = disk (fst (ensure_base_loaded U w))
  /\ (forall base, DF_BASE w = Some base ->
        DF_BASE (fst (upload_dia U w file)) = Some base
        /\ disk (fst (upload_dia U w file)) = disk w).
Proof.
  assert (H : DF_BASE (fst (upload_dia U w file))
              = DF_BASE (fst (ensure_base_loaded U w))
              /\ disk (fst (upload_dia U w file))
                 = disk (fst (ensure_base_loaded U w))).
  { destruct (upload_dia_world U w file) as [->|[reps ->]]; by split. }
  destruct H as [H1 H2]. split; [done|]. split; [done|].
  intros base Hb. rewrite H1, H2. unfold ensure_base_loaded. by rewrite Hb.
Qed.

(** Rejected uploads.  With the base loaded, a request without a file,
    with an empty file name, or with an extension other than txt and csv is
    answered by the redirect with its message, the checks being made in this
    order.  Whenever [upload_dia] answers with a redirect, [DF_MATCH] is
    what it was. *)
Theorem upload_dia_rejections (U : UnicodeTables) (w : World) :
  (snd (ensure_base_loaded U w) = Ok tt ->
   snd (upload_dia U w None) = Redirect (lit "Nenhum arquivo enviado.") danger
   /\ (forall f, filename f = [] ->
         snd (upload_dia U w (Some f))
         = Redirect (lit "Nenhum arquivo selecionado.") warning)
   /\ (forall f, filename f <> [] -> extension U (filename f) ∉ ALLOWED_EXT ->
         snd (upload_dia U w (Some f))
         = Redirect (lit "Formato n" ++ [227]
                     ++ lit "o permitido. Use .txt ou .csv") danger))
  /\ (forall file message category,
        snd (upload_dia U w file) = Redirect message category ->
        DF_MATCH (fst (upload_dia U w file)) = DF_MATCH w).
Proof.
  split.
  - intros Hok. unfold upload_dia.
    destruct (ensure_base_loaded U w) as [w1 loaded]. cbn [snd] in Hok.
    subst loaded. split; [done|]. split.
    + intros f Hf. by rewrite bool_decide_true.
    + intros f Hf Hext. rewrite bool_decide_false by done.
      by rewrite bool_decide_false.
  - intros file message category. unfold upload_dia.
    pose proof (ensure_base_loaded_keeps_match U w) as Hkeep.
    destruct (ensure_base_loaded U w) as [w1 loaded]. cbn [fst] in Hkeep.
    destruct loaded; [|done..]. destruct file as [f|]; [|done].
    destruct (bool_decide (filename f = [])); [done|].
    destruct (negb _); [done|].
    destruct (parse_txt_to_df U (disk w1) (Bytes (content f))) as [df_dia| |];
      [|done..].
    destruct (DF_BASE w1) as [base|]; [|done].
    destruct (df_repetidos base df_dia); [|done..].
    by destruct (project _ _).
Qed.

Lemma takewhile_app_stop {A} (p : A -> bool) (a : list A) x b :
  forallb p a = true -> p x = false -> takewhile p (a ++ x :: b) = a.
Proof.
  intros Ha Hx. induction a as [|y a IH]; cbn.
  - by rewrite Hx.
  - cbn in Ha. apply andb_true_iff in Ha as [-> Ha]. by rewrite IH.
Qed.

(** The extension.  It is the text after the last dot, in lower case, and
    empty when the name has no dot: "Relatorio.TXT" has "txt", "dia.txt.bak"
    has "bak", "txt" has none and ".csv" has "csv". *)
Theorem extension_last_dot (U : UnicodeTables) :
  (forall name ext, ~ In DOT ext ->
     extension U (name ++ DOT :: ext) = lower U ext)
  /\ (forall name, ~ In DOT name -> extension U name = [])
  /\ extension U (lit "Relatorio.TXT") = lit "txt"
  /\ extension U (lit "dia.txt.bak") = lit "bak"
  /\ extension U (lit "txt") = lit ""
  /\ extension U (lit ".csv") = lit "csv".
Proof.
  split; [|split; [|by vm_compute]].
  - intros name ext Hext. unfold extension.
    assert (E : existsb (N.eqb DOT) (name ++ DOT :: ext) = true).
    { apply existsb_exists. exists DOT. rewrite in_app_iff. split; [|done].
      right. by left. }
    rewrite E, rev_app_distr. cbn [rev]. rewrite <- app_assoc. cbn [app].
    rewrite takewhile_app_stop; [by rewrite rev_involutive| |done].
    apply forallb_forall. intros c Hc. apply in_rev in Hc.
    apply negb_true_iff, N.eqb_neq. by intros ->.
  - intros name Hname. unfold extension.
    destruct (existsb (N.eqb DOT) name) eqn:E; [|done].
    apply existsb_exists in E as (c & Hc & E). apply N.eqb_eq in E as <-. done.
Qed.

Lemma ensure_base_loaded_first_run_witness :
  snd (ensure_base_loaded sample_tables example_first_start) = Ok tt
  /\ DF_BASE (fst (ensure_base_loaded sample_tables example_first_start))
     = Some example_base.
Proof.
  assert (H1 : DF_BASE example_first_start = None) by reflexivity.
  assert (H2 : base_csv (disk example_first_start) = None) by reflexivity.
  destruct (ensure_base_loaded_first_run sample_tables example_first_start H1 H2)
    as (_ & H & _).
  destruct (H example_base_txt example_base) as (Ha & Hb & _).
  - reflexivity.
  - vm_compute. reflexivity.
  - split; [exact Ha|exact Hb].
Defined.

(** ** The result of an upload *)

Lemma select_Series_inv df l vs :
  select df l = Series vs ->
  exists j, positions l (columns df) 0 = [j] /\ columns df !! j = Some l.
Proof.
  unfold select. destruct (positions l (columns df) 0) as [|j [|j' js]] eqn:E;
    [done| |done].
  intros _. exists j. split; [done|].
  assert (Hx : In j (positions l (columns df) 0)) by (rewrite E; by left).
  apply positions_spec in Hx as [_ Hx].
  by replace (j - 0)%nat with j in Hx by lia.
Qed.

(** The matcher on a daily table with rows, a [chave] column and no
    [is_repetido] column. *)
Lemma df_repetidos_rows base df_dia bk dk :
  wf_frame df_dia ->
  select base chave = Series bk -> select df_dia chave = Series dk ->
  is_repetido ∉ columns df_dia ->
  df_repetidos base df_dia
  = Ok (match rows df_dia with
        | [] => empty_frame
        | _ =>
            {| columns := columns df_dia ++ [is_repetido];
               rows := map (fun r => r ++ [Bool true])
                         (List.filter (is_repeat base df_dia) (rows df_dia)) |}
        end).
Proof.
  intros Hwf Hb Hd Hno.
  set (flags := map (fun r => Bool (is_repeat base df_dia r)) (rows df_dia)).
  assert (Hflags : map (fun k => Bool (key_in (list_to_set (map py_str bk)) k)) dk
                   = flags).
  { rewrite (select_Series_cell_at _ _ _ Hd), map_map. subst flags.
    apply map_ext. intros r. f_equal. by apply key_in_is_repeat. }
  assert (Hlen : length flags = length (rows df_dia))
    by (subst flags; apply length_map).
  assert (Hsel : select (set_col df_dia is_repetido flags) is_repetido
                 = Series flags).
  { apply select_set_col_same; [done..|].
    rewrite (positions_absent _ _ 0 Hno). cbn. lia. }
  unfold df_repetidos. rewrite Hb, bind_Ok.
  rewrite (column_apply_Series _ _ dk) by done.
  rewrite bind_Ok, Hflags, (get_series_Series _ _ flags Hsel), bind_Ok.
  f_equal. subst flags.
  destruct (rows df_dia) as [|r rs] eqn:Hr; [done|].
  cbn [map mask_index]. unfold filter_rows. cbn [columns rows set_col].
  rewrite Hr, bool_decide_false by done. f_equal.
  change (Bool (is_repeat base df_dia r)
          :: map (fun r => Bool (is_repeat base df_dia r)) rs)
    with (map (fun r => Bool (is_repeat base df_dia r)) (r :: rs)).
  rewrite (filter_flagged (columns df_dia) is_repetido (is_repeat base df_dia)).
  apply map_ext. intros x. unfold set_cell. by rewrite bool_decide_false.
Qed.

Lemma project_three cols rs jr je jc :
  positions Remetente cols 0 = [jr] ->
  positions EnderecoOrigem cols 0 = [je] ->
  positions CEPOrigem cols 0 = [jc] ->
  project {| columns := cols; rows := rs |} [Remetente; EnderecoOrigem; CEPOrigem]
  = Ok (map (fun r => [nth jr r NaN; nth je r NaN; nth jc r NaN]) rs).
Proof.
  intros Hr He Hc. unfold project. cbn [columns rows project_positions].
  by rewrite Hr, He, Hc.
Qed.

Lemma nth_snoc_lt {A} (r : list A) x d j :
  (j < length r)%nat -> nth j (r ++ [x]) d = nth j r d.
Proof. intros H. by apply app_nth1. Qed.

(** The positions of the three fields in a parsed table with rows. *)
Lemma parsed_fields_positions U fs src df :
  parse_txt_to_df U fs src = Ok df -> rows df <> [] ->
  exists jr je jc,
    positions Remetente (columns df) 0 = [jr]
    /\ positions EnderecoOrigem (columns df) 0 = [je]
    /\ positions CEPOrigem (columns df) 0 = [jc]
    /\ columns df !! jr = Some Remetente
    /\ columns df !! je = Some EnderecoOrigem
    /\ columns df !! jc = Some CEPOrigem.
Proof.
  intros Hp Hrows. apply parse_txt_to_df_lines in Hp as (linhas & Hp).
  destruct linhas as [|l ls].
  { injection Hp as <-. by destruct Hrows. }
  apply parse_lines_fields in Hp as (_ & rem & ende & cep & Hp); [|done].
  destruct Hp as (_ & _ & _ & H1 & H2 & H3 & _).
  apply select_Series_inv in H1 as (jr & ? & ?).
  apply select_Series_inv in H2 as (je & ? & ?).
  apply select_Series_inv in H3 as (jc & ? & ?).
  by exists jr, je, jc.
Qed.

(** The three cells shown of a flagged row are those of the daily row. *)
Lemma shown_cells df jr je jc (x : list cell) (v : cell) :
  positions Remetente (columns df) 0 = [jr] ->
  positions EnderecoOrigem (columns df) 0 = [je] ->
  positions CEPOrigem (columns df) 0 = [jc] ->
  columns df !! jr = Some Remetente ->
  columns df !! je = Some EnderecoOrigem ->
  columns df !! jc = Some CEPOrigem ->
  length x = length (columns df) ->
  [nth jr (x ++ [v]) NaN; nth je (x ++ [v]) NaN; nth jc (x ++ [v]) NaN]
  = [cell_at df Remetente x; cell_at df EnderecoOrigem x; cell_at df CEPOrigem x].
Proof.
  intros Pr Pe Pc Lr Le Lc Lx. unfold cell_at. rewrite Pr, Pe, Pc.
  rewrite !nth_snoc_lt; [done|rewrite Lx; by eapply lookup_lt_Some..].
Qed.

(** An accepted upload whose table has rows: the world and the response. *)
Lemma upload_dia_matched U w f base df_dia bk dk :
  snd (ensure_base_loaded U w) = Ok tt ->
  DF_BASE (fst (ensure_base_loaded U w)) = Some base ->
  select base chave = Series bk ->
  filename f <> [] ->
  extension U (filename f) ∈ ALLOWED_EXT ->
  parse_txt_to_df U (disk w) (Bytes (content f)) = Ok df_dia ->
  rows df_dia <> [] ->
  select df_dia chave = Series dk ->
  is_repetido ∉ columns df_dia ->
  upload_dia U w (Some f)
  = (set_DF_MATCH (fst (ensure_base_loaded U w))
       {| columns := columns df_dia ++ [is_repetido];
          rows := map (fun r => r ++ [Bool true])
                    (List.filter (is_repeat base df_dia) (rows df_dia)) |},
     Resultado (length (List.filter (is_repeat base df_dia) (rows df_dia)))
       (take 500
          (map (fun r => [cell_at df_dia Remetente r;
                          cell_at df_dia EnderecoOrigem r;
                          cell_at df_dia CEPOrigem r])
             (List.filter (is_repeat base df_dia) (rows df_dia))))).
Proof.
  intros Hok Hbase Hb Hname Hext Hparse Hrows Hd Hno.
  pose proof (parse_txt_to_df_wf _ _ _ _ Hparse) as Hwf.
  destruct (parsed_fields_positions _ _ _ _ Hparse Hrows)
    as (jr & je & jc & Pr & Pe & Pc & Lr & Le & Lc).
  unfold upload_dia.
  destruct (ensure_base_loaded U w) as [w1 loaded]. cbn [fst snd] in *.
  subst loaded. rewrite bool_decide_false by done.
  rewrite bool_decide_true by done. cbn [negb].
  rewrite (parse_bytes_any_disk U (disk w1) (disk w)), Hparse, Hbase.
  rewrite (df_repetidos_rows base df_dia bk dk) by done.
  destruct (rows df_dia) as [|r0 rs] eqn:Hr; [done|]. rewrite <- Hr.
  rewrite (project_three _ _ jr je jc)
    by (rewrite positions_app_other by label_ne; done).
  cbn [rows]. rewrite length_map. f_equal. f_equal. f_equal.
  rewrite map_map. apply map_ext_in. intros x Hx.
  apply (shown_cells df_dia); try done.
  unfold wf_frame in Hwf. rewrite List.Forall_forall in Hwf. apply Hwf.
  by apply List.filter_In in Hx as [Hx _].
Qed.

(** The result of an upload.  For an accepted file that parses to a table
    with rows (one [chave] column, no [is_repetido] column) against a loaded
    base with a [chave] column: the response has the number of daily rows
    whose key is in the base and the sender, address and postal code of the
    first 500 of them, in the order of the file; [DF_MATCH] holds all of
    them, each with its flag set. *)
Theorem upload_dia_result (U : UnicodeTables) (w : World) (f : Upload)
    (base df_dia : DataFrame) (bk dk : list cell) :
  snd (ensure_base_loaded U w) = Ok tt ->
  DF_BASE (fst (ensure_base_loaded U w)) = Some base ->
  select base chave = Series bk ->
  filename f <> [] ->
  extension U (filename f) ∈ ALLOWED_EXT ->
  parse_txt_to_df U (disk w) (Bytes (content f)) = Ok df_dia ->
  rows df_dia <> [] ->
  select df_dia chave = Series dk ->
  is_repetido ∉ columns df_dia ->
  let matched := List.filter (is_repeat base df_dia) (rows df_dia) in
  let r := upload_dia U w (Some f) in
  snd r
  = Resultado (length matched)
      (take 500
         (map (fun r => [cell_at df_dia Remetente r;
                         cell_at df_dia EnderecoOrigem r;
                         cell_at df_dia CEPOrigem r]) matched))
  /\ DF_MATCH (fst r)
     = Some {| columns := columns df_dia ++ [is_repetido];
               rows := map (fun r => r ++ [Bool true]) matched |}.
Proof.
  intros Hok Hbase Hb Hname Hext Hparse Hrows Hd Hno matched r. subst r.
  by rewrite (upload_dia_matched U w f base df_dia bk dk).
Qed.


Lemma upload_dia_result_witness :
  exists total table,
    snd (upload_dia sample_tables example_world (Some example_daily_upload))
    = Resultado total table.
Proof.
  destruct (upload_dia_result sample_tables example_world example_daily_upload
              example_base example_daily
              (map (cell_at example_base chave) (rows example_base))
              (map (cell_at example_daily chave) (rows example_daily)))
    as [H _].
  - reflexivity.
  - reflexivity.
  - vm_compute. reflexivity.
  - discriminate.
  - vm_compute. constructor.
  - vm_compute. reflexivity.
  - vm_compute. discriminate.
  - vm_compute. reflexivity.
  - decided.
  - eexists _, _. exact H.
Defined.


(** ** The front page and the report *)

(** The front page.  [index] leaves the globals and the files as
    [ensure_base_loaded] does; the count it shows is the number of rows of
    the base (the branch for a base that is not loaded is never taken); and
    an upload does not change it. *)
Theorem index_base_count (U : UnicodeTables) (w : World) :
  fst (index U w) = fst (ensure_base_loaded U w)
  /\ (forall n, snd (index U w) = Ok n ->
        exists base, DF_BASE (fst (index U w)) = Some base
                     /\ n = length (rows base))
  /\ (forall file, snd (index U (fst (upload_dia U w file))) = snd (index U w)).
Proof.
  assert (H1 : fst (index U w) = fst (ensure_base_loaded U w)).
  { unfold index. destruct (ensure_base_loaded U w) as [w1 [[]| |]]; done. }
  split; [done|]. split.
  - intros n Hn. rewrite H1. unfold index in Hn.
    destruct (ensure_base_loaded_cases U w) as [[Hok [b Hb]]|[Hne _]].
    + destruct (ensure_base_loaded U w) as [w1 loaded]. cbn [fst snd] in *.
      subst loaded. rewrite Hb in Hn. injection Hn as <-. by exists b.
    + destruct (ensure_base_loaded U w) as [w1 [[]| |]]; done.
  - intros file.
    destruct (ensure_base_loaded_cases U w) as [[Hok [b Hb]]|[Hne Hw]].
    + assert (E : forall m fs,
                snd (index U {| DF_BASE := Some b; DF_MATCH := m; disk := fs |})
                = Ok (length (rows b))) by done.
      assert (E2 : snd (index U w) = Ok (length (rows b))).
      { unfold index. destruct (ensure_base_loaded U w) as [w1 loaded].
        cbn [fst snd] in *. subst loaded. by rewrite Hb. }
      rewrite E2.
      destruct (upload_dia_world U w file) as [->|[reps ->]].
      * destruct (fst (ensure_base_loaded U w)) as [ob m fs]. cbn in Hb.
        subst ob. apply E.
      * destruct (fst (ensure_base_loaded U w)) as [ob m fs]. cbn in Hb.
        subst ob. apply E.
    + assert (E : fst (upload_dia U w file) = w).
      { unfold upload_dia. destruct (ensure_base_loaded U w) as [w1 loaded].
        cbn [fst snd] in *. subst w1. by destruct loaded as [[]| |]. }
      by rewrite E.
Qed.

(** Calls that were all made: the document is the calls in order, and the
    library raised on none of them. *)
Lemma make_calls_made lib made todo doc :
  make_calls lib made todo = inr doc ->
  doc = made ++ todo
  /\ forall pre c post, todo = pre ++ c :: post -> lib (made ++ pre) c = None.
Proof.
  revert made. induction todo as [|c rest IH]; intros made; cbn [make_calls].
  - intros [= <-]. split; [by rewrite app_nil_r|]. by intros [|? ?] ? ? ?.
  - destruct (lib made c) as [e|] eqn:E; [done|]. intros H.
    apply IH in H as [-> H]. split; [by rewrite <- app_assoc|].
    intros [|x pre] c' post Heq; cbn in Heq; injection Heq as -> ->.
    + by rewrite app_nil_r.
    + specialize (H pre c' post eq_refl). by rewrite <- app_assoc in H.
Qed.

(** Calls with one among them that the library refuses whatever was called
    before: an exception ends them. *)
Lemma make_calls_refused lib made todo c :
  In c todo -> (forall pre, lib pre c <> None) ->
  exists e, make_calls lib made todo = inl e.
Proof.
  intros Hin Hlib. revert made.
  induction todo as [|c' rest IH]; intros made; [done|].
  cbn [make_calls]. destruct (lib made c') as [e|] eqn:E; [by eexists|].
  destruct Hin as [->|Hin]; [by apply Hlib in E|]. by apply IH.
Qed.

Lemma report_lines_multi_cell (rs : list (list cell)) :
  report_lines (map (fun r => FPDF.multi_cell 0 5 (linha r)) rs) = map linha rs.
Proof.
  unfold report_lines. induction rs as [|r rs IH]; [done|].
  cbn [map omap]. cbn. by f_equal.
Qed.

Lemma report_lines_app a b : report_lines (a ++ b) = report_lines a ++ report_lines b.
Proof. apply omap_app. Qed.

Lemma length_linha r : (length (linha r) <= 518)%nat.
Proof.
  unfold linha. cbv zeta. rewrite !length_app, !length_take. cbn [length]. lia.
Qed.

(** No report line can be encoded in latin-1: each has the dash U+2014. *)
Lemma encode_latin_1_dash a b : encode latin_1 (a ++ EM_DASH :: b) = None.
Proof.
  cbn [encode]. destruct (mapM Byte.of_N (a ++ EM_DASH :: b)) as [bs|] eqn:E;
    [|done].
  apply mapM_Some in E. apply Forall2_app_inv_l in E as (k1 & k2 & _ & E & _).
  inversion E as [|? ? ? ? Hd _]; subst. by vm_compute in Hd.
Qed.

Lemma project_length df labels table :
  project df labels = Ok table -> length table = length (rows df).
Proof.
  unfold project. destruct (project_positions (columns df) labels); [|done..].
  cbn. intros [= <-]. by rewrite length_map.
Qed.

(** What a document that was sent is made of. *)
Lemma download_pdf_sent lib w att :
  download_pdf lib w = inr att ->
  exists m table,
    DF_MATCH w = Some m /\ rows m <> []
    /\ project m [Remetente; EnderecoOrigem; CEPOrigem] = Ok table
    /\ download_name att = PDF_FILENAME
    /\ document att
       = opening_calls
         ++ map (fun r => FPDF.multi_cell 0 5 (linha r)) (map (map fillna) table)
         ++ closing_calls (length (rows m))
    /\ forall pre c post, document att = pre ++ c :: post -> lib pre c = None.
Proof.
  unfold download_pdf. destruct (DF_MATCH w) as [m|]; [|done].
  destruct (Nat.eqb_spec (length (rows m)) 0) as [E|Hn]; [done|].
  destruct (make_calls lib [] opening_calls) as [e|made] eqn:E1; [done|].
  destruct (project m [Remetente; EnderecoOrigem; CEPOrigem]) as [table| |] eqn:Hp;
    [|done..].
  cbv zeta.
  destruct (make_calls lib made _) as [e|made'] eqn:E2; [done|].
  intros [= <-]. cbn [download_name document].
  apply make_calls_made in E1 as [-> H1]. apply make_calls_made in E2 as [-> H2].
  rewrite app_nil_l in *.
  exists m, table. split; [done|]. split; [by destruct (rows m)|].
  split; [done|]. split; [done|]. split.
  - by rewrite length_map, (project_length _ _ _ Hp).
  - intros pre c post Heq.
    apply List.app_eq_app in Heq as (k & [[Ea Eb]|[Ea Eb]]).
    + destruct k as [|x k].
      * rewrite app_nil_r in Ea. cbn in Eb. subst pre.
        apply (H2 [] c post). by rewrite Eb.
      * cbn in Eb. injection Eb as <- ->.
        specialize (H1 pre c k). rewrite app_nil_l in H1. by apply H1.
    + subst pre. by apply (H2 k c post).
Qed.

(** The report.  Without a stored result, or with one without rows,
    [download_pdf] answers with the redirect and its warning, and calls the
    library not at all.  When it sends a file, the library raised on none of
    the calls, the file is named repetidos_remetente.pdf, the document has
    one line for each row of [DF_MATCH] (all of them, not the first 500), no
    line is longer than 518 characters, the total printed is the number of
    rows and the last call is [output].  Every line, like the title, has the
    dash U+2014, which latin-1 cannot encode. *)
Theorem download_pdf_report (lib : FPDF.library) (w : World) :
  (DF_MATCH w = None \/ (exists m, DF_MATCH w = Some m /\ rows m = []) ->
   download_pdf lib w = inl nothing_to_report)
  /\ (forall att, download_pdf lib w = inr att ->
        exists m,
          DF_MATCH w = Some m /\ rows m <> []
          /\ download_name att = PDF_FILENAME
          /\ length (report_lines (document att)) = length (rows m)
          /\ Forall (fun l => (length l <= 518)%nat /\ encode latin_1 l = None)
               (report_lines (document att))
          /\ In (FPDF.cell 0 6
                   (lit "Total de registros repetidos: "
                    ++ str_of_nat (length (rows m))) true)
               (document att)
          /\ last (document att) = Some FPDF.output
          /\ forall pre c post, document att = pre ++ c :: post -> lib pre c = None)
  /\ encode latin_1 titulo = None.
Proof.
  split; [|split].
  - intros [Hn|(m & Hm & Hr)]; unfold download_pdf.
    + by rewrite Hn.
    + by rewrite Hm, Hr.
  - intros att Hatt.
    apply download_pdf_sent in Hatt
      as (m & table & Hm & Hr & Hp & Hname & Hdoc & Hlib).
    exists m. split; [done|]. split; [done|]. split; [done|].
    assert (Hlines : report_lines (document att)
                     = map linha (map (map fillna) table)).
    { rewrite Hdoc, !report_lines_app, report_lines_multi_cell.
      cbn. by rewrite app_nil_r. }
    rewrite Hlines. split; [|split; [|split; [|split; [|done]]]].
    + by rewrite !length_map, (project_length _ _ _ Hp).
    + apply List.Forall_forall. intros l Hl.
      apply in_map_iff in Hl as (r & <- & _). split; [apply length_linha|].
      unfold linha. cbv zeta. rewrite (app_assoc _ [SPACE; EM_DASH; SPACE]).
      change [SPACE; EM_DASH; SPACE] with ([SPACE] ++ EM_DASH :: [SPACE]).
      rewrite !app_assoc, <- (app_assoc _ (EM_DASH :: [SPACE])).
      apply encode_latin_1_dash.
    + rewrite Hdoc, !in_app_iff. right. right. cbn. tauto.
    + by rewrite Hdoc, !last_app.
  - by vm_compute.
Qed.

(** Upload, then report, with a library that raises on a [cell] whose
    text latin-1 cannot encode.  After an accepted upload of a table with
    rows (one [chave] column in the base and in the daily table, no
    [is_repetido] column in the daily table): when no daily row is in the
    base the report is refused with the warning; when some are, the request
    ends with an exception of the library, at the title at the latest; no
    file is sent. *)
Theorem download_pdf_after_upload (U : UnicodeTables) (lib : FPDF.library)
    (w : World) (f : Upload) (base df_dia : DataFrame) (bk dk : list cell) :
  snd (ensure_base_loaded U w) = Ok tt ->
  DF_BASE (fst (ensure_base_loaded U w)) = Some base ->
  select base chave = Series bk ->
  filename f <> [] ->
  extension U (filename f) ∈ ALLOWED_EXT ->
  parse_txt_to_df U (disk w) (Bytes (content f)) = Ok df_dia ->
  rows df_dia <> [] ->
  select df_dia chave = Series dk ->
  is_repetido ∉ columns df_dia ->
  (forall pre wd h txt ln,
     encode latin_1 txt = None -> lib pre (FPDF.cell wd h txt ln) <> None) ->
  let matched := List.filter (is_repeat base df_dia) (rows df_dia) in
  let w' := fst (upload_dia U w (Some f)) in
  (matched = [] -> download_pdf lib w' = inl nothing_to_report)
  /\ (matched <> [] -> exists e, download_pdf lib w' = inl (ServerError e))
  /\ (forall att, download_pdf lib w' <> inr att).
Proof.
  intros Hok Hbase Hb Hname Hext Hparse Hrows Hd Hno Hlib matched w'.
  set (res := {| columns := columns df_dia ++ [is_repetido];
                 rows := map (fun r => r ++ [Bool true]) matched |}).
  assert (Hm : DF_MATCH w' = Some res).
  { subst w'. by rewrite (upload_dia_matched U w f base df_dia bk dk). }
  assert (Hopen : exists e, make_calls lib [] opening_calls = inl e).
  { apply (make_calls_refused lib [] opening_calls (FPDF.cell 0 8 titulo true)).
    - cbn. tauto.
    - intros pre. apply Hlib. by vm_compute. }
  assert (H1 : matched = [] -> download_pdf lib w' = inl nothing_to_report).
  { intros E. unfold download_pdf. rewrite Hm. subst res.
    cbn [rows]. rewrite E. reflexivity. }
  assert (H2 : matched <> [] -> exists e, download_pdf lib w' = inl (ServerError e)).
  { intros Hne. unfold download_pdf. rewrite Hm.
    destruct (Nat.eqb_spec (length (rows res)) 0) as [E|_].
    { subst res. cbn [rows] in E. rewrite length_map in E. by destruct matched. }
    destruct Hopen as [e ->]. by exists e. }
  split; [done|]. split; [done|].
  intros att Hatt. destruct matched as [|r rs] eqn:Em.
  - by rewrite H1 in Hatt.
  - destruct H2 as [e He]; [done|]. by rewrite He in Hatt.
Qed.

Lemma download_pdf_after_upload_witness :
  exists e,
    download_pdf (latin_1_only example_codec_error)
      (fst (upload_dia sample_tables example_world (Some example_daily_upload)))
    = inl (ServerError e).
Proof.
  destruct (download_pdf_after_upload sample_tables
              (latin_1_only example_codec_error)
              example_world
              example_daily_upload example_base example_daily
              (map (cell_at example_base chave) (rows example_base))
              (map (cell_at example_daily chave) (rows example_daily)))
    as (_ & H & _).
  - reflexivity.
  - reflexivity.
  - vm_compute. reflexivity.
  - discriminate.
  - vm_compute. constructor.
  - vm_compute. reflexivity.
  - vm_compute. discriminate.
  - vm_compute. reflexivity.
  - decided.
  - intros pre wd h txt ln E. unfold latin_1_only. by rewrite E.
  - apply H. vm_compute. discriminate.
Defined.

(** ** The column mapper, the header and the base, further *)

(** The column mapper, further.  A column keeps its name or gets one of
    the five standard names, and mapping a mapped name changes nothing.  A
    name with the sender marker is a sender column whatever else it has
    ("CEP do Remetente"); case and surrounding spaces do not matter; and the
    rule of the destination address knows the accented spelling only:
    "Endereco Destino" keeps its name. *)
Theorem colmap_stable (U : UnicodeTables) (c : pystr) :
  (colmap U c ∈ [Remetente; EnderecoOrigem; CEPOrigem; EnderecoDestino;
                 Destinatario]
   \/ colmap U c = c)
  /\ colmap U (colmap U c) = colmap U c
  /\ (contains (lit "remetent") (lower U (strip c)) = true ->
      colmap U c = Remetente)
  /\ colmap U (lit "CEP do Remetente") = Remetente
  /\ colmap U (lit "  cep ORIGEM ") = CEPOrigem
  /\ colmap U (lit "DESTINATARIO") = Destinatario
  /\ colmap U (lit "Endereco Destino") = lit "Endereco Destino".
Proof.
  assert (H : colmap U c ∈ [Remetente; EnderecoOrigem; CEPOrigem; EnderecoDestino;
                            Destinatario]
              \/ colmap U c = c).
  { unfold colmap.
    repeat match goal with
           | |- context [if ?b then _ else _] => destruct b
           end; try (by right); left; repeat constructor. }
  split; [done|]. split; [|split; [|by vm_compute]].
  - destruct H as [H|E]; [|by rewrite !E].
    repeat (apply elem_of_cons in H as [->|H]; [by vm_compute|]).
    by apply elem_of_nil in H.
  - intros E. unfold colmap. by rewrite E.
Qed.

Lemma find_index_app_first {A} (p : A -> bool) pre x rest :
  Forall (fun y => p y = false) pre -> p x = true ->
  find_index p (pre ++ x :: rest) = Some (length pre).
Proof.
  intros Hpre Hx. induction Hpre as [|y pre Hy _ IH]; cbn.
  - by rewrite Hx.
  - by rewrite Hy, IH.
Qed.

Lemma find_index_none {A} (p : A -> bool) l :
  Forall (fun y => p y = false) l -> find_index p l = None.
Proof.
  induction 1 as [|y l Hy _ IH]; [done|]. cbn. by rewrite Hy, IH.
Qed.

Lemma drop_past {A} (pre : list A) x rest :
  drop (S (length pre)) (pre ++ x :: rest) = rest.
Proof. induction pre as [|y pre IH]; [done|]. apply IH. Qed.

(** Lines before the header.  When a line has the three markers and no
    line before it has them, the lines before it are ignored: the table is
    that of the lines from it on.  When no line has them, the first line is
    the header and is no record. *)
Theorem parse_lines_preamble (U : UnicodeTables) (pre : list pystr)
    (l : pystr) (rest : list pystr) :
  Forall (fun x => is_header_line U x = false) pre ->
  (is_header_line U l = true ->
   parse_lines U (pre ++ l :: rest) = parse_lines U (l :: rest)
   /\ parse_lines U (l :: rest)
      = normalise_columns U (built_frame U (split_linha l) rest))
  /\ (Forall (fun x => is_header_line U x = false) (l :: rest) ->
      parse_lines U (l :: rest)
      = normalise_columns U (built_frame U (split_linha l) rest)).
Proof.
  intros Hpre. split.
  - intros Hl.
    assert (E0 : encontrar_linha_cabecalho U (l :: rest) = 0%nat).
    { unfold encontrar_linha_cabecalho. cbn. by rewrite Hl. }
    assert (E1 : parse_lines U (l :: rest)
                 = normalise_columns U (built_frame U (split_linha l) rest)).
    { rewrite parse_lines_cons. cbv zeta. by rewrite E0. }
    split; [|done]. rewrite E1.
    destruct pre as [|p0 pre']; [done|].
    change ((p0 :: pre') ++ l :: rest) with (p0 :: (pre' ++ l :: rest)).
    rewrite parse_lines_cons. cbv zeta.
    change (p0 :: (pre' ++ l :: rest)) with ((p0 :: pre') ++ l :: rest).
    assert (E : encontrar_linha_cabecalho U ((p0 :: pre') ++ l :: rest)
                = length (p0 :: pre')).
    { unfold encontrar_linha_cabecalho. by rewrite find_index_app_first. }
    rewrite E. f_equal. f_equal.
    + f_equal. apply nth_middle.
    + apply drop_past.
  - intros Hnone. rewrite parse_lines_cons. cbv zeta.
    assert (E0 : encontrar_linha_cabecalho U (l :: rest) = 0%nat).
    { unfold encontrar_linha_cabecalho. by rewrite find_index_none. }
    by rewrite E0.
Qed.

Lemma parse_lines_preamble_witness :
  parse_lines sample_tables ([lit "Manifesto de coletas"] ++ example_daily_lines)
  = parse_lines sample_tables example_daily_lines.
Proof.
  refine (proj1 (proj1 (parse_lines_preamble sample_tables
                          [lit "Manifesto de coletas"]
                          (lit "Remetente" ++ [TAB] ++ lit "Endereco Origem"
                           ++ [TAB] ++ lit "CEP Origem")
                          (tail example_daily_lines) _) _)).
  - repeat constructor.
  - vm_compute. reflexivity.
Defined.

(** A base without the key.  When the base that is loaded has no [chave]
    column (the base parsed from an empty raw base has none), an accepted
    upload that parses ends with the KeyError of [chave], and [DF_MATCH] is
    what it was. *)
Theorem upload_dia_base_without_chave (U : UnicodeTables) (w : World)
    (f : Upload) (base df_dia : DataFrame) :
  snd (ensure_base_loaded U w) = Ok tt ->
  DF_BASE (fst (ensure_base_loaded U w)) = Some base ->
  chave ∉ columns base ->
  filename f <> [] ->
  extension U (filename f) ∈ ALLOWED_EXT ->
  parse_txt_to_df U (disk w) (Bytes (content f)) = Ok df_dia ->
  snd (upload_dia U w (Some f)) = ServerError (KeyError chave)
  /\ DF_MATCH (fst (upload_dia U w (Some f))) = DF_MATCH w.
Proof.
  intros Hok Hbase Hno Hname Hext Hparse.
  pose proof (ensure_base_loaded_keeps_match U w) as Hkeep.
  unfold upload_dia.
  destruct (ensure_base_loaded U w) as [w1 loaded]. cbn [fst snd] in *.
  subst loaded. rewrite bool_decide_false by done.
  rewrite bool_decide_true by done. cbn [negb].
  rewrite (parse_bytes_any_disk U (disk w1) (disk w)), Hparse, Hbase.
  unfold df_repetidos. by rewrite (select_absent base chave Hno).
Qed.

Lemma upload_dia_base_without_chave_witness :
  snd (upload_dia sample_tables example_empty_base_start
         (Some example_daily_upload))
  = ServerError (KeyError chave)
  /\ DF_MATCH (fst (upload_dia sample_tables example_empty_base_start
                      (Some example_daily_upload)))
     = DF_MATCH example_empty_base_start.
Proof.
  apply (upload_dia_base_without_chave sample_tables example_empty_base_start
           example_daily_upload empty_frame example_daily).
  - reflexivity.
  - reflexivity.
  - decided.
  - discriminate.
  - vm_compute. constructor.
  - vm_compute. reflexivity.
Defined.
